(** * Zayion real-time core: presence registry, room membership, proximity

  A shallow embedding of [models.py] (distance helpers),
  [location_service.py] (LocationService) and [websocket_handler.py]
  (WebSocketManager), with the properties of the design document proved
  or refuted against it.

  Conventions.
  - Python [float] values are idealised as real numbers ([R]); Python
    [int] values are [Z].
  - A Python exception is an explicit [None] of an [option] result.
  - [dict] is [gmap], [set] is [gset]; where the source iterates over a
    dict or a set, the model iterates over the canonical enumeration of
    the finite map or set.  No statement below depends on that order.
  - [datetime] values are integers (microseconds); [datetime.utcnow()] is
    an explicit argument [now]. *)

From Stdlib Require Import ZArith Reals Lra Lia.
From stdpp Require Import gmap strings list fin_maps.

Local Open Scope Z_scope.

(** ** models.py: distance helpers *)

Module GeoMath.

(** [math.radians] *)
Definition radians (x : R) : R := (x * (PI / 180))%R.

(** [math.sqrt]: raises [ValueError] on a negative argument. *)
Definition math_sqrt (x : R) : option R :=
  if Rlt_dec x 0 then None else Some (sqrt x).

(** [math.atan2 y x], the angle of the point [(x, y)] in (-pi, pi]. *)
Definition atan2 (y x : R) : R :=
  if Rlt_dec 0 x then atan (y / x)
  else if Rlt_dec x 0 then
    (if Rle_dec 0 y then atan (y / x) + PI else atan (y / x) - PI)%R
  else if Rlt_dec 0 y then (PI / 2)%R
  else if Rlt_dec y 0 then (- (PI / 2))%R
  else 0%R.

(** The haversine term [a] shared by both helpers. *)
Definition haversine_a (lat1 lng1 lat2 lng2 : R) : R :=
  let dlat := radians (lat2 - lat1) in
  let dlng := radians (lng2 - lng1) in
  (sin (dlat / 2) * sin (dlat / 2) +
   cos (radians lat1) * cos (radians lat2) *
   sin (dlng / 2) * sin (dlng / 2))%R.

(** [c = 2 * math.atan2(math.sqrt(a), math.sqrt(1-a))] *)
Definition central_angle (a : R) : option R :=
  match math_sqrt a, math_sqrt (1 - a) with
  | Some s, Some t => Some (2 * atan2 s t)%R
  | _, _ => None
  end.

(** [calculate_distance_between_points], in kilometres.  [None] is the
    [ValueError] of [math.sqrt].  In exact arithmetic the haversine term
    stays within [0, 1]; on floats, rounding can take it above 1 for
    nearly antipodal points, and the source then raises. *)
Definition calculate_distance_between_points
    (lat1 lng1 lat2 lng2 : R) : option R :=
  match central_angle (haversine_a lat1 lng1 lat2 lng2) with
  | Some c => Some (6371 * c)%R
  | None => None
  end.

(** [is_location_within_room_boundary lat lng room], on the three room
    columns it reads.  The haversine term is computed from the room to
    the point, as in the source. *)
Definition is_location_within_room_boundary
    (lat lng : R) (room_lat room_lng boundary_radius : R) : option bool :=
  let radius_km := (boundary_radius / 1000)%R in
  match central_angle (haversine_a room_lat room_lng lat lng) with
  | Some c =>
      let distance_km := (6371 * c)%R in
      Some (if Rle_dec distance_km radius_km then true else false)
  | None => None
  end.

End GeoMath.

(** ** models.py: the tables read and written by the real-time core

    Each table is the list of its rows in primary-key order; only the
    columns the real-time core touches are kept. *)

Module User.
Record t := mk {
  id : Z;
  name : option string;
  location_sharing_enabled : bool;
  is_active : bool;
  is_online : bool;
  last_seen : Z
}.
End User.

Module Room.
Record t := mk {
  id : Z;
  latitude : R;
  longitude : R;
  max_users : Z;
  boundary_radius : R;
  is_active : bool
}.
End Room.

Module RoomMembership.
Record t := mk {
  room_id : Z;
  user_id : Z;
  joined_at : Z;
  left_at : option Z;
  is_active : bool;
  join_latitude : option R;
  join_longitude : option R;
  join_accuracy : option R
}.
End RoomMembership.

Module Message.
Record t := mk {
  id : Z;
  room_id : Z;
  user_id : Z;
  content : string;
  created_at : Z
}.
End Message.

Module LocationData.
Record t := mk {
  user_id : Z;
  latitude : R;
  longitude : R;
  accuracy : option R;
  altitude : option R;
  speed : option R;
  heading : option R;
  updated_at : Z;
  expires_at : Z
}.
End LocationData.

Module Friend.
Record t := mk {
  user1_id : Z;
  user2_id : Z;
  is_active : bool;
  can_see_location : bool
}.
End Friend.

Record Database := mkDatabase {
  users : list User.t;
  rooms : list Room.t;
  memberships : list RoomMembership.t;
  messages : list Message.t;
  location_data : list LocationData.t;
  friends : list Friend.t
}.

(** [query.first()] *)
Definition first {A} (p : A -> bool) (rows : list A) : option A :=
  List.find p rows.

(** Attribute assignment on the row returned by [first], then [commit]. *)
Fixpoint update_first {A} (p : A -> bool) (f : A -> A) (rows : list A)
  : list A :=
  match rows with
  | [] => []
  | r :: rows' => if p r then f r :: rows' else r :: update_first p f rows'
  end.

Definition with_users (f : list User.t -> list User.t) (d : Database) :=
  mkDatabase (f (users d)) (rooms d) (memberships d) (messages d)
             (location_data d) (friends d).

Definition with_memberships
    (f : list RoomMembership.t -> list RoomMembership.t) (d : Database) :=
  mkDatabase (users d) (rooms d) (f (memberships d)) (messages d)
             (location_data d) (friends d).

Definition with_messages (f : list Message.t -> list Message.t)
    (d : Database) :=
  mkDatabase (users d) (rooms d) (memberships d) (f (messages d))
             (location_data d) (friends d).

Definition with_location_data
    (f : list LocationData.t -> list LocationData.t) (d : Database) :=
  mkDatabase (users d) (rooms d) (memberships d) (messages d)
             (f (location_data d)) (friends d).

(** [db.query(User).filter(User.id == user_id).first()] *)
Definition query_user (d : Database) (user_id : Z) : option User.t :=
  first (fun u => bool_decide (User.id u = user_id)) (users d).

(** [RoomMembership.room_id == room_id, RoomMembership.is_active == True] *)
Definition active_in_room (room_id : Z) (m : RoomMembership.t) : bool :=
  bool_decide (RoomMembership.room_id m = room_id)
  && RoomMembership.is_active m.

(** ... and [RoomMembership.user_id == user_id] *)
Definition active_membership (room_id user_id : Z) (m : RoomMembership.t)
  : bool :=
  bool_decide (RoomMembership.room_id m = room_id)
  && bool_decide (RoomMembership.user_id m = user_id)
  && RoomMembership.is_active m.

(** [db.query(LocationData).filter(LocationData.user_id == u).first()] *)
Definition query_location (d : Database) (user_id : Z)
  : option LocationData.t :=
  first (fun l => bool_decide (LocationData.user_id l = user_id))
        (location_data d).

(** The get-or-create pattern of both location writers: the user's row,
    or a fresh [LocationData(user_id=user_id)] added to the session,
    receives the assignments and is committed. *)
Definition upsert_location (user_id : Z)
    (assign : LocationData.t -> LocationData.t) (d : Database) : Database :=
  match query_location d user_id with
  | Some _ =>
      with_location_data
        (update_first
           (fun l => bool_decide (LocationData.user_id l = user_id)) assign)
        d
  | None =>
      with_location_data (fun rows =>
        rows ++
        [assign (LocationData.mk user_id 0 0 None None None None 0 0)]) d
  end.

(** Float comparisons [x <= y] and [x < y] as booleans. *)
Definition Rleb (x y : R) : bool := if Rle_dec x y then true else false.
Definition Rltb (x y : R) : bool := if Rlt_dec x y then true else false.

(** Truthiness of an optional float: [None] and [0.0] are falsy. *)
Definition truthy_float (x : option R) : option R :=
  match x with
  | Some v => if Req_dec_T v 0 then None else Some v
  | None => None
  end.

(** Truthiness of an optional integer id: [None] and [0] are falsy. *)
Definition truthy_id (x : option Z) : option Z :=
  match x with
  | Some v => if decide (v = 0) then None else Some v
  | None => None
  end.

(** ** location_service.py *)

Inductive MovementState := STATIONARY | WALKING | DRIVING | UNKNOWN.

Module LocationPoint.
Record t := mk {
  latitude : R;
  longitude : R;
  accuracy : option R;
  timestamp : Z;
  altitude : option R;
  speed : option R;
  heading : option R
}.
End LocationPoint.

Module ProximityEvent.
Record t := mk {
  user1_id : Z;
  user2_id : Z;
  distance_meters : R;
  event_type : string;
  timestamp : Z;
  location1 : LocationPoint.t;
  location2 : LocationPoint.t
}.
End ProximityEvent.

Module GeofenceEvent.
Record t := mk {
  user_id : Z;
  room_id : Z;
  event_type : string;
  timestamp : Z;
  user_location : LocationPoint.t;
  distance_to_center : R
}.
End GeofenceEvent.

(** The [geofence_data] dict built by [create_geofence]. *)
Module Geofence.
Record t := mk {
  room_id : Z;
  center_lat : R;
  center_lng : R;
  radius_meters : R;
  room_name : option string;
  created_at : Z;
  active : bool
}.
End Geofence.

Record LocationService := mkLocationService {
  proximity_cache : gmap (Z * Z) R;
  last_proximity_check : gmap Z Z;
  user_movement_history : gmap Z (list LocationPoint.t);
  movement_states : gmap Z MovementState;
  active_geofences : gmap Z Geofence.t;
  user_geofence_status : gmap (Z * Z) bool
}.

(** [LocationService.__init__] *)
Definition LocationService_init : LocationService :=
  mkLocationService ∅ ∅ ∅ ∅ ∅ ∅.

Definition proximity_threshold : R := 100%R.

Definition update_intervals (s : MovementState) : Z :=
  match s with
  | STATIONARY => 60
  | WALKING => 15
  | DRIVING => 5
  | UNKNOWN => 30
  end.

Definition with_proximity_cache (f : gmap (Z * Z) R -> gmap (Z * Z) R)
    (s : LocationService) :=
  mkLocationService (f (proximity_cache s)) (last_proximity_check s)
    (user_movement_history s) (movement_states s) (active_geofences s)
    (user_geofence_status s).

Definition with_last_proximity_check (f : gmap Z Z -> gmap Z Z)
    (s : LocationService) :=
  mkLocationService (proximity_cache s) (f (last_proximity_check s))
    (user_movement_history s) (movement_states s) (active_geofences s)
    (user_geofence_status s).

Definition with_user_movement_history
    (f : gmap Z (list LocationPoint.t) -> gmap Z (list LocationPoint.t))
    (s : LocationService) :=
  mkLocationService (proximity_cache s) (last_proximity_check s)
    (f (user_movement_history s)) (movement_states s) (active_geofences s)
    (user_geofence_status s).

Definition with_movement_states
    (f : gmap Z MovementState -> gmap Z MovementState)
    (s : LocationService) :=
  mkLocationService (proximity_cache s) (last_proximity_check s)
    (user_movement_history s) (f (movement_states s)) (active_geofences s)
    (user_geofence_status s).

Definition with_active_geofences
    (f : gmap Z Geofence.t -> gmap Z Geofence.t) (s : LocationService) :=
  mkLocationService (proximity_cache s) (last_proximity_check s)
    (user_movement_history s) (movement_states s) (f (active_geofences s))
    (user_geofence_status s).

Definition with_user_geofence_status
    (f : gmap (Z * Z) bool -> gmap (Z * Z) bool) (s : LocationService) :=
  mkLocationService (proximity_cache s) (last_proximity_check s)
    (user_movement_history s) (movement_states s) (active_geofences s)
    (f (user_geofence_status s)).

(** [(b - a).total_seconds()] for two datetimes in microseconds. *)
Definition total_seconds (a b : Z) : R := (IZR (b - a) / 1000000)%R.

(** [history[-n:]] *)
Definition last_n {A} (n : nat) (l : list A) : list A :=
  drop (length l - n)%nat l.

Section LocationService.

(** [geodesic((lat1, lng1), (lat2, lng2)).meters] of the geopy package,
    which is not part of this repository; [None] when it raises. *)
Variable geodesic_meters : R -> R -> R -> R -> option R.

Definition _calculate_distance (lat1 lng1 lat2 lng2 : R) : option R :=
  geodesic_meters lat1 lng1 lat2 lng2.

Definition _update_movement_history (user_id : Z)
    (location : LocationPoint.t) (s : LocationService) : LocationService :=
  let history :=
    default [] (user_movement_history s !! user_id) ++ [location] in
  let kept :=
    if (100 <? length history)%nat then last_n 100 history else history in
  with_user_movement_history (fun h => <[user_id := kept]> h) s.

(** The loop of [_detect_movement_state]: [(total_distance, total_time)]
    over the consecutive pairs of [points], [None] if a distance
    computation raises. *)
Fixpoint movement_totals (points : list LocationPoint.t) (acc : R * R)
  : option (R * R) :=
  match points with
  | p :: rest =>
      match rest with
      | q :: _ =>
          match _calculate_distance
                  (LocationPoint.latitude p) (LocationPoint.longitude p)
                  (LocationPoint.latitude q) (LocationPoint.longitude q) with
          | Some distance =>
              let time_diff :=
                total_seconds (LocationPoint.timestamp p)
                              (LocationPoint.timestamp q) in
              movement_totals rest
                (fst acc + distance, snd acc + time_diff)%R
          | None => None
          end
      | [] => Some acc
      end
  | [] => Some acc
  end.

(** The classification at the end of [_detect_movement_state]. *)
Definition classify_speed (total_distance total_time : R) : MovementState :=
  if Rleb total_time 0 then STATIONARY
  else
    let avg_speed_ms := (total_distance / total_time)%R in
    let avg_speed_kmh := (avg_speed_ms * 3.6)%R in
    if Rltb avg_speed_kmh 1 then STATIONARY
    else if Rltb avg_speed_kmh 8 then WALKING
    else DRIVING.

Definition _detect_movement_state (user_id : Z) (s : LocationService)
  : MovementState :=
  let history := default [] (user_movement_history s !! user_id) in
  if (length history <? 2)%nat then UNKNOWN
  else
    let recent_points := last_n 5 history in
    if (length recent_points <? 2)%nat then UNKNOWN
    else
      match movement_totals recent_points (0, 0)%R with
      | Some (total_distance, total_time) =>
          classify_speed total_distance total_time
      | None => UNKNOWN
      end.

Definition _update_location_in_db (user_id : Z)
    (location : LocationPoint.t) (d : Database) : Database :=
  upsert_location user_id (fun row =>
    LocationData.mk (LocationData.user_id row)
      (LocationPoint.latitude location) (LocationPoint.longitude location)
      (LocationPoint.accuracy location)
      (LocationPoint.altitude location) (LocationPoint.speed location)
      (LocationPoint.heading location)
      (LocationPoint.timestamp location)
      (LocationPoint.timestamp location + 24 * 3600 * 1000000)) d.

(** The Friend join condition of [_check_user_proximity]. *)
Definition friendship_between (user_id other : Z) (f : Friend.t) : bool :=
  (bool_decide (Friend.user1_id f = user_id)
   && bool_decide (Friend.user2_id f = other))
  || (bool_decide (Friend.user2_id f = user_id)
      && bool_decide (Friend.user1_id f = other)).

(** [friends_query.all()]: the location rows of the active, sharing
    users joined to [user_id] by an active friendship that allows seeing
    locations; every row is returned once. *)
Definition friend_locations (d : Database) (user_id : Z)
  : list LocationData.t :=
  filter (fun l : LocationData.t =>
    Is_true (
      existsb (fun u : User.t =>
        bool_decide (User.id u = LocationData.user_id l)
        && User.is_active u && User.location_sharing_enabled u
        && existsb (fun f : Friend.t =>
             friendship_between user_id (User.id u) f
             && Friend.is_active f && Friend.can_see_location f)
             (friends d))
        (users d)
      && negb (bool_decide (LocationData.user_id l = user_id))))
    (location_data d).

Definition cache_key (user_id friend_id : Z) : Z * Z :=
  (Z.min user_id friend_id, Z.max user_id friend_id).

(** [was_nearby] of [_check_user_proximity] *)
Definition was_nearby (previous_distance : option R) : bool :=
  match previous_distance with
  | Some d => Rleb d proximity_threshold
  | None => false
  end.

(** [location2] of a proximity event: the friend's row as a point. *)
Definition friend_point (friend_location : LocationData.t)
  : LocationPoint.t :=
  LocationPoint.mk
    (LocationData.latitude friend_location)
    (LocationData.longitude friend_location)
    (LocationData.accuracy friend_location)
    (LocationData.updated_at friend_location)
    None None None.

(** The body of the [for friend_location in friend_locations] loop.
    The result is [None] when the distance computation raises: the
    [except] clause then returns the empty list, and the cache keeps the
    entries written so far. *)
Fixpoint proximity_loop (now user_id : Z) (location : LocationPoint.t)
    (rows : list LocationData.t)
    (cache : gmap (Z * Z) R) (proximity_events : list ProximityEvent.t)
  : option (list ProximityEvent.t) * gmap (Z * Z) R :=
  match rows with
  | [] => (Some proximity_events, cache)
  | friend_location :: rows' =>
      let friend_id := LocationData.user_id friend_location in
      match _calculate_distance
              (LocationPoint.latitude location)
              (LocationPoint.longitude location)
              (LocationData.latitude friend_location)
              (LocationData.longitude friend_location) with
      | None => (None, cache)
      | Some distance =>
          let key := cache_key user_id friend_id in
          let previous_distance := cache !! key in
          let is_nearby := Rleb distance proximity_threshold in
          let events' :=
            if negb (eqb (was_nearby previous_distance) is_nearby) then
              let event_type :=
                if is_nearby then "entered"%string else "exited"%string in
              proximity_events ++
              [ProximityEvent.mk user_id friend_id distance event_type now
                 location (friend_point friend_location)]
            else proximity_events in
          proximity_loop now user_id location rows'
            (<[key := distance]> cache) events'
      end
  end.

Definition _check_user_proximity (now user_id : Z)
    (location : LocationPoint.t) (d : Database) (s : LocationService)
  : list ProximityEvent.t * LocationService :=
  let '(result, cache) :=
    proximity_loop now user_id location (friend_locations d user_id)
      (proximity_cache s) [] in
  (default [] result, with_proximity_cache (fun _ => cache) s).

(** The loop of [_check_geofences] over [active_geofences.items()]. *)
Fixpoint geofence_loop (now user_id : Z) (location : LocationPoint.t)
    (fences : list (Z * Geofence.t))
    (status : gmap (Z * Z) bool) (geofence_events : list GeofenceEvent.t)
  : option (list GeofenceEvent.t) * gmap (Z * Z) bool :=
  match fences with
  | [] => (Some geofence_events, status)
  | (room_id, geofence) :: fences' =>
      if negb (Geofence.active geofence) then
        geofence_loop now user_id location fences' status geofence_events
      else
        match _calculate_distance
                (LocationPoint.latitude location)
                (LocationPoint.longitude location)
                (Geofence.center_lat geofence)
                (Geofence.center_lng geofence) with
        | None => (None, status)
        | Some distance =>
            let is_inside := Rleb distance (Geofence.radius_meters geofence) in
            let key := (user_id, room_id) in
            let was_inside := default false (status !! key) in
            let events' :=
              if negb (eqb was_inside is_inside) then
                let event_type :=
                  if is_inside then "entered"%string else "exited"%string in
                geofence_events ++
                [GeofenceEvent.mk user_id room_id event_type now location
                   distance]
              else geofence_events in
            geofence_loop now user_id location fences'
              (<[key := is_inside]> status) events'
        end
  end.

Definition _check_geofences (now user_id : Z) (location : LocationPoint.t)
    (s : LocationService) : list GeofenceEvent.t * LocationService :=
  let '(result, status) :=
    geofence_loop now user_id location (map_to_list (active_geofences s))
      (user_geofence_status s) [] in
  (default [] result, with_user_geofence_status (fun _ => status) s).

(** The dict returned by [update_user_location] (the reverse-geocoded
    address, fetched from an external service, is left out). *)
Record UpdateResult := mkUpdateResult {
  movement_state : MovementState;
  proximity_events : list ProximityEvent.t;
  geofence_events : list GeofenceEvent.t;
  recommended_update_interval : Z
}.

Definition update_user_location (now user_id : Z) (latitude longitude : R)
    (accuracy altitude speed heading : option R)
    (d : Database) (s : LocationService)
  : UpdateResult * Database * LocationService :=
  let location :=
    LocationPoint.mk latitude longitude
      (Some (default 10%R (truthy_float accuracy))) now altitude speed
      heading in
  let s1 := _update_movement_history user_id location s in
  let movement_state := _detect_movement_state user_id s1 in
  let s2 :=
    with_movement_states (fun m => <[user_id := movement_state]> m) s1 in
  let d1 := _update_location_in_db user_id location d in
  let '(proximity_events, s3) :=
    _check_user_proximity now user_id location d1 s2 in
  let '(geofence_events, s4) := _check_geofences now user_id location s3 in
  (mkUpdateResult movement_state proximity_events geofence_events
     (update_intervals movement_state), d1, s4).

End LocationService.

Definition create_geofence (now room_id : Z)
    (center_lat center_lng radius_meters : R) (room_name : option string)
    (s : LocationService) : LocationService :=
  with_active_geofences
    (fun g => <[room_id :=
       Geofence.mk room_id center_lat center_lng radius_meters room_name
         now true]> g) s.

Definition remove_geofence (room_id : Z) (s : LocationService)
  : LocationService :=
  match active_geofences s !! room_id with
  | Some _ =>
      with_user_geofence_status
        (fun st => filter (fun kv => kv.1.2 ≠ room_id) st)
        (with_active_geofences (fun g => delete room_id g) s)
  | None => s
  end.

(** One round of [_proximity_monitoring_loop]: users whose last check is
    older than five minutes lose their bookkeeping entry and every cache
    entry they take part in. *)
Definition proximity_sweep (current_time : Z) (s : LocationService)
  : LocationService :=
  let users_to_remove :=
    (map_to_list
       (filter (fun kv => 300 * 1000000 < current_time - kv.2)
          (last_proximity_check s))).*1 in
  foldl (fun s user_id =>
      with_proximity_cache
        (fun c => filter (fun kv => kv.1.1 ≠ user_id ∧ kv.1.2 ≠ user_id) c)
        (with_last_proximity_check (fun l => delete user_id l) s))
    s users_to_remove.

(** ** websocket_handler.py *)

(** A [fastapi.WebSocket] object, identified by an opaque handle. *)
Definition WebSocket := positive.

(** The [location] dict of an inbound frame. *)
Module LocationMsg.
Record t := mk {
  lat : option R;
  lng : option R;
  accuracy : option R;
  timestamp : option Z
}.
End LocationMsg.

(** The dict kept per user in [user_locations]. *)
Module UserLocation.
Record t := mk {
  lat : option R;
  lng : option R;
  accuracy : option R;
  timestamp : Z
}.
End UserLocation.

(** One entry of the list built by [_get_room_members]. *)
Module MemberData.
Record t := mk {
  id : Z;
  name : option string;
  is_online : bool;
  joined_at : Z;
  location : option UserLocation.t
}.
End MemberData.

(** Outbound frames, by their ["type"].  Of the room dict of
    [room_joined] only the id is kept. *)
Inductive Event :=
| error (message : string)
| room_joined (room : Z) (users : list MemberData.t)
    (messages : list Message.t)
| user_joined (user : Z) (name : option string) (room_id : Z)
| user_left (user : Z) (name : option string) (room_id : Z)
| room_users_update (room_id : Z) (users : list MemberData.t)
| new_message (message : Message.t) (user_name : option string)
| pong (timestamp : Z)
| friend_nearby (friend : Z) (name : option string) (distance : Z)
| connected.

(** Inbound frames, by their ["type"]. *)
Inductive InMsg :=
| join_room (roomId : option Z) (location : option LocationMsg.t)
| leave_room (roomId : option Z)
| send_message (roomId : option Z) (message : option string)
| location_update (location : option LocationMsg.t)
| ping
| unknown (type : string).

Record WebSocketManager := mkWebSocketManager {
  active_connections : gmap Z WebSocket;
  room_memberships : gmap Z (gset Z);
  user_locations : gmap Z UserLocation.t
}.

(** [WebSocketManager.__init__] *)
Definition WebSocketManager_init : WebSocketManager :=
  mkWebSocketManager ∅ ∅ ∅.

(** [self.proximity_threshold], in kilometres. *)
Definition ws_proximity_threshold : R := (1 / 10)%R.

(** The transport: what was written to each socket, which sockets are
    broken, and which have been closed.  [send_text] raises on a broken
    and on a closed socket. *)
Record Transport := mkTransport {
  sent : gmap WebSocket (list Event);
  failing : gset WebSocket;
  closed : gset WebSocket
}.

Record World := mkWorld {
  manager : WebSocketManager;
  transport : Transport;
  database : Database
}.

Definition with_active_connections
    (f : gmap Z WebSocket -> gmap Z WebSocket) (m : WebSocketManager) :=
  mkWebSocketManager (f (active_connections m)) (room_memberships m)
    (user_locations m).

Definition with_room_memberships
    (f : gmap Z (gset Z) -> gmap Z (gset Z)) (m : WebSocketManager) :=
  mkWebSocketManager (active_connections m) (f (room_memberships m))
    (user_locations m).

Definition with_user_locations
    (f : gmap Z UserLocation.t -> gmap Z UserLocation.t)
    (m : WebSocketManager) :=
  mkWebSocketManager (active_connections m) (room_memberships m)
    (f (user_locations m)).

Definition with_manager (f : WebSocketManager -> WebSocketManager)
    (w : World) :=
  mkWorld (f (manager w)) (transport w) (database w).

Definition with_transport (f : Transport -> Transport) (w : World) :=
  mkWorld (manager w) (f (transport w)) (database w).

Definition with_database (f : Database -> Database) (w : World) :=
  mkWorld (manager w) (transport w) (f (database w)).

(** The frames written so far to a socket. *)
Definition outbox (t : Transport) (websocket : WebSocket) : list Event :=
  default [] (sent t !! websocket).

(** [await websocket.send_text(json.dumps(message))]; [None] when it
    raises. *)
Definition send_text (websocket : WebSocket) (message : Event)
    (t : Transport) : option Transport :=
  if decide (websocket ∈ failing t ∨ websocket ∈ closed t) then None
  else Some (mkTransport
               (<[websocket := outbox t websocket ++ [message]]> (sent t))
               (failing t) (closed t)).

(** [await websocket.close()] *)
Definition close (websocket : WebSocket) (t : Transport) : Transport :=
  mkTransport (sent t) (failing t) (closed t ∪ {[websocket]}).

Definition _send_to_user (user_id : Z) (message : Event) (w : World)
  : World :=
  match active_connections (manager w) !! user_id with
  | Some websocket =>
      match send_text websocket message (transport w) with
      | Some t => with_transport (fun _ => t) w
      | None =>
          (* Remove broken connection *)
          with_manager (with_active_connections (delete user_id)) w
      end
  | None => w
  end.

Definition _broadcast_to_room (room_id : Z) (message : Event)
    (exclude_user : option Z) (w : World) : World :=
  match room_memberships (manager w) !! room_id with
  | None => w
  | Some room =>
      let members :=
        match truthy_id exclude_user with
        | Some u => room ∖ {[u]}
        | None => room
        end in
      foldl (fun w user_id => _send_to_user user_id message w) w
            (elements members)
  end.

Definition _get_room_members (room_id : Z) (w : World)
  : list MemberData.t :=
  omap (fun membership : RoomMembership.t =>
      match query_user (database w) (RoomMembership.user_id membership) with
      | Some user =>
          Some (MemberData.mk (User.id user) (User.name user)
                  (bool_decide
                     (is_Some (active_connections (manager w)
                                 !! User.id user)))
                  (RoomMembership.joined_at membership)
                  (user_locations (manager w) !! User.id user))
      | None => None
      end)
    (List.filter (active_in_room room_id) (memberships (database w))).

Definition _broadcast_room_users (room_id : Z) (w : World) : World :=
  _broadcast_to_room room_id
    (room_users_update room_id (_get_room_members room_id w)) None w.

(** [user.name if user else "Anonymous"] *)
Definition display_name (d : Database) (user_id : Z) : option string :=
  match query_user d user_id with
  | Some user => User.name user
  | None => Some "Anonymous"%string
  end.

(** [ORDER BY created_at DESC] on the rows of a table: [m] is put before
    the first row that is not newer.  The database leaves the order of
    rows with equal [created_at] open; here the row stored first comes
    first. *)
Fixpoint insert_newest_first (m : Message.t) (l : list Message.t)
  : list Message.t :=
  match l with
  | [] => [m]
  | y :: l' =>
      if bool_decide (Message.created_at y <= Message.created_at m)
      then m :: y :: l'
      else y :: insert_newest_first m l'
  end.

Definition newest_first (l : list Message.t) : list Message.t :=
  foldr insert_newest_first [] l.

(** [db.query(Message).filter(Message.room_id == room_id)
       .order_by(Message.created_at.desc()).limit(50).all()],
    sent as [reversed(messages)]: the fifty newest messages of the room,
    oldest first. *)
Definition recent_messages (d : Database) (room_id : Z) : list Message.t :=
  reverse
    (take 50
       (newest_first
          (List.filter (fun m => bool_decide (Message.room_id m = room_id))
             (messages d)))).

(** [if room_id not in self.room_memberships:
        self.room_memberships[room_id] = set()]
    then [self.room_memberships[room_id].add(user_id)] *)
Definition add_member (room_id user_id : Z) (rm : gmap Z (gset Z))
  : gmap Z (gset Z) :=
  <[room_id := default ∅ (rm !! room_id) ∪ {[user_id]}]> rm.

(** [self.room_memberships[room_id].discard(user_id)], then the empty
    room is deleted; nothing happens for a room that is not in the dict. *)
Definition discard_member (room_id user_id : Z) (rm : gmap Z (gset Z))
  : gmap Z (gset Z) :=
  match rm !! room_id with
  | Some room =>
      let room' := room ∖ {[user_id]} in
      if decide (room' = ∅) then delete room_id rm
      else <[room_id := room']> rm
  | None => rm
  end.

Definition _join_room (user_id room_id : Z) (w : World) : World :=
  (* Add to room membership *)
  let w1 :=
    with_manager (with_room_memberships (add_member room_id user_id)) w in
  match first (fun r => bool_decide (Room.id r = room_id))
              (rooms (database w1)) with
  | None => w1
  | Some room =>
      let members := _get_room_members room_id w1 in
      let w2 :=
        _send_to_user user_id
          (room_joined (Room.id room) members
             (recent_messages (database w1) room_id)) w1 in
      let w3 :=
        _broadcast_to_room room_id
          (user_joined user_id (display_name (database w2) user_id) room_id)
          (Some user_id) w2 in
      _broadcast_room_users room_id w3
  end.

Definition _rejoin_room (user_id room_id : Z) (w : World) : World :=
  _join_room user_id room_id w.

Definition _leave_room (now user_id room_id : Z) (w : World) : World :=
  (* Remove from room membership, remove empty room *)
  let w1 :=
    with_manager (with_room_memberships (discard_member room_id user_id))
      w in
  (* Update database *)
  let w2 :=
    with_database (with_memberships
      (update_first (active_membership room_id user_id)
         (fun m =>
            RoomMembership.mk (RoomMembership.room_id m)
              (RoomMembership.user_id m) (RoomMembership.joined_at m)
              (Some now) false (RoomMembership.join_latitude m)
              (RoomMembership.join_longitude m)
              (RoomMembership.join_accuracy m)))) w1 in
  let w3 :=
    _broadcast_to_room room_id
      (user_left user_id (display_name (database w2) user_id) room_id)
      (Some user_id) w2 in
  _broadcast_room_users room_id w3.

Definition _send_initial_data (user_id : Z) (w : World) : World :=
  let user_memberships :=
    List.filter (fun m : RoomMembership.t =>
        bool_decide (RoomMembership.user_id m = user_id)
        && RoomMembership.is_active m)
      (memberships (database w)) in
  foldl (fun w membership =>
           _rejoin_room user_id (RoomMembership.room_id membership) w)
        w user_memberships.

(** [user.is_online = online; user.last_seen = now; db.commit()] *)
Definition set_online (now user_id : Z) (online : bool) (d : Database)
  : Database :=
  with_users
    (update_first (fun u => bool_decide (User.id u = user_id))
       (fun u => User.mk (User.id u) (User.name u)
                   (User.location_sharing_enabled u) (User.is_active u)
                   online now)) d.

Definition connect (now user_id : Z) (websocket : WebSocket) (w : World)
  : World :=
  (* Store connection *)
  let w1 :=
    with_manager
      (with_active_connections (fun c => <[user_id := websocket]> c)) w in
  (* Update user online status *)
  let w2 := with_database (set_online now user_id true) w1 in
  (* Send initial data *)
  _send_initial_data user_id w2.

(** The loop [for room_id in list(self.room_memberships.keys())] of
    [disconnect]; the flag is [false] when the subscript
    [self.room_memberships[room_id]] raises [KeyError]. *)
Fixpoint leave_rooms (now user_id : Z) (room_ids : list Z) (w : World)
  : bool * World :=
  match room_ids with
  | [] => (true, w)
  | room_id :: rest =>
      match room_memberships (manager w) !! room_id with
      | None => (false, w)
      | Some room =>
          leave_rooms now user_id rest
            (if decide (user_id ∈ room) then _leave_room now user_id room_id w
             else w)
      end
  end.

Definition disconnect (now user_id : Z) (w : World) : World :=
  (* Remove from active connections *)
  let w1 := with_manager (with_active_connections (delete user_id)) w in
  (* Remove from all rooms *)
  match leave_rooms now user_id
          (map_to_list (room_memberships (manager w1))).*1 w1 with
  | (true, w2) =>
      (* Remove location data *)
      let w3 := with_manager (with_user_locations (delete user_id)) w2 in
      (* Update user offline status *)
      with_database (set_online now user_id false) w3
  | (false, w2) => w2
  end.

Definition disconnect_all (now : Z) (w : World) : World :=
  foldl (fun w user_id => disconnect now user_id w) w
        (map_to_list (active_connections (manager w))).*1.

(** [round(x)] on a float: to the nearest integer, ties to even. *)
Definition py_round (x : R) : Z :=
  let f := up x - 1 in
  let d := (x - IZR f)%R in
  if Rlt_dec d (1 / 2) then f
  else if Rlt_dec (1 / 2) d then f + 1
  else if Z.even f then f else f + 1.

Definition _send_proximity_notification (user_id friend_id : Z)
    (distance : R) (w : World) : World :=
  match query_user (database w) friend_id with
  | None => w
  | Some friend =>
      _send_to_user user_id
        (friend_nearby friend_id (User.name friend)
           (py_round (distance * 1000))) w
  end.

(** The loop [for friendship in friends] of [_check_proximity]; it is
    abandoned when the distance computation raises. *)
Fixpoint proximity_notify_loop (user_id : Z) (user_lat user_lng : R)
    (friendships : list Friend.t) (w : World) : World :=
  match friendships with
  | [] => w
  | friendship :: rest =>
      let friend_id :=
        if decide (Friend.user1_id friendship = user_id)
        then Friend.user2_id friendship else Friend.user1_id friendship in
      match query_location (database w) friend_id with
      | Some friend_location =>
          match GeoMath.calculate_distance_between_points
                  user_lat user_lng
                  (LocationData.latitude friend_location)
                  (LocationData.longitude friend_location) with
          | Some distance =>
              proximity_notify_loop user_id user_lat user_lng rest
                (* Notify if within proximity threshold *)
                (if Rleb distance ws_proximity_threshold
                 then _send_proximity_notification user_id friend_id
                        distance w
                 else w)
          | None => w
          end
      | None => proximity_notify_loop user_id user_lat user_lng rest w
      end
  end.

Definition _check_proximity (user_id : Z) (location : LocationMsg.t)
    (w : World) : World :=
  match truthy_float (LocationMsg.lat location),
        truthy_float (LocationMsg.lng location) with
  | Some user_lat, Some user_lng =>
      let friendships :=
        List.filter (fun f : Friend.t =>
            (bool_decide (Friend.user1_id f = user_id)
             || bool_decide (Friend.user2_id f = user_id))
            && Friend.is_active f && Friend.can_see_location f)
          (friends (database w)) in
      proximity_notify_loop user_id user_lat user_lng friendships w
  | _, _ => w
  end.

(** The location gate of [_handle_join_room]:
    [location and not is_location_within_room_boundary(lat, lng, room)].
    [None] when the call raises (a missing coordinate, or a math domain
    error); otherwise whether the request is outside the boundary. *)
Definition outside_boundary (location : option LocationMsg.t)
    (room : Room.t) : option bool :=
  match location with
  | None => Some false
  | Some l =>
      match LocationMsg.lat l, LocationMsg.lng l with
      | Some lat, Some lng =>
          negb <$>
            GeoMath.is_location_within_room_boundary lat lng
              (Room.latitude room) (Room.longitude room)
              (Room.boundary_radius room)
      | _, _ => None
      end
  end.

Definition _handle_join_room (now user_id : Z) (roomId : option Z)
    (location : option LocationMsg.t) (w : World) : World :=
  match truthy_id roomId with
  | None => _send_to_user user_id (error "Room ID required") w
  | Some room_id =>
      (* Verify room exists *)
      match first (fun r => bool_decide (Room.id r = room_id)
                            && Room.is_active r)
                  (rooms (database w)) with
      | None => _send_to_user user_id (error "Room not found") w
      | Some room =>
          (* Check if room is at capacity *)
          let current_members :=
            Z.of_nat (length (List.filter (active_in_room room_id)
                                (memberships (database w)))) in
          if bool_decide (Room.max_users room <= current_members) then
            _send_to_user user_id (error "Room is at maximum capacity") w
          else
            (* Check location if provided *)
            match outside_boundary location room with
            | None => _send_to_user user_id (error "Failed to join room") w
            | Some true =>
                _send_to_user user_id (error "Outside room boundaries") w
            | Some false =>
                (* Check if already in room *)
                let w1 :=
                  match first (active_membership room_id user_id)
                              (memberships (database w)) with
                  | Some _ => w
                  | None =>
                      (* Create new membership *)
                      with_database (with_memberships (fun rows =>
                        rows ++
                        [RoomMembership.mk room_id user_id now None true
                           (location ≫= LocationMsg.lat)
                           (location ≫= LocationMsg.lng)
                           (location ≫= LocationMsg.accuracy)])) w
                  end in
                _join_room user_id room_id w1
            end
      end
  end.

Definition _handle_leave_room (now user_id : Z) (roomId : option Z)
    (w : World) : World :=
  match truthy_id roomId with
  | None => _send_to_user user_id (error "Room ID required") w
  | Some room_id => _leave_room now user_id room_id w
  end.

(** Truthiness of an optional string: [None] and [""] are falsy. *)
Definition truthy_string (x : option string) : option string :=
  match x with
  | Some s => if decide (s = ""%string) then None else Some s
  | None => None
  end.

Definition _handle_send_message (now user_id : Z) (roomId : option Z)
    (message : option string) (w : World) : World :=
  match truthy_id roomId, truthy_string message with
  | Some room_id, Some content =>
      (* Verify user is in room *)
      if bool_decide
           (user_id ∈ default ∅ (room_memberships (manager w) !! room_id))
      then
        (* Create message *)
        let msg :=
          Message.mk (Z.of_nat (length (messages (database w))) + 1)
            room_id user_id content now in
        let w1 :=
          with_database (with_messages (fun rows => rows ++ [msg])) w in
        (* Broadcast message to all room members *)
        _broadcast_to_room room_id
          (new_message msg (display_name (database w1) user_id)) None w1
      else _send_to_user user_id (error "Not a member of this room") w
  | _, _ =>
      _send_to_user user_id (error "Room ID and message content required") w
  end.

Definition _handle_location_update (now user_id : Z)
    (location : option LocationMsg.t) (w : World) : World :=
  match location with
  | None => w
  | Some l =>
      (* Update user location in memory *)
      let w1 :=
        with_manager (with_user_locations (fun ul =>
          <[user_id :=
              UserLocation.mk (LocationMsg.lat l) (LocationMsg.lng l)
                (LocationMsg.accuracy l)
                (default (now / 1000) (LocationMsg.timestamp l))]> ul)) w in
      (* Update location in database; the columns are not nullable, so
         the commit raises on a missing coordinate *)
      match LocationMsg.lat l, LocationMsg.lng l with
      | Some lat, Some lng =>
          let w2 :=
            with_database (upsert_location user_id (fun row =>
              LocationData.mk (LocationData.user_id row) lat lng
                (LocationMsg.accuracy l) (LocationData.altitude row)
                (LocationData.speed row) (LocationData.heading row)
                now (now + 24 * 3600 * 1000000))) w1 in
          (* Check proximity to other users and rooms *)
          _check_proximity user_id l w2
      | _, _ => w1
      end
  end.

Definition _handle_ping (now user_id : Z) (w : World) : World :=
  _send_to_user user_id (pong (now / 1000)) w.

Definition handle_message (now user_id : Z) (message : InMsg) (w : World)
  : World :=
  match message with
  | join_room roomId location =>
      _handle_join_room now user_id roomId location w
  | leave_room roomId => _handle_leave_room now user_id roomId w
  | send_message roomId content =>
      _handle_send_message now user_id roomId content w
  | location_update location =>
      _handle_location_update now user_id location w
  | ping => _handle_ping now user_id w
  | unknown message_type =>
      _send_to_user user_id
        (error ("Unknown message type: " ++ message_type)) w
  end.

Definition broadcast_to_all (now : Z) (message : Event) (w : World)
  : World :=
  let '(t, disconnected_users) :=
    foldl (fun '(t, disconnected_users) '(user_id, websocket) =>
        match send_text websocket message t with
        | Some t' => (t', disconnected_users)
        | None => (t, disconnected_users ++ [user_id])
        end)
      (transport w, [])
      (map_to_list (active_connections (manager w))) in
  (* Clean up disconnected users *)
  foldl (fun w user_id => disconnect now user_id w)
        (with_transport (fun _ => t) w) disconnected_users.

Definition get_online_users_count (m : WebSocketManager) : Z :=
  Z.of_nat (size (active_connections m)).

Definition get_room_users_count (m : WebSocketManager) (room_id : Z) : Z :=
  Z.of_nat (size (default ∅ (room_memberships m !! room_id))).

Definition is_user_online (m : WebSocketManager) (user_id : Z) : bool :=
  bool_decide (is_Some (active_connections m !! user_id)).

Definition get_user_rooms (m : WebSocketManager) (user_id : Z) : list Z :=
  (filter (fun kv : Z * gset Z => user_id ∈ kv.2)
     (map_to_list (room_memberships m))).*1.

(** The occupant set of a room, as read by [get_room_users_count] and
    [_handle_send_message]. *)
Definition members_of (m : WebSocketManager) (room_id : Z) : gset Z :=
  default ∅ (room_memberships m !! room_id).

(** ** main.py: the WebSocket endpoint around the manager *)

(** The first frame of a session: a JSON object of type ["authenticate"]
    with its [userId] (an integer when present), a JSON object of another
    type, or no usable frame: [receive_text] raises because the peer has
    gone, [json.loads] raises on text that is not JSON, or
    [auth_data.get] raises on JSON that is not an object. *)
Inductive AuthFrame :=
| authenticate (userId : option Z)
| not_authenticate
| unreadable.

(** [send_text] followed by [close] on a rejected handshake; when the
    send raises, the endpoint ends without closing. *)
Definition reject (websocket : WebSocket) (message : string) (w : World)
  : World :=
  match send_text websocket (error message) (transport w) with
  | Some t => with_transport (fun _ => close websocket t) w
  | None => w
  end.

(** [websocket_endpoint] up to the message loop.  The result carries the
    user id the session serves from then on, or [None] when the endpoint
    has returned.  Once [user_id] is set, every way out of the endpoint
    runs the [finally] clause and so calls [disconnect]; an exception
    before that is only logged: nothing is sent and the socket is not
    closed. *)
Definition websocket_endpoint_open (now : Z) (websocket : WebSocket)
    (auth_data : AuthFrame) (w : World) : option Z * World :=
  match auth_data with
  | unreadable =>
      (* except Exception: logged; user_id is still None in finally *)
      (None, w)
  | not_authenticate =>
      (None, reject websocket "Authentication required" w)
  | authenticate userId =>
      match truthy_id userId with
      | None => (None, reject websocket "User ID required" w)
      | Some user_id =>
          (* Verify user exists *)
          match query_user (database w) user_id with
          | None =>
              (None, disconnect now user_id (reject websocket "Invalid user" w))
          | Some _ =>
              (* Connect user to WebSocket manager *)
              let w1 := connect now user_id websocket w in
              (* Send connection confirmation *)
              match send_text websocket connected (transport w1) with
              | Some t => (Some user_id, with_transport (fun _ => t) w1)
              | None => (None, disconnect now user_id w1)
              end
          end
      end
  end.

(** The two process-wide objects of [main.py]: [websocket_manager], with
    the sockets and the database it works on, and [location_service]. *)
Record App := mkApp {
  core : World;
  location_service : LocationService
}.

(** The [finally] clause of [websocket_endpoint], once a user id is
    bound: [await websocket_manager.disconnect(user_id)]. *)
Definition websocket_endpoint_close (now user_id : Z) (a : App) : App :=
  mkApp (disconnect now user_id (core a)) (location_service a).

(** ** Runs of the real-time core *)

(** The calls that reach the manager, and what happens around it: a
    socket starts to fail, or the HTTP routes rewrite the database. *)
Inductive Op :=
| op_open (websocket : WebSocket) (auth_data : AuthFrame)
| op_connect (user_id : Z) (websocket : WebSocket)
| op_message (user_id : Z) (message : InMsg)
| op_disconnect (user_id : Z)
| op_disconnect_all
| op_broadcast_to_all (message : Event)
| op_socket_fails (websocket : WebSocket)
| op_database (d : Database).

Definition step (w : World) (o : Z * Op) : World :=
  let now := o.1 in
  match o.2 with
  | op_open websocket auth_data =>
      (websocket_endpoint_open now websocket auth_data w).2
  | op_connect user_id websocket => connect now user_id websocket w
  | op_message user_id message => handle_message now user_id message w
  | op_disconnect user_id => disconnect now user_id w
  | op_disconnect_all => disconnect_all now w
  | op_broadcast_to_all message => broadcast_to_all now message w
  | op_socket_fails websocket =>
      with_transport (fun t =>
        mkTransport (sent t) (failing t ∪ {[websocket]}) (closed t)) w
  | op_database d => with_database (fun _ => d) w
  end.

(** The state after a sequence of timestamped calls. *)
Definition run (ops : list (Z * Op)) (w : World) : World :=
  foldl step w ops.

Definition empty_database : Database := mkDatabase [] [] [] [] [] [].

(** A freshly started process over a given database. *)
Definition initial_world (d : Database) : World :=
  mkWorld WebSocketManager_init (mkTransport ∅ ∅ ∅) d.

(** ** Vocabulary of the statements *)

(** A socket on which [send_text] succeeds. *)
Definition healthy (t : Transport) (websocket : WebSocket) : Prop :=
  (websocket ∉ failing t) ∧ (websocket ∉ closed t).

(** The in-memory registries other than the connections, and the
    database, are the same in both worlds. *)
Definition same_state (w w' : World) : Prop :=
  room_memberships (manager w') = room_memberships (manager w) ∧
  user_locations (manager w') = user_locations (manager w) ∧
  database w' = database w.

(** What a number of sends can do to connections and sockets: no socket
    changes its condition, connections are only dropped, a connection on
    a healthy socket stays, and every outbox grows by frames that
    satisfy [P]. *)
Definition delivers (P : Event -> Prop) (w w' : World) : Prop :=
  failing (transport w') = failing (transport w) ∧
  closed (transport w') = closed (transport w) ∧
  active_connections (manager w') ⊆ active_connections (manager w) ∧
  (∀ user_id websocket,
     active_connections (manager w) !! user_id = Some websocket →
     healthy (transport w) websocket →
     active_connections (manager w') !! user_id = Some websocket) ∧
  (∀ websocket, ∃ new,
     outbox (transport w') websocket =
       outbox (transport w) websocket ++ new ∧ Forall P new).

Definition sends (P : Event -> Prop) (w w' : World) : Prop :=
  same_state w w' ∧ delivers P w w'.

(** Every room present in the index has an occupant. *)
Definition rooms_nonempty (m : WebSocketManager) : Prop :=
  ∀ room_id room, room_memberships m !! room_id = Some room → room ≠ ∅.

(** The only two ways in which the code changes the membership index. *)
Inductive index_moves : gmap Z (gset Z) -> gmap Z (gset Z) -> Prop :=
| moves_none rm : index_moves rm rm
| moves_add rm rm' room_id user_id :
    index_moves rm rm' -> index_moves rm (add_member room_id user_id rm')
| moves_discard rm rm' room_id user_id :
    index_moves rm rm' -> index_moves rm (discard_member room_id user_id rm').

(** The recipients of [_broadcast_to_room]. *)
Definition recipients (room : gset Z) (exclude_user : option Z) : gset Z :=
  match truthy_id exclude_user with
  | Some u => room ∖ {[u]}
  | None => room
  end.

(** How many of the users in [l] are connected through [websocket]. *)
Definition deliveries (connections : gmap Z WebSocket) (l : list Z)
    (websocket : WebSocket) : nat :=
  length (filter (fun u => connections !! u = Some websocket) l).

(** The loop [for user_id in members] of [_broadcast_to_room]. *)
Definition send_each (message : Event) (l : list Z) (w : World) : World :=
  foldl (fun w user_id => _send_to_user user_id message w) w l.

(** The admission checks of [_handle_join_room]: the room exists and is
    active, the number of active membership rows is below its capacity,
    and the supplied location, if any, is inside its boundary. *)
Definition admitted (room_id : Z) (location : option LocationMsg.t)
    (d : Database) : Prop :=
  ∃ room,
    first (fun r => bool_decide (Room.id r = room_id) && Room.is_active r)
          (rooms d) = Some room ∧
    Z.of_nat (length (List.filter (active_in_room room_id) (memberships d)))
      < Room.max_users room ∧
    outside_boundary location room = Some false.

Definition is_error (e : Event) : Prop :=
  match e with
  | error _ => True
  | _ => False
  end.

(** The proximity events of one update that concern one friend. *)
Definition events_with (friend_id : Z) (events : list ProximityEvent.t)
  : list ProximityEvent.t :=
  filter (fun e => ProximityEvent.user2_id e = friend_id) events.


(** The unique constraint on [location_data.user_id]. *)
Definition unique_locations (d : Database) : Prop :=
  NoDup (LocationData.user_id <$> location_data d).

(** What one update owes to one friend: an event exactly when being
    within the threshold differs from what the cached distance says. *)
Definition transition (now user_id : Z) (location : LocationPoint.t)
    (friend_location : LocationData.t) (previous_distance : option R)
    (distance : R) : list ProximityEvent.t :=
  let is_nearby := Rleb distance proximity_threshold in
  if negb (eqb (was_nearby previous_distance) is_nearby) then
    [ProximityEvent.mk user_id (LocationData.user_id friend_location)
       distance (if is_nearby then "entered" else "exited")%string now
       location (friend_point friend_location)]
  else [].

(** ** Concrete inputs used by the examples below *)

(** A stand-in for the geopy distance on a flat strip: coordinates are
    read as metres. *)
Definition flat_meters (lat1 lng1 lat2 lng2 : R) : option R :=
  Some (Rabs (lat2 - lat1) + Rabs (lng2 - lng1))%R.

Definition point_at (latitude : R) (timestamp : Z) : LocationPoint.t :=
  LocationPoint.mk latitude 0 (Some 10%R) timestamp None None None.

(** User 1 with two samples taken at the same instant. *)
Definition same_instant_service : LocationService :=
  mkLocationService ∅ ∅ {[ 1 := [point_at 0 5000000; point_at 3 5000000] ]}
    ∅ ∅ ∅.

(** User 1 with two samples ten metres and ten seconds apart. *)
Definition walking_service : LocationService :=
  mkLocationService ∅ ∅ {[ 1 := [point_at 0 0; point_at 10 10000000] ]}
    ∅ ∅ ∅.

(** Room 7 with members 1, 2 and 3, each on a socket of their own; the
    socket of user 2 raises on every send. *)
Definition three_member_world : World :=
  mkWorld
    (mkWebSocketManager
       (<[1 := 11%positive]> (<[2 := 12%positive]> {[ 3 := 13%positive ]}))
       {[ 7 := {[ 1; 2; 3 ]} ]} ∅)
    (mkTransport ∅ {[ 12%positive ]} ∅)
    empty_database.

(** Users 1 and 2 were seen 50 m apart by the location service; user 1
    is connected and sits in room 7. *)
Definition near_pair_app : App :=
  mkApp
    (mkWorld
       (mkWebSocketManager {[ 1 := 11%positive ]} {[ 7 := {[ 1 ]} ]} ∅)
       (mkTransport ∅ ∅ ∅) empty_database)
    (mkLocationService {[ (1, 2) := 50%R ]} ∅ ∅ ∅ ∅ ∅).

Definition three_users : list User.t :=
  [User.mk 1 (Some "ann"%string) true true false 0;
   User.mk 2 (Some "bob"%string) true true false 0;
   User.mk 3 (Some "cy"%string) true true false 0].

Definition member_row (room_id user_id : Z) : RoomMembership.t :=
  RoomMembership.mk room_id user_id 0 None true None None None.

(** Room 7 with the given capacity; users 1 and 2 are its active
    members, in the database and in memory; users 1, 2 and 3 are
    connected. *)
Definition two_member_world (capacity : Z) : World :=
  mkWorld
    (mkWebSocketManager
       (<[1 := 11%positive]> (<[2 := 12%positive]> {[ 3 := 13%positive ]}))
       {[ 7 := {[ 1; 2 ]} ]} ∅)
    (mkTransport ∅ ∅ ∅)
    (mkDatabase three_users [Room.mk 7 0 0 capacity 50 true]
       [member_row 7 1; member_row 7 2] [] [] []).

(** A freshly started process whose database knows users 1 to 3 and
    room 7 with its two active memberships. *)
Definition restarted_world : World :=
  initial_world (database (two_member_world 3)).

(** Users 1 and 2 are friends who may see each other's location; user 2
    stands at the origin of the flat strip. *)
Definition friends_database : Database :=
  mkDatabase
    [User.mk 1 (Some "ann"%string) true true true 0;
     User.mk 2 (Some "bob"%string) true true true 0]
    [] [] []
    [LocationData.mk 2 0 0 None None None None 0 0]
    [Friend.mk 1 2 true true].

(** The location service after it last saw users 1 and 2 150 m apart. *)
Definition apart_service : LocationService :=
  mkLocationService {[ (1, 2) := 150%R ]} ∅ ∅ ∅ ∅ ∅.

(** Users 1 and 2 are friends, user 2 stands at (1, 1); user 1 is
    connected on socket 11. *)
Definition colocated_world : World :=
  mkWorld
    (mkWebSocketManager {[ 1 := 11%positive ]} ∅ ∅)
    (mkTransport ∅ ∅ ∅)
    (mkDatabase
       [User.mk 1 (Some "ann"%string) true true true 0;
        User.mk 2 (Some "bob"%string) true true true 0]
       [] [] []
       [LocationData.mk 2 1 1 None None None None 0 0]
       [Friend.mk 1 2 true true]).

Definition at_one_one : LocationMsg.t :=
  LocationMsg.mk (Some 1%R) (Some 1%R) None None.

(** ** location_service.py: the remaining entry points *)

(** [self.movement_states.get(user_id, MovementState.UNKNOWN)] *)
Definition get_user_movement_state (user_id : Z) (s : LocationService)
  : MovementState :=
  default UNKNOWN (movement_states s !! user_id).

(** The loop [for user_id in list(self.user_movement_history.keys())] of
    [_cleanup_loop]; the flag is [false] when the subscript
    [self.user_movement_history[user_id]] raises [KeyError], which ends
    the background task. *)
Fixpoint cleanup_users (cutoff_time : Z) (user_ids : list Z)
    (s : LocationService) : bool * LocationService :=
  match user_ids with
  | [] => (true, s)
  | user_id :: rest =>
      match user_movement_history s !! user_id with
      | None => (false, s)
      | Some history =>
          (* Keep only recent history *)
          let recent_history :=
            List.filter
              (fun loc => bool_decide
                            (cutoff_time <= LocationPoint.timestamp loc))
              history in
          cleanup_users cutoff_time rest
            match recent_history with
            | [] =>
                (* Also clean up movement state *)
                with_movement_states (fun m => delete user_id m)
                  (with_user_movement_history (fun h => delete user_id h) s)
            | _ :: _ =>
                with_user_movement_history
                  (fun h => <[user_id := recent_history]> h) s
            end
      end
  end.

(** One round of [_cleanup_loop]: samples older than two hours are
    dropped. *)
Definition cleanup_sweep (current_time : Z) (s : LocationService)
  : bool * LocationService :=
  let cutoff_time := current_time - 2 * 3600 * 1000000 in
  cleanup_users cutoff_time (map_to_list (user_movement_history s)).*1 s.

(** One entry of the list returned by [get_nearby_users]. *)
Module NearbyUser.
Record t := mk {
  user_id : Z;
  name : option string;
  distance_meters : R;
  lat : R;
  lng : R;
  accuracy : option R;
  updated_at : Z;
  is_online : bool;
  last_seen : Z
}.
End NearbyUser.

(** [round(x, 1)] on a float: to the nearest tenth, ties to even. *)
Definition round_1 (x : R) : R := (IZR (py_round (x * 10)) / 10)%R.

(** [nearby_users.sort(key=lambda x: x["distance_meters"])]: ascending
    and stable. *)
Fixpoint insert_by_distance (x : NearbyUser.t) (l : list NearbyUser.t)
  : list NearbyUser.t :=
  match l with
  | [] => [x]
  | y :: l' =>
      if Rleb (NearbyUser.distance_meters x) (NearbyUser.distance_meters y)
      then x :: y :: l'
      else y :: insert_by_distance x l'
  end.

Definition sort_by_distance (l : list NearbyUser.t) : list NearbyUser.t :=
  foldr insert_by_distance [] l.

(** The query of [get_nearby_users]: the location rows of the other
    users, joined with their user rows, of those who are active, share
    their location and, unless [include_offline], are online. *)
Definition other_locations (d : Database) (user_id : Z)
    (include_offline : bool) : list (LocationData.t * User.t) :=
  omap (fun location : LocationData.t =>
      match query_user d (LocationData.user_id location) with
      | Some user =>
          if negb (bool_decide (LocationData.user_id location = user_id))
             && User.is_active user && User.location_sharing_enabled user
             && (include_offline || User.is_online user)
          then Some (location, user)
          else None
      | None => None
      end)
    (location_data d).

Section NearbyUsers.

Variable geodesic_meters : R -> R -> R -> R -> option R.

(** The loop [for location in other_locations], from the list built so
    far; [None] when a distance computation raises. *)
Fixpoint nearby_loop (user_location : LocationData.t) (radius_meters : R)
    (locations : list (LocationData.t * User.t))
    (nearby_users : list NearbyUser.t) : option (list NearbyUser.t) :=
  match locations with
  | [] => Some nearby_users
  | (location, user) :: rest =>
      match _calculate_distance geodesic_meters
              (LocationData.latitude user_location)
              (LocationData.longitude user_location)
              (LocationData.latitude location)
              (LocationData.longitude location) with
      | None => None
      | Some distance =>
          nearby_loop user_location radius_meters rest
            (if Rleb distance radius_meters then
               nearby_users ++
               [NearbyUser.mk (LocationData.user_id location)
                  (User.name user) (round_1 distance)
                  (LocationData.latitude location)
                  (LocationData.longitude location)
                  (LocationData.accuracy location)
                  (LocationData.updated_at location)
                  (User.is_online user) (User.last_seen user)]
             else nearby_users)
      end
  end.

(** [get_nearby_users]; every exception ends in [return []]. *)
Definition get_nearby_users (user_id : Z) (radius_meters : R)
    (include_offline : bool) (d : Database) : list NearbyUser.t :=
  (* Get user's current location *)
  match query_location d user_id with
  | None => []
  | Some user_location =>
      match nearby_loop user_location radius_meters
              (other_locations d user_id include_offline) [] with
      | Some nearby_users => sort_by_distance nearby_users
      | None => []
      end
  end.

End NearbyUsers.

(** ** Vocabulary of the further statements *)

(** The geofence events of one update that concern one room. *)
Definition geofence_events_for (room_id : Z)
    (events : list GeofenceEvent.t) : list GeofenceEvent.t :=
  filter (fun e => GeofenceEvent.room_id e = room_id) events.

(** What one update owes to one active geofence: an event exactly when
    being inside differs from the recorded status. *)
Definition geofence_transition (now user_id : Z)
    (location : LocationPoint.t) (room_id : Z) (was_inside : bool)
    (distance radius_meters : R) : list GeofenceEvent.t :=
  let is_inside := Rleb distance radius_meters in
  if negb (eqb was_inside is_inside) then
    [GeofenceEvent.mk user_id room_id
       (if is_inside then "entered" else "exited")%string now location
       distance]
  else [].

(** A user of whom the manager holds nothing: no connection, no room
    and no location. *)
Definition forgotten (m : WebSocketManager) (user_id : Z) : Prop :=
  active_connections m !! user_id = None ∧
  (∀ room_id, user_id ∉ members_of m room_id) ∧
  user_locations m !! user_id = None.

(** A list of numbers in ascending order. *)
Fixpoint ascending (l : list R) : Prop :=
  match l with
  | [] => True
  | x :: l' => Forall (Rle x) l' ∧ ascending l'
  end.

(** The frame that [_check_proximity] owes to one friendship of the
    sender: a [friend_nearby] when the friend has a stored location
    within the threshold and a user row. *)
Definition nearby_frame (d : Database) (user_id : Z) (user_lat user_lng : R)
    (friendship : Friend.t) : option Event :=
  let friend_id :=
    if decide (Friend.user1_id friendship = user_id)
    then Friend.user2_id friendship else Friend.user1_id friendship in
  friend_location ← query_location d friend_id;
  distance ← GeoMath.calculate_distance_between_points user_lat user_lng
               (LocationData.latitude friend_location)
               (LocationData.longitude friend_location);
  if Rleb distance ws_proximity_threshold then
    friend ← query_user d friend_id;
    Some (friend_nearby friend_id (User.name friend)
            (py_round (distance * 1000)))
  else None.

(** A list in which every element is related to all the later ones. *)
Fixpoint ordered {A} (le : A -> A -> Prop) (l : list A) : Prop :=
  match l with
  | [] => True
  | x :: l' => Forall (le x) l' ∧ ordered le l'
  end.

(** [m1] was created no later than [m2]. *)
Definition not_after (m1 m2 : Message.t) : Prop :=
  Message.created_at m1 <= Message.created_at m2.

(** ** Further concrete inputs *)

(** Room 7 fenced with a radius of 50 m around the origin of the flat
    strip. *)
Definition fenced_service : LocationService :=
  create_geofence 0 7 0 0 50 None LocationService_init.

(** The same, with user 1 recorded as inside. *)
Definition inside_service : LocationService :=
  with_user_geofence_status (fun _ => {[ (1, 7) := true ]}) fenced_service.

(** One call of [update_user_location], as a value. *)
Record UpdateCall := mkUpdateCall {
  call_now : Z;
  call_user_id : Z;
  call_latitude : R;
  call_longitude : R;
  call_accuracy : option R;
  call_altitude : option R;
  call_speed : option R;
  call_heading : option R
}.

(** The database and the service after a sequence of calls of
    [update_user_location]. *)
Definition update_all (geodesic_meters : R -> R -> R -> R -> option R)
    (calls : list UpdateCall) (d : Database) (s : LocationService)
  : Database * LocationService :=
  foldl (fun ds c =>
      let res :=
        update_user_location geodesic_meters (call_now c) (call_user_id c)
          (call_latitude c) (call_longitude c) (call_accuracy c)
          (call_altitude c) (call_speed c) (call_heading c) ds.1 ds.2 in
      (res.1.2, res.2))
    (d, s) calls.

(** A stand-in for the geopy distance that, like geopy, raises on a
    latitude outside [-90, 90]; inside it reads coordinates as metres. *)
Definition checked_meters (lat1 lng1 lat2 lng2 : R) : option R :=
  if Rlt_dec 90 (Rabs lat2) then None else flat_meters lat1 lng1 lat2 lng2.

(** User 1 has two visible friends: user 2 at the origin and user 3,
    whose stored latitude is not a latitude. *)
Definition broken_friend_database : Database :=
  mkDatabase
    [User.mk 1 (Some "ann"%string) true true true 0;
     User.mk 2 (Some "bob"%string) true true true 0;
     User.mk 3 (Some "cy"%string) true true true 0]
    [] [] []
    [LocationData.mk 2 0 0 None None None None 0 0;
     LocationData.mk 3 500 0 None None None None 0 0]
    [Friend.mk 1 2 true true; Friend.mk 1 3 true true].

(** Users 1 and 2 are friends and user 2 stands at (0, 0); user 1 is
    connected on socket 11. *)
Definition origin_world : World :=
  mkWorld
    (mkWebSocketManager {[ 1 := 11%positive ]} ∅ ∅)
    (mkTransport ∅ ∅ ∅)
    friends_database.

Definition at_origin : LocationMsg.t :=
  LocationMsg.mk (Some 0%R) (Some 0%R) None None.

(** * Properties *)

(** ** Distance helpers *)

Section GeoMathFacts.
Import GeoMath.
Local Open Scope R_scope.

Lemma radians_opp x : radians (- x) = - radians x.
Proof. unfold radians. lra. Qed.

Lemma sin_half_sq_opp x :
  sin (- x / 2) * sin (- x / 2) = sin (x / 2) * sin (x / 2).
Proof.
  replace (- x / 2) with (- (x / 2)) by lra.
  rewrite sin_neg. lra.
Qed.

Lemma haversine_a_sym lat1 lng1 lat2 lng2 :
  haversine_a lat1 lng1 lat2 lng2 = haversine_a lat2 lng2 lat1 lng1.
Proof.
  unfold haversine_a; cbv zeta.
  replace (lat1 - lat2) with (- (lat2 - lat1)) by lra.
  replace (lng1 - lng2) with (- (lng2 - lng1)) by lra.
  rewrite !radians_opp.
  rewrite (sin_half_sq_opp (radians (lat2 - lat1))).
  rewrite (Rmult_comm (cos (radians lat2)) (cos (radians lat1))).
  rewrite !Rmult_assoc.
  rewrite (sin_half_sq_opp (radians (lng2 - lng1))).
  reflexivity.
Qed.

Lemma haversine_a_same lat lng : haversine_a lat lng lat lng = 0.
Proof.
  unfold haversine_a, radians; cbv zeta.
  replace ((lat - lat) * (PI / 180) / 2) with 0 by lra.
  replace ((lng - lng) * (PI / 180) / 2) with 0 by lra.
  rewrite sin_0. lra.
Qed.

Lemma central_angle_0 : central_angle 0 = Some 0.
Proof.
  unfold central_angle, math_sqrt.
  destruct (Rlt_dec 0 0) as [H|_]; [lra|].
  destruct (Rlt_dec (1 - 0) 0) as [H|_]; [lra|].
  f_equal. replace (1 - 0) with 1 by lra.
  rewrite sqrt_0, sqrt_1. unfold atan2.
  destruct (Rlt_dec 0 1) as [_|H]; [|lra].
  replace (0 / 1) with 0 by lra. rewrite atan_0. lra.
Qed.

Lemma cos_product a b : cos a * cos b = (cos (a - b) + cos (a + b)) / 2.
Proof. rewrite cos_minus, cos_plus. lra. Qed.

Lemma cos_by_half_sine x : cos x = 1 - 2 * (sin (x / 2) * sin (x / 2)).
Proof.
  replace x with (2 * (x / 2)) at 1 by lra.
  rewrite cos_2a_sin. lra.
Qed.

(** The haversine term always lies in the domain of both square roots. *)
Lemma haversine_a_bounds lat1 lng1 lat2 lng2 :
  0 <= haversine_a lat1 lng1 lat2 lng2 <= 1.
Proof.
  unfold haversine_a; cbv zeta.
  set (p1 := radians lat1). set (p2 := radians lat2).
  replace (radians (lat2 - lat1)) with (p2 - p1)
    by (unfold p1, p2, radians; lra).
  set (y := radians (lng2 - lng1) / 2).
  pose proof (cos_product p1 p2) as Hp.
  pose proof (cos_by_half_sine (p1 - p2)) as Hc.
  replace (sin ((p1 - p2) / 2) * sin ((p1 - p2) / 2))
    with (sin ((p2 - p1) / 2) * sin ((p2 - p1) / 2)) in Hc.
  2:{ replace ((p1 - p2) / 2) with (- ((p2 - p1) / 2)) by lra.
      rewrite sin_neg. lra. }
  pose proof (COS_bound (p1 + p2)) as [Hl Hu].
  pose proof (sin2_cos2 y) as Hy. unfold Rsqr in Hy.
  pose proof (sin2_cos2 ((p2 - p1) / 2)) as Hx. unfold Rsqr in Hx.
  set (sx := sin ((p2 - p1) / 2)) in *.
  set (cx := cos ((p2 - p1) / 2)) in *.
  set (sy := sin y) in *. set (cy := cos y) in *.
  set (c12 := cos p1 * cos p2) in *.
  assert (0 <= sy * sy <= 1) by nra.
  assert (- (sx * sx) <= c12 <= 1 - sx * sx) by lra.
  split; nra.
Qed.

Lemma central_angle_total a : 0 <= a <= 1 -> is_Some (central_angle a).
Proof.
  intros [H0 H1]. unfold central_angle, math_sqrt.
  destruct (Rlt_dec a 0); [lra|].
  destruct (Rlt_dec (1 - a) 0); [lra|]. eauto.
Qed.

Lemma calculate_distance_total lat1 lng1 lat2 lng2 :
  is_Some (calculate_distance_between_points lat1 lng1 lat2 lng2).
Proof.
  unfold calculate_distance_between_points.
  destruct (central_angle_total _ (haversine_a_bounds lat1 lng1 lat2 lng2))
    as [c ->]. eauto.
Qed.

Lemma is_location_within_room_boundary_total lat lng rlat rlng radius :
  is_Some (is_location_within_room_boundary lat lng rlat rlng radius).
Proof.
  unfold is_location_within_room_boundary; cbv zeta.
  destruct (central_angle_total _ (haversine_a_bounds rlat rlng lat lng))
    as [c ->]. eauto.
Qed.

(** C10.  The haversine distance of [calculate_distance_between_points]
    (Earth radius 6371 km) from a coordinate to itself is 0, the distance
    from a to b equals the distance from b to a, and the computation
    never raises. *)
Theorem distance_round_trip :
  (forall lat lng,
     calculate_distance_between_points lat lng lat lng = Some 0) /\
  (forall lat1 lng1 lat2 lng2,
     calculate_distance_between_points lat1 lng1 lat2 lng2 =
     calculate_distance_between_points lat2 lng2 lat1 lng1) /\
  (forall lat1 lng1 lat2 lng2,
     is_Some (calculate_distance_between_points lat1 lng1 lat2 lng2)).
Proof.
  split; [|split].
  - intros lat lng. unfold calculate_distance_between_points.
    rewrite haversine_a_same, central_angle_0. f_equal. lra.
  - intros. unfold calculate_distance_between_points.
    now rewrite haversine_a_sym.
  - apply calculate_distance_total.
Qed.

End GeoMathFacts.

(** ** Movement classification *)

Section MovementFacts.
Variable geodesic_meters : R -> R -> R -> R -> option R.
Local Open Scope R_scope.

Lemma Rleb_true x y : x <= y -> Rleb x y = true.
Proof. intros H. unfold Rleb. destruct (Rle_dec x y); [done|lra]. Qed.

Lemma Rleb_false x y : y < x -> Rleb x y = false.
Proof. intros H. unfold Rleb. destruct (Rle_dec x y); [lra|done]. Qed.

Lemma Rltb_true x y : x < y -> Rltb x y = true.
Proof. intros H. unfold Rltb. destruct (Rlt_dec x y); [done|lra]. Qed.

Lemma Rltb_false x y : y <= x -> Rltb x y = false.
Proof. intros H. unfold Rltb. destruct (Rlt_dec x y); [lra|done]. Qed.

Lemma total_seconds_chain a b c :
  total_seconds a b + total_seconds b c = total_seconds a c.
Proof.
  unfold total_seconds.
  replace (c - a)%Z with ((b - a) + (c - b))%Z by lia.
  rewrite plus_IZR. lra.
Qed.

Lemma total_seconds_same a : total_seconds a a = 0.
Proof. unfold total_seconds. rewrite Z.sub_diag. simpl. lra. Qed.

Lemma last_nonempty_default {A} (r : A) l d d' :
  List.last (r :: l) d = List.last (r :: l) d'.
Proof.
  revert r. induction l as [|x l IH]; intros r; [done|].
  change (List.last (x :: l) d = List.last (x :: l) d'). apply IH.
Qed.

Lemma last_cons_any {A} (q : A) l p :
  List.last (q :: l) p = List.last l q.
Proof.
  destruct l as [|r l]; [done|].
  change (List.last (r :: l) p = List.last (r :: l) q).
  apply last_nonempty_default.
Qed.

(** The accumulated time is the time from the first to the last of the
    points: the consecutive differences telescope. *)
Lemma movement_totals_time p points acc td tt :
  movement_totals geodesic_meters (p :: points) acc = Some (td, tt) ->
  tt = snd acc +
       total_seconds (LocationPoint.timestamp p)
         (LocationPoint.timestamp (List.last points p)).
Proof.
  revert p acc. induction points as [|q points IH]; intros p acc H.
  - simpl in H. injection H as ->. simpl. rewrite total_seconds_same. lra.
  - cbn [movement_totals] in H.
    destruct (_calculate_distance _ _ _ _ _) as [d|]; [|done].
    apply IH in H. cbn [snd] in H. rewrite H.
    replace (List.last (q :: points) p) with (List.last points q).
    + rewrite <- (total_seconds_chain (LocationPoint.timestamp p)
                    (LocationPoint.timestamp q)
                    (LocationPoint.timestamp (List.last points q))).
      lra.
    + symmetry. apply last_cons_any.
Qed.

Lemma classify_speed_cases td tt :
  (tt <= 0 -> classify_speed td tt = STATIONARY) /\
  (0 < tt -> td / tt * 3.6 < 1 -> classify_speed td tt = STATIONARY) /\
  (0 < tt -> 1 <= td / tt * 3.6 < 8 -> classify_speed td tt = WALKING) /\
  (0 < tt -> 8 <= td / tt * 3.6 -> classify_speed td tt = DRIVING).
Proof.
  unfold classify_speed; cbv zeta. repeat split.
  - intros H. now rewrite Rleb_true.
  - intros H1 H2. rewrite Rleb_false by done. now rewrite Rltb_true.
  - intros H1 [H2 H3]. rewrite Rleb_false by done.
    rewrite Rltb_false by done. now rewrite Rltb_true.
  - intros H1 H2. rewrite Rleb_false by done.
    rewrite Rltb_false by lra. now rewrite Rltb_false.
Qed.

Lemma last_n_length {A} n (l : list A) :
  length (last_n n l) = Nat.min n (length l).
Proof. unfold last_n. rewrite length_drop. lia. Qed.

(** C7 (amended).  The movement state is computed from the last up-to-5
    samples: Unknown with fewer than 2 samples or when a distance
    computation raises; otherwise Stationary when the elapsed time from
    the first to the last of these samples is zero or negative, and else
    by the average speed: Stationary below 1 km/h, Walking below 8 km/h,
    Driving from 8 km/h. *)
Theorem movement_classification (user_id : Z) (s : LocationService) :
  let history := default [] (user_movement_history s !! user_id) in
  let recent_points := last_n 5 history in
  let state := _detect_movement_state geodesic_meters user_id s in
  ((length history < 2)%nat -> state = UNKNOWN) /\
  ((2 <= length history)%nat ->
   movement_totals geodesic_meters recent_points (0, 0) = None ->
   state = UNKNOWN) /\
  (forall total_distance total_time,
     (2 <= length history)%nat ->
     movement_totals geodesic_meters recent_points (0, 0) =
       Some (total_distance, total_time) ->
     (exists p q rest,
        recent_points = p :: rest /\ List.last rest p = q /\
        total_time =
          total_seconds (LocationPoint.timestamp p)
                        (LocationPoint.timestamp q)) /\
     (total_time <= 0 -> state = STATIONARY) /\
     (0 < total_time -> total_distance / total_time * 3.6 < 1 ->
      state = STATIONARY) /\
     (0 < total_time -> 1 <= total_distance / total_time * 3.6 < 8 ->
      state = WALKING) /\
     (0 < total_time -> 8 <= total_distance / total_time * 3.6 ->
      state = DRIVING)).
Proof.
  intros history recent_points state.
  assert (Hrecent : (2 <= length history)%nat ->
                    (length recent_points <? 2)%nat = false).
  { intros H. apply Nat.ltb_ge. unfold recent_points.
    rewrite last_n_length. lia. }
  split; [|split].
  - intros H. unfold state, _detect_movement_state. fold history.
    cbv zeta. apply Nat.ltb_lt in H. now rewrite H.
  - intros H Hnone. unfold state, _detect_movement_state. fold history.
    cbv zeta. fold recent_points. rewrite Hrecent by done.
    apply Nat.ltb_ge in H. now rewrite H, Hnone.
  - intros td tt H Hsome.
    assert (Hstate : state = classify_speed td tt).
    { unfold state, _detect_movement_state. fold history.
      cbv zeta. fold recent_points. rewrite Hrecent by done.
      apply Nat.ltb_ge in H. now rewrite H, Hsome. }
    split.
    + destruct recent_points as [|p rest] eqn:E.
      * specialize (Hrecent H). done.
      * exists p, (List.last rest p), rest. split; [done|]. split; [done|].
        apply movement_totals_time in Hsome. simpl in Hsome. lra.
    + rewrite Hstate. apply classify_speed_cases.
Qed.

End MovementFacts.

(** C7, counterexample.  Two samples taken at the same instant: the
    elapsed time is zero and the state is Stationary, not Unknown. *)
Lemma movement_zero_elapsed_is_stationary :
  default [] (user_movement_history same_instant_service !! 1) =
    [point_at 0 5000000; point_at 3 5000000] /\
  total_seconds (LocationPoint.timestamp (point_at 0 5000000))
                (LocationPoint.timestamp (point_at 3 5000000)) = 0%R /\
  _detect_movement_state flat_meters 1 same_instant_service = STATIONARY /\
  _detect_movement_state flat_meters 1 same_instant_service <> UNKNOWN.
Proof.
  assert (H : _detect_movement_state flat_meters 1 same_instant_service
              = STATIONARY).
  { unfold _detect_movement_state, same_instant_service.
    cbn [user_movement_history]. rewrite lookup_singleton_eq.
    cbn [from_option Datatypes.id length Nat.ltb Nat.leb last_n drop
         Nat.sub].
    cbn [movement_totals _calculate_distance flat_meters fst snd
         point_at LocationPoint.latitude LocationPoint.longitude
         LocationPoint.timestamp].
    unfold classify_speed. rewrite Rleb_true; [done|].
    rewrite total_seconds_same. lra. }
  split; [|split; [|split]].
  - unfold same_instant_service. cbn [user_movement_history].
    now rewrite lookup_singleton_eq.
  - apply total_seconds_same.
  - exact H.
  - rewrite H. discriminate.
Qed.

(** C7, witness: ten metres in ten seconds is 3.6 km/h, Walking. *)
Lemma movement_classification_witness :
  _detect_movement_state flat_meters 1 walking_service = WALKING.
Proof.
  pose proof (movement_classification flat_meters 1 walking_service) as H.
  cbv zeta in H. destruct H as (_ & _ & H).
  unfold walking_service in H. cbn [user_movement_history] in H.
  rewrite lookup_singleton_eq in H.
  cbn [from_option Datatypes.id length last_n drop Nat.sub] in H.
  specialize (H (0 + (Rabs (10 - 0) + Rabs (0 - 0)))%R
                (0 + total_seconds 0 10000000)%R).
  specialize (H ltac:(lia) eq_refl).
  destruct H as (_ & _ & _ & H & _).
  assert (Habs : (Rabs (10 - 0) + Rabs (0 - 0) = 10)%R).
  { rewrite (Rabs_pos_eq (10 - 0)) by lra.
    rewrite (Rabs_pos_eq (0 - 0)) by lra. lra. }
  assert (Ht : total_seconds 0 10000000 = 10%R).
  { unfold total_seconds.
    replace (10000000 - 0)%Z with 10000000%Z by lia. lra. }
  apply H; rewrite ?Habs, ?Ht; lra.
Defined.

(** ** Sends and broadcasts *)

Section SendFacts.

Lemma healthy_dec t ws : Decision (healthy t ws).
Proof. unfold healthy. apply _. Defined.

Lemma send_text_healthy ws message t :
  healthy t ws ->
  send_text ws message t =
    Some (mkTransport (<[ws := outbox t ws ++ [message]]> (sent t))
            (failing t) (closed t)).
Proof.
  intros [H1 H2]. unfold send_text.
  destruct (decide _) as [[?|?]|_]; done.
Qed.

Lemma send_text_unhealthy ws message t :
  ¬ healthy t ws -> send_text ws message t = None.
Proof.
  intros H. unfold send_text. destruct (decide _) as [_|Hn]; [done|].
  exfalso. apply H. split; intros ?; apply Hn; auto.
Qed.

Lemma outbox_after_send t ws message ws' :
  outbox (mkTransport (<[ws := outbox t ws ++ [message]]> (sent t))
            (failing t) (closed t)) ws' =
  if decide (ws' = ws) then outbox t ws ++ [message] else outbox t ws'.
Proof.
  unfold outbox at 1. cbn [sent].
  destruct (decide (ws' = ws)) as [->|Hne].
  - now rewrite lookup_insert_eq.
  - now rewrite lookup_insert_ne.
Qed.

Lemma send_to_user_offline user_id message w :
  active_connections (manager w) !! user_id = None ->
  _send_to_user user_id message w = w.
Proof. intros H. unfold _send_to_user. now rewrite H. Qed.

Lemma send_to_user_healthy user_id ws message w :
  active_connections (manager w) !! user_id = Some ws ->
  healthy (transport w) ws ->
  _send_to_user user_id message w =
    with_transport (fun t =>
      mkTransport (<[ws := outbox t ws ++ [message]]> (sent t))
        (failing t) (closed t)) w.
Proof.
  intros H Hh. unfold _send_to_user. rewrite H.
  now rewrite send_text_healthy.
Qed.

Lemma send_to_user_unhealthy user_id ws message w :
  active_connections (manager w) !! user_id = Some ws ->
  ¬ healthy (transport w) ws ->
  _send_to_user user_id message w =
    with_manager (with_active_connections (delete user_id)) w.
Proof.
  intros H Hh. unfold _send_to_user. rewrite H.
  now rewrite send_text_unhealthy.
Qed.

Lemma same_state_refl w : same_state w w.
Proof. now unfold same_state. Qed.

Lemma same_state_trans w1 w2 w3 :
  same_state w1 w2 -> same_state w2 w3 -> same_state w1 w3.
Proof.
  unfold same_state. intros (-> & -> & ->) (-> & -> & ->). done.
Qed.

Lemma delivers_refl P w : delivers P w w.
Proof.
  unfold delivers. repeat split; try done.
  intros ws. exists []. now rewrite app_nil_r.
Qed.

Lemma delivers_trans P w1 w2 w3 :
  delivers P w1 w2 -> delivers P w2 w3 -> delivers P w1 w3.
Proof.
  intros (Hf1 & Hc1 & Hs1 & Hk1 & Ho1) (Hf2 & Hc2 & Hs2 & Hk2 & Ho2).
  unfold delivers. split; [congruence|]. split; [congruence|].
  split; [etrans; eauto|]. split.
  - intros u ws Hu Hh. apply Hk2; [now apply Hk1|].
    unfold healthy in *. now rewrite Hf1, Hc1.
  - intros ws. destruct (Ho1 ws) as (n1 & E1 & F1).
    destruct (Ho2 ws) as (n2 & E2 & F2).
    exists (n1 ++ n2). split.
    + now rewrite E2, E1, app_assoc.
    + now apply Forall_app.
Qed.

Lemma delivers_weaken (P Q : Event -> Prop) w w' :
  (forall e, P e -> Q e) -> delivers P w w' -> delivers Q w w'.
Proof.
  intros HPQ (Hf & Hc & Hs & Hk & Ho). unfold delivers.
  repeat split; try done.
  intros ws. destruct (Ho ws) as (n & E & F). exists n. split; [done|].
  eapply Forall_impl; eauto.
Qed.

Lemma sends_refl P w : sends P w w.
Proof. split; [apply same_state_refl|apply delivers_refl]. Qed.

Lemma sends_trans P w1 w2 w3 :
  sends P w1 w2 -> sends P w2 w3 -> sends P w1 w3.
Proof.
  intros [S1 D1] [S2 D2]. split.
  - eapply same_state_trans; eauto.
  - eapply delivers_trans; eauto.
Qed.

Lemma sends_weaken (P Q : Event -> Prop) w w' :
  (forall e, P e -> Q e) -> sends P w w' -> sends Q w w'.
Proof. intros H [S D]. split; [done|]. eapply delivers_weaken; eauto. Qed.

Lemma send_to_user_sends (P : Event -> Prop) user_id message w :
  P message -> sends P w (_send_to_user user_id message w).
Proof.
  intros HP.
  destruct (active_connections (manager w) !! user_id) as [ws|] eqn:E.
  2:{ rewrite send_to_user_offline by done. apply sends_refl. }
  destruct (healthy_dec (transport w) ws) as [Hh|Hh].
  - rewrite (send_to_user_healthy _ ws) by done.
    split; [now unfold same_state|].
    unfold delivers. cbn. repeat split; try done.
    intros ws'. rewrite outbox_after_send.
    destruct (decide (ws' = ws)) as [->|_].
    + exists [message]. split; [done|]. now constructor.
    + exists []. now rewrite app_nil_r.
  - rewrite (send_to_user_unhealthy _ ws) by done.
    split; [now unfold same_state|].
    unfold delivers. cbn. repeat split; try done.
    + apply delete_subseteq.
    + intros u ws' Hu Hh'. destruct (decide (u = user_id)) as [->|Hne].
      * congruence.
      * now rewrite lookup_delete_ne.
    + intros ws'. exists []. now rewrite app_nil_r.
Qed.

Lemma sends_foldl {A} (P : Event -> Prop) (f : A -> World -> World) l w :
  (forall x w, sends P w (f x w)) ->
  sends P w (foldl (fun w x => f x w) w l).
Proof.
  intros Hf. revert w. induction l as [|x l IH]; intros w.
  - apply sends_refl.
  - cbn. eapply sends_trans; [apply Hf|apply IH].
Qed.

Lemma delivers_foldl {A} (P : Event -> Prop) (f : A -> World -> World) l w :
  (forall x w, delivers P w (f x w)) ->
  delivers P w (foldl (fun w x => f x w) w l).
Proof.
  intros Hf. revert w. induction l as [|x l IH]; intros w.
  - apply delivers_refl.
  - cbn. eapply delivers_trans; [apply Hf|apply IH].
Qed.

Lemma broadcast_to_room_sends (P : Event -> Prop) room_id message ex w :
  P message -> sends P w (_broadcast_to_room room_id message ex w).
Proof.
  intros HP. unfold _broadcast_to_room.
  destruct (room_memberships (manager w) !! room_id); [|apply sends_refl].
  apply (sends_foldl P (fun user_id w => _send_to_user user_id message w)).
  intros. now apply send_to_user_sends.
Qed.

Lemma broadcast_room_users_sends (P : Event -> Prop) room_id w :
  (forall users, P (room_users_update room_id users)) ->
  sends P w (_broadcast_room_users room_id w).
Proof. intros HP. apply broadcast_to_room_sends, HP. Qed.

End SendFacts.

(** ** Fan-out *)

Section FanOut.
Implicit Types (w : World) (l : list Z) (ws : WebSocket).

Lemma send_each_cons message x l w :
  send_each message (x :: l) w =
  send_each message l (_send_to_user x message w).
Proof. reflexivity. Qed.

Lemma send_each_sends message l w :
  sends (fun e => e = message) w (send_each message l w).
Proof.
  apply (sends_foldl _ (fun user_id w => _send_to_user user_id message w)).
  intros. now apply send_to_user_sends.
Qed.

Lemma offline_stays_offline P w w' user_id :
  delivers P w w' ->
  active_connections (manager w) !! user_id = None ->
  active_connections (manager w') !! user_id = None.
Proof.
  intros (_ & _ & Hs & _) H.
  destruct (active_connections (manager w') !! user_id) eqn:E; [|done].
  eapply lookup_weaken in E; eauto. congruence.
Qed.

Lemma send_each_drops_unhealthy message l w member ws :
  member ∈ l ->
  active_connections (manager w) !! member = Some ws ->
  ¬ healthy (transport w) ws ->
  active_connections (manager (send_each message l w)) !! member = None.
Proof.
  revert w. induction l as [|x l IH]; intros w Hin Hc Hh.
  - now apply elem_of_nil in Hin.
  - rewrite send_each_cons.
    pose proof (send_to_user_sends (fun e => e = message) x message w
                  eq_refl) as [_ D1].
    destruct (decide (x = member)) as [->|Hne].
    + eapply offline_stays_offline; [apply send_each_sends|].
      rewrite (send_to_user_unhealthy _ ws) by done. cbn.
      apply lookup_delete_eq.
    + apply elem_of_cons in Hin as [->|Hin]; [done|].
      destruct (active_connections (manager (_send_to_user x message w))
                  !! member) as [ws'|] eqn:E.
      * assert (ws' = ws) as ->.
        { destruct D1 as (_ & _ & Hs & _).
          eapply lookup_weaken in E; eauto. congruence. }
        apply IH; [done|done|].
        destruct D1 as (Hf & Hc' & _). unfold healthy in *.
        now rewrite Hf, Hc'.
      * eapply offline_stays_offline; [apply send_each_sends|done].
Qed.

Lemma deliveries_cons connections x l ws :
  deliveries connections (x :: l) ws =
  ((if decide (connections !! x = Some ws) then 1 else 0) +
   deliveries connections l ws)%nat.
Proof.
  unfold deliveries. rewrite filter_cons.
  destruct (decide (connections !! x = Some ws)); done.
Qed.

Lemma deliveries_ext c1 c2 l ws :
  (forall u, c1 !! u = Some ws <-> c2 !! u = Some ws) ->
  deliveries c1 l ws = deliveries c2 l ws.
Proof.
  intros H. induction l as [|x l IH]; [done|].
  rewrite !deliveries_cons, IH.
  destruct (decide (c1 !! x = Some ws)) as [E|E];
    destruct (decide (c2 !! x = Some ws)) as [E'|E']; try done.
  - apply H in E. done.
  - apply H in E'. done.
Qed.

Lemma send_each_outbox message l w ws :
  healthy (transport w) ws ->
  outbox (transport (send_each message l w)) ws =
  outbox (transport w) ws ++
  replicate (deliveries (active_connections (manager w)) l ws) message.
Proof.
  revert w. induction l as [|x l IH]; intros w Hh.
  - cbn. now rewrite app_nil_r.
  - rewrite send_each_cons, deliveries_cons.
    destruct (active_connections (manager w) !! x) as [wsx|] eqn:E.
    2:{ rewrite send_to_user_offline by done.
        rewrite decide_False by done. now apply IH. }
    destruct (healthy_dec (transport w) wsx) as [Hx|Hx].
    + rewrite (send_to_user_healthy _ wsx) by done.
      rewrite IH by done. cbn [with_transport transport manager].
      rewrite outbox_after_send.
      destruct (decide (ws = wsx)) as [->|Hne].
      * rewrite decide_True by done. cbn. now rewrite <- app_assoc.
      * rewrite decide_False by congruence. done.
    + rewrite (send_to_user_unhealthy _ wsx) by done.
      rewrite decide_False by (intros [= ->]; done).
      rewrite IH by done. cbn. f_equal. f_equal.
      apply deliveries_ext. intros u.
      destruct (decide (u = x)) as [->|Hne].
      * rewrite lookup_delete_eq, E. split; [done|]. intros [= ->]. done.
      * now rewrite lookup_delete_ne.
Qed.

Lemma filter_none {A} (P : A -> Prop) `{forall x, Decision (P x)}
    (xs : list A) :
  (forall y, y ∈ xs -> ¬ P y) -> filter P xs = [].
Proof.
  induction xs as [|a xs IH]; intros Hn; [done|].
  rewrite filter_cons, decide_False by (apply Hn; now left).
  apply IH. intros y Hy. apply Hn. now right.
Qed.

Lemma filter_unique {A} (P : A -> Prop) `{forall x, Decision (P x)}
    (xs : list A) (x : A) :
  NoDup xs -> x ∈ xs -> P x -> (forall y, y ∈ xs -> P y -> y = x) ->
  filter P xs = [x].
Proof.
  induction xs as [|a xs IH]; intros Hnd Hin HP Huniq.
  - now apply elem_of_nil in Hin.
  - apply NoDup_cons in Hnd as [Ha Hnd]. rewrite filter_cons.
    apply elem_of_cons in Hin as [->|Hin].
    + rewrite decide_True by done. f_equal.
      apply filter_none. intros y Hy HPy.
      assert (y = a) as -> by (apply Huniq; [now right|done]). done.
    + rewrite decide_False.
      * apply IH; try done. intros y Hy. apply Huniq. now right.
      * intros HPa. assert (a = x) as -> by (apply Huniq; [now left|done]).
        done.
Qed.

Lemma broadcast_to_room_unfold room_id message exclude_user w room :
  room_memberships (manager w) !! room_id = Some room ->
  _broadcast_to_room room_id message exclude_user w =
    send_each message (elements (recipients room exclude_user)) w.
Proof.
  intros H. unfold _broadcast_to_room, recipients, send_each. rewrite H.
  destruct (truthy_id exclude_user); done.
Qed.

(** C5.  In a room broadcast, a member whose send fails is dropped from
    the registry and reported offline; every other member with a working
    connection still receives the message (exactly once when no two
    recipients share a socket) and stays online; nothing else changes. *)
Theorem fan_out_isolation room_id message exclude_user w room :
  room_memberships (manager w) !! room_id = Some room ->
  let w' := _broadcast_to_room room_id message exclude_user w in
  let targets := recipients room exclude_user in
  (forall member ws,
     member ∈ targets ->
     active_connections (manager w) !! member = Some ws ->
     ¬ healthy (transport w) ws ->
     is_user_online (manager w') member = false) /\
  (forall member ws,
     member ∈ targets ->
     active_connections (manager w) !! member = Some ws ->
     healthy (transport w) ws ->
     is_user_online (manager w') member = true /\
     (exists k, outbox (transport w') ws =
                outbox (transport w) ws ++ replicate (S k) message) /\
     ((forall other, other ∈ targets ->
         active_connections (manager w) !! other = Some ws ->
         other = member) ->
      outbox (transport w') ws = outbox (transport w) ws ++ [message])) /\
  same_state w w'.
Proof.
  intros Hroom w' targets. subst w'.
  rewrite (broadcast_to_room_unfold _ _ _ _ room) by done. fold targets.
  pose proof (send_each_sends message (elements targets) w) as [HS HD].
  split; [|split; [|done]].
  - intros member ws Hin Hc Hh. unfold is_user_online.
    rewrite (send_each_drops_unhealthy _ _ _ member ws)
      by (try done; now apply elem_of_elements).
    apply bool_decide_eq_false. intros [? ?]. done.
  - intros member ws Hin Hc Hh. split; [|split].
    + unfold is_user_online. destruct HD as (_ & _ & _ & Hk & _).
      rewrite (Hk member ws) by done. now apply bool_decide_eq_true.
    + rewrite send_each_outbox by done.
      assert (Hpos : deliveries (active_connections (manager w))
                       (elements targets) ws ≠ 0%nat).
      { unfold deliveries. intros H0. apply length_zero_iff_nil in H0.
        assert (member ∈ filter (fun u =>
                  active_connections (manager w) !! u = Some ws)
                  (elements targets)) as Hm.
        { apply list_elem_of_filter. split; [done|].
          now apply elem_of_elements. }
        rewrite H0 in Hm. now apply elem_of_nil in Hm. }
      destruct (deliveries _ _ _) as [|k]; [done|]. now exists k.
    + intros Huniq. rewrite send_each_outbox by done.
      unfold deliveries.
      rewrite (filter_unique _ _ member); try done.
      * apply NoDup_elements.
      * now apply elem_of_elements.
      * intros y Hy. apply Huniq. now apply elem_of_elements.
Qed.

End FanOut.

(** C5, witness: three members, the send to user 2 fails; users 1 and 3
    receive the frame and user 2 is reported offline. *)
Lemma fan_out_isolation_witness :
  let w' := _broadcast_to_room 7 (pong 0) None three_member_world in
  is_user_online (manager w') 2 = false /\
  outbox (transport w') 11%positive = [pong 0] /\
  outbox (transport w') 13%positive = [pong 0].
Proof.
  pose proof (fan_out_isolation 7 (pong 0) None three_member_world
                {[ 1; 2; 3 ]} eq_refl) as (Hfail & Hok & _).
  cbv zeta in *.
  assert (Hh : forall ws, ws ≠ 12%positive ->
                 healthy (transport three_member_world) ws).
  { intros ws Hne. split; cbn.
    - now rewrite elem_of_singleton.
    - apply not_elem_of_empty. }
  assert (Huniq : forall member ws,
            active_connections (manager three_member_world) !! member
              = Some ws ->
            forall other, other ∈ recipients {[ 1; 2; 3 ]} None ->
              active_connections (manager three_member_world) !! other
                = Some ws -> other = member).
  { intros member ws Hm other Ho Hc. cbn in Ho, Hc, Hm.
    assert (Hcases : forall u w0,
              (<[1 := 11%positive]>
                 (<[2 := 12%positive]> {[ 3 := 13%positive ]})
                 : gmap Z WebSocket) !! u = Some w0 ->
              (u = 1 /\ w0 = 11%positive) \/ (u = 2 /\ w0 = 12%positive)
              \/ (u = 3 /\ w0 = 13%positive)).
    { intros u w0 H.
      apply lookup_insert_Some in H as [[<- <-]|[_ H]]; [auto|].
      apply lookup_insert_Some in H as [[<- <-]|[_ H]]; [auto|].
      apply lookup_singleton_Some in H as [<- <-]. auto. }
    apply Hcases in Hm, Hc.
    destruct Hm as [[-> ->]|[[-> ->]|[-> ->]]];
      destruct Hc as [[-> ?]|[[-> ?]|[-> ?]]]; congruence. }
  assert (Hin : forall u, u = 1 \/ u = 2 \/ u = 3 ->
                  u ∈ recipients {[ 1; 2; 3 ]} None).
  { intros u Hu. cbn. rewrite !elem_of_union, !elem_of_singleton. tauto. }
  split; [|split].
  - apply (Hfail 2 12%positive); [apply Hin; auto|reflexivity|].
    intros [Hf _]. apply Hf. cbn. now apply elem_of_singleton.
  - destruct (Hok 1 11%positive) as (_ & _ & H);
      [apply Hin; auto|reflexivity|now apply Hh|].
    rewrite H; [reflexivity|]. now apply Huniq.
  - destruct (Hok 3 13%positive) as (_ & _ & H);
      [apply Hin; auto|reflexivity|now apply Hh|].
    rewrite H; [reflexivity|]. now apply Huniq.
Defined.

(** ** The membership index *)

Section MembershipIndex.

Lemma get_user_rooms_spec (m : WebSocketManager) (user_id room_id : Z) :
  room_id ∈ get_user_rooms m user_id <-> user_id ∈ members_of m room_id.
Proof.
  unfold get_user_rooms, members_of. rewrite list_elem_of_fmap. split.
  - intros ([r room] & -> & Hin). apply list_elem_of_filter in Hin as [Hu Hin].
    apply elem_of_map_to_list in Hin. cbn in *. now rewrite Hin.
  - intros Hu.
    destruct (room_memberships m !! room_id) as [room|] eqn:E; cbn in Hu.
    + exists (room_id, room). split; [done|].
      apply list_elem_of_filter. split; [done|].
      now apply elem_of_map_to_list.
    + now apply not_elem_of_empty in Hu.
Qed.

Lemma get_user_rooms_NoDup (m : WebSocketManager) (user_id : Z) :
  NoDup (get_user_rooms m user_id).
Proof.
  unfold get_user_rooms.
  eapply NoDup_fmap_fst.
  - intros r s1 s2 H1 H2.
    apply list_elem_of_filter in H1 as [_ H1].
    apply list_elem_of_filter in H2 as [_ H2].
    apply elem_of_map_to_list in H1, H2. congruence.
  - apply NoDup_filter, NoDup_map_to_list.
Qed.

(** C6.  After any sequence of calls (joins, leaves, disconnects and all
    the others), from any state, a user is in the occupant set of a room
    exactly when the room is in the list of rooms returned for the user,
    and that list names no room twice. *)
Theorem bidirectional_index (ops : list (Z * Op)) (w0 : World)
    (room_id user_id : Z) :
  let m := manager (run ops w0) in
  (user_id ∈ members_of m room_id <-> room_id ∈ get_user_rooms m user_id)
  /\ NoDup (get_user_rooms m user_id).
Proof.
  intros m. split.
  - symmetry. apply get_user_rooms_spec.
  - apply get_user_rooms_NoDup.
Qed.

End MembershipIndex.

(** ** Joining and leaving *)

Section JoinLeave.
Implicit Types (w : World).

Lemma not_error_room_users_update room_id users :
  ¬ is_error (room_users_update room_id users).
Proof. now cbn. Qed.

(** What [_join_room] does: the user is added to the room's occupant
    set, nothing else of the state changes, and no error frame is sent. *)
Lemma join_room_effect user_id room_id w :
  let w' := _join_room user_id room_id w in
  room_memberships (manager w') =
    add_member room_id user_id (room_memberships (manager w)) /\
  user_locations (manager w') = user_locations (manager w) /\
  database w' = database w /\
  delivers (fun e => ¬ is_error e) w w'.
Proof.
  cbv zeta. unfold _join_room. cbv zeta.
  set (w1 := with_manager
               (with_room_memberships (add_member room_id user_id)) w).
  assert (D1 : delivers (fun e => ¬ is_error e) w w1)
    by (unfold delivers; cbn; repeat split; try done;
        intros ws; exists []; now rewrite app_nil_r).
  destruct (first _ (rooms (database w1))) as [room|].
  2:{ repeat split; try done; apply D1. }
  match goal with
  | |- room_memberships (manager ?wf) = _ /\ _ =>
      assert (S : sends (fun e => ¬ is_error e) w1 wf)
  end.
  { eapply sends_trans; [|eapply sends_trans];
      [| |apply broadcast_room_users_sends, not_error_room_users_update];
      [|apply broadcast_to_room_sends; now cbn].
    apply send_to_user_sends. now cbn. }
  destruct S as [(Hr & Hl & Hd) D].
  rewrite Hr, Hl, Hd.
  split; [reflexivity|]. split; [reflexivity|]. split; [reflexivity|].
  exact (delivers_trans _ _ _ _ D1 D).
Qed.

(** What [_leave_room] does: the user is discarded from the room's
    occupant set and an emptied room is pruned; the first active
    membership row is closed; no error frame is sent. *)
Lemma leave_room_effect now user_id room_id w :
  let w' := _leave_room now user_id room_id w in
  room_memberships (manager w') =
    discard_member room_id user_id (room_memberships (manager w)) /\
  user_locations (manager w') = user_locations (manager w) /\
  delivers (fun e => ¬ is_error e) w w'.
Proof.
  cbv zeta. unfold _leave_room. cbv zeta.
  match goal with
  | |- context [_broadcast_to_room _ _ _ ?w2] =>
      match goal with
      | |- room_memberships (manager ?wf) = _ /\ _ =>
          assert (S : sends (fun e => ¬ is_error e) w2 wf)
      end
  end.
  { eapply sends_trans;
      [|apply broadcast_room_users_sends, not_error_room_users_update].
    apply broadcast_to_room_sends. now cbn. }
  destruct S as [(Hr & Hl & Hd) D].
  rewrite Hr, Hl.
  split; [reflexivity|]. split; [reflexivity|].
  eapply delivers_trans; [|apply D].
  unfold delivers; cbn; repeat split; try done.
  intros ws; exists []; now rewrite app_nil_r.
Qed.

Lemma add_member_lookup room_id user_id rm r :
  add_member room_id user_id rm !! r =
  if decide (r = room_id)
  then Some (default ∅ (rm !! room_id) ∪ {[user_id]})
  else rm !! r.
Proof.
  unfold add_member. destruct (decide (r = room_id)) as [->|Hne].
  - apply lookup_insert_eq.
  - now apply lookup_insert_ne.
Qed.

Lemma discard_member_lookup room_id user_id rm r :
  discard_member room_id user_id rm !! r =
  if decide (r = room_id)
  then match rm !! room_id with
       | Some room =>
           if decide (room ∖ {[user_id]} = ∅) then None
           else Some (room ∖ {[user_id]})
       | None => None
       end
  else rm !! r.
Proof.
  unfold discard_member.
  destruct (rm !! room_id) as [room|] eqn:E; cbv zeta.
  - destruct (decide (room ∖ {[user_id]} = ∅));
      destruct (decide (r = room_id)) as [->|Hne].
    + apply lookup_delete_eq.
    + now apply lookup_delete_ne.
    + apply lookup_insert_eq.
    + now apply lookup_insert_ne.
  - destruct (decide (r = room_id)) as [->|Hne]; done.
Qed.

Lemma add_member_nonempty room_id user_id rm :
  (forall r room, rm !! r = Some room -> room ≠ ∅) ->
  forall r room, add_member room_id user_id rm !! r = Some room -> room ≠ ∅.
Proof.
  intros H r room. rewrite add_member_lookup.
  destruct (decide (r = room_id)) as [->|_]; [|apply H].
  intros [= <-] He.
  assert (user_id ∈ (∅ : gset Z)) as Hin.
  { rewrite <- He. apply elem_of_union_r. now apply elem_of_singleton. }
  now apply not_elem_of_empty in Hin.
Qed.

Lemma discard_member_nonempty room_id user_id rm :
  (forall r room, rm !! r = Some room -> room ≠ ∅) ->
  forall r room,
    discard_member room_id user_id rm !! r = Some room -> room ≠ ∅.
Proof.
  intros H r room. rewrite discard_member_lookup.
  destruct (decide (r = room_id)) as [->|_]; [|apply H].
  destruct (rm !! room_id) as [room0|]; [|done].
  destruct (decide (room0 ∖ {[user_id]} = ∅)); [done|]. now intros [= <-].
Qed.

(** After [discard_member] the user is not an occupant of that room. *)
Lemma discard_member_gone room_id user_id rm :
  user_id ∉ default ∅ (discard_member room_id user_id rm !! room_id).
Proof.
  rewrite discard_member_lookup, decide_True by done.
  destruct (rm !! room_id) as [room|]; cbn; [|apply not_elem_of_empty].
  destruct (decide (room ∖ {[user_id]} = ∅)); cbn.
  - apply not_elem_of_empty.
  - intros Hin. apply elem_of_difference in Hin as [_ Hn].
    apply Hn. now apply elem_of_singleton.
Qed.

End JoinLeave.

(** ** Every call changes the index by joins and leaves only *)

Section IndexMoves.
Implicit Types (w : World).

Local Abbreviation index w := (room_memberships (manager w)).

Lemma index_moves_trans rm1 rm2 rm3 :
  index_moves rm1 rm2 -> index_moves rm2 rm3 -> index_moves rm1 rm3.
Proof.
  intros H12 H23. induction H23.
  - done.
  - apply moves_add. auto.
  - apply moves_discard. auto.
Qed.

Lemma index_moves_eq rm rm' : rm' = rm -> index_moves rm rm'.
Proof. intros ->. constructor. Qed.

Lemma index_moves_foldl {A} (f : A -> World -> World) l w :
  (forall x w, index_moves (index w) (index (f x w))) ->
  index_moves (index w) (index (foldl (fun w x => f x w) w l)).
Proof.
  intros Hf. revert w. induction l as [|x l IH]; intros w.
  - constructor.
  - cbn. eapply index_moves_trans; [apply Hf|apply IH].
Qed.

Lemma index_moves_nonempty rm rm' :
  index_moves rm rm' ->
  (forall r room, rm !! r = Some room -> room ≠ ∅) ->
  (forall r room, rm' !! r = Some room -> room ≠ ∅).
Proof.
  intros H Hne. induction H as [rm|rm rm' r0 u0 H IH|rm rm' r0 u0 H IH].
  - done.
  - apply add_member_nonempty. now apply IH.
  - apply discard_member_nonempty. now apply IH.
Qed.

Lemma sends_index P w w' : sends P w w' -> index_moves (index w) (index w').
Proof. intros [(Hr & _) _]. now apply index_moves_eq. Qed.

Lemma send_to_user_moves user_id message w :
  index_moves (index w) (index (_send_to_user user_id message w)).
Proof.
  apply (sends_index (fun _ => True)). now apply send_to_user_sends.
Qed.

Lemma join_room_moves user_id room_id w :
  index_moves (index w) (index (_join_room user_id room_id w)).
Proof.
  destruct (join_room_effect user_id room_id w) as (-> & _).
  apply moves_add. constructor.
Qed.

Lemma leave_room_moves now user_id room_id w :
  index_moves (index w) (index (_leave_room now user_id room_id w)).
Proof.
  destruct (leave_room_effect now user_id room_id w) as (-> & _).
  apply moves_discard. constructor.
Qed.

Lemma send_initial_data_moves user_id w :
  index_moves (index w) (index (_send_initial_data user_id w)).
Proof.
  unfold _send_initial_data.
  apply (index_moves_foldl
           (fun membership w =>
              _rejoin_room user_id (RoomMembership.room_id membership) w)).
  intros. apply join_room_moves.
Qed.

Lemma connect_moves now user_id websocket w :
  index_moves (index w) (index (connect now user_id websocket w)).
Proof.
  unfold connect. cbv zeta.
  eapply index_moves_trans; [|apply send_initial_data_moves].
  constructor.
Qed.

Lemma leave_rooms_moves now user_id room_ids w :
  index_moves (index w) (index (leave_rooms now user_id room_ids w).2).
Proof.
  revert w. induction room_ids as [|r rest IH]; intros w; cbn.
  - constructor.
  - destruct (index w !! r) as [room|]; [|constructor].
    eapply index_moves_trans; [|apply IH].
    destruct (decide (user_id ∈ room)); [apply leave_room_moves|constructor].
Qed.

Lemma disconnect_moves now user_id w :
  index_moves (index w) (index (disconnect now user_id w)).
Proof.
  unfold disconnect. cbv zeta.
  match goal with
  | |- context [leave_rooms now user_id ?l ?w1] =>
      pose proof (leave_rooms_moves now user_id l w1) as H;
      destruct (leave_rooms now user_id l w1) as [[] w2]
  end; exact H.
Qed.

Lemma disconnect_each_moves now l w :
  index_moves (index w)
    (index (foldl (fun w user_id => disconnect now user_id w) w l)).
Proof.
  apply (index_moves_foldl (fun user_id w => disconnect now user_id w)).
  intros. apply disconnect_moves.
Qed.

Lemma send_proximity_notification_sends user_id friend_id distance w :
  sends (fun _ => True) w
    (_send_proximity_notification user_id friend_id distance w).
Proof.
  unfold _send_proximity_notification.
  destruct (query_user _ _); [|apply sends_refl].
  now apply send_to_user_sends.
Qed.

Lemma proximity_notify_loop_sends user_id user_lat user_lng friendships w :
  sends (fun _ => True) w
    (proximity_notify_loop user_id user_lat user_lng friendships w).
Proof.
  revert w. induction friendships as [|f rest IH]; intros w; cbn.
  - apply sends_refl.
  - destruct (query_location _ _) as [fl|]; [|apply IH].
    destruct (GeoMath.calculate_distance_between_points _ _ _ _);
      [|apply sends_refl].
    eapply sends_trans; [|apply IH].
    destruct (Rleb _ _); [|apply sends_refl].
    apply send_proximity_notification_sends.
Qed.

Lemma check_proximity_sends user_id location w :
  sends (fun _ => True) w (_check_proximity user_id location w).
Proof.
  unfold _check_proximity.
  destruct (truthy_float _); [|apply sends_refl].
  destruct (truthy_float _); [|apply sends_refl].
  apply proximity_notify_loop_sends.
Qed.

Lemma handle_join_room_moves now user_id roomId location w :
  index_moves (index w)
    (index (_handle_join_room now user_id roomId location w)).
Proof.
  unfold _handle_join_room.
  destruct (truthy_id roomId) as [room_id|]; [|apply send_to_user_moves].
  destruct (first _ _) as [room|]; [|apply send_to_user_moves].
  destruct (bool_decide _); [apply send_to_user_moves|].
  destruct (outside_boundary _ _) as [[]|]; try apply send_to_user_moves.
  cbv zeta. eapply index_moves_trans; [|apply join_room_moves].
  destruct (first _ _); constructor.
Qed.

Lemma handle_message_moves now user_id message w :
  index_moves (index w) (index (handle_message now user_id message w)).
Proof.
  destruct message as [roomId location|roomId|roomId content|location| |ty];
    cbn [handle_message].
  - apply handle_join_room_moves.
  - unfold _handle_leave_room.
    destruct (truthy_id roomId);
      [apply leave_room_moves|apply send_to_user_moves].
  - unfold _handle_send_message.
    destruct (truthy_id roomId); [|apply send_to_user_moves].
    destruct (truthy_string content); [|apply send_to_user_moves].
    destruct (bool_decide _); [|apply send_to_user_moves]. cbv zeta.
    eapply index_moves_trans;
      [|apply (sends_index (fun _ => True)), broadcast_to_room_sends; done].
    constructor.
  - unfold _handle_location_update.
    destruct location as [l|]; [|constructor]. cbv zeta.
    destruct (LocationMsg.lat l); [|constructor].
    destruct (LocationMsg.lng l); [|constructor].
    eapply index_moves_trans;
      [|apply (sends_index (fun _ => True)), check_proximity_sends].
    constructor.
  - apply send_to_user_moves.
  - apply send_to_user_moves.
Qed.

Lemma broadcast_to_all_moves now message w :
  index_moves (index w) (index (broadcast_to_all now message w)).
Proof.
  unfold broadcast_to_all.
  destruct (foldl _ _ _) as [t disconnected_users].
  eapply index_moves_trans; [|apply disconnect_each_moves]. constructor.
Qed.

Lemma reject_index websocket message w :
  index (reject websocket message w) = index w.
Proof. unfold reject. now destruct (send_text _ _ _). Qed.

Lemma websocket_endpoint_open_moves now websocket auth_data w :
  index_moves (index w)
    (index (websocket_endpoint_open now websocket auth_data w).2).
Proof.
  unfold websocket_endpoint_open.
  destruct auth_data as [userId| |];
    [|apply index_moves_eq, reject_index|apply moves_none].
  destruct (truthy_id userId) as [user_id|];
    [|apply index_moves_eq, reject_index].
  destruct (query_user _ _).
  2:{ cbn [snd]. eapply index_moves_trans; [|apply disconnect_moves].
      apply index_moves_eq, reject_index. }
  cbv zeta. destruct (send_text _ _ _); cbn [snd].
  - apply connect_moves.
  - eapply index_moves_trans; [apply connect_moves|apply disconnect_moves].
Qed.

Lemma step_moves w o : index_moves (index w) (index (step w o)).
Proof.
  destruct o as [now []]; unfold step; cbn [fst snd].
  - apply websocket_endpoint_open_moves.
  - apply connect_moves.
  - apply handle_message_moves.
  - apply disconnect_moves.
  - apply disconnect_each_moves.
  - apply broadcast_to_all_moves.
  - constructor.
  - constructor.
Qed.

Lemma run_moves ops w : index_moves (index w) (index (run ops w)).
Proof.
  revert w. induction ops as [|o ops IH]; intros w; cbn.
  - constructor.
  - eapply index_moves_trans; [apply step_moves|apply IH].
Qed.

(** C9.  A leave prunes the room it empties, a disconnect prunes every
    room it empties, and therefore, in every state reached by any
    sequence of calls from a state without empty rooms (in particular
    from process start), every room present in the index has at least
    one occupant. *)
Theorem empty_rooms_are_pruned :
  (forall now user_id room_id w,
     rooms_nonempty (manager w) ->
     let m' := manager (_leave_room now user_id room_id w) in
     rooms_nonempty m' /\
     (members_of m' room_id = ∅ -> room_memberships m' !! room_id = None)) /\
  (forall now user_id w,
     rooms_nonempty (manager w) ->
     rooms_nonempty (manager (disconnect now user_id w))) /\
  (forall ops w,
     rooms_nonempty (manager w) -> rooms_nonempty (manager (run ops w))) /\
  (forall ops d, rooms_nonempty (manager (run ops (initial_world d)))).
Proof.
  assert (Hrun : forall ops w,
            rooms_nonempty (manager w) ->
            rooms_nonempty (manager (run ops w))).
  { intros ops w H. unfold rooms_nonempty.
    eapply index_moves_nonempty; [apply run_moves|exact H]. }
  split; [|split; [|split]].
  - intros now user_id room_id w H m'.
    assert (Hm : rooms_nonempty m').
    { unfold rooms_nonempty.
      eapply index_moves_nonempty; [apply leave_room_moves|exact H]. }
    split; [done|]. unfold members_of. intros He.
    destruct (room_memberships m' !! room_id) as [room|] eqn:E; [|done].
    cbn in He. now apply Hm in E.
  - intros now user_id w H. unfold rooms_nonempty.
    eapply index_moves_nonempty; [apply disconnect_moves|exact H].
  - exact Hrun.
  - intros ops d. apply Hrun. intros r room H. cbn in H.
    now rewrite lookup_empty in H.
Qed.

End IndexMoves.

(** C9, witness: user 2 disconnects from the three-member room. *)
Lemma empty_rooms_are_pruned_witness :
  rooms_nonempty (manager (run [(0, op_disconnect 2)] three_member_world)).
Proof.
  destruct empty_rooms_are_pruned as (_ & _ & H & _). apply H.
  intros r room Hr. cbn in Hr.
  apply lookup_singleton_Some in Hr as [_ <-].
  intros He. assert (1 ∈ (∅ : gset Z)) as Hin.
  { rewrite <- He. rewrite !elem_of_union, !elem_of_singleton. tauto. }
  now apply not_elem_of_empty in Hin.
Defined.

(** ** Disconnect *)

Section Disconnect.
Implicit Types (w : World).

Local Abbreviation index w := (room_memberships (manager w)).

Lemma leave_rooms_spec now user_id room_ids w :
  NoDup room_ids ->
  (forall r, r ∈ room_ids -> is_Some (index w !! r)) ->
  let res := leave_rooms now user_id room_ids w in
  res.1 = true /\
  (forall r, r ∈ room_ids -> user_id ∉ members_of (manager res.2) r) /\
  (forall r, r ∉ room_ids -> index res.2 !! r = index w !! r) /\
  user_locations (manager res.2) = user_locations (manager w) /\
  delivers (fun e => ¬ is_error e) w res.2.
Proof.
  revert w. induction room_ids as [|k rest IH]; intros w Hnd Hkeys; cbn.
  - split; [done|]. split; [intros r Hr; now apply elem_of_nil in Hr|].
    split; [done|]. split; [done|]. apply delivers_refl.
  - apply NoDup_cons in Hnd as [Hk Hnd].
    destruct (Hkeys k) as [room Hroom]; [now left|]. rewrite Hroom.
    set (w1 := if decide (user_id ∈ room)
               then _leave_room now user_id k w else w).
    assert (Hw1 : index w1 =
                  if decide (user_id ∈ room)
                  then discard_member k user_id (index w) else index w).
    { unfold w1. destruct (decide (user_id ∈ room)); [|done].
      now destruct (leave_room_effect now user_id k w) as (-> & _). }
    assert (Hl1 : user_locations (manager w1) = user_locations (manager w)).
    { unfold w1. destruct (decide (user_id ∈ room)); [|done].
      now destruct (leave_room_effect now user_id k w) as (_ & -> & _). }
    assert (D1 : delivers (fun e => ¬ is_error e) w w1).
    { unfold w1. destruct (decide (user_id ∈ room)); [|apply delivers_refl].
      now destruct (leave_room_effect now user_id k w) as (_ & _ & D). }
    assert (Hother : forall r, r ≠ k -> index w1 !! r = index w !! r).
    { intros r Hr. rewrite Hw1. destruct (decide (user_id ∈ room)); [|done].
      rewrite discard_member_lookup. now rewrite decide_False. }
    assert (Hgone : user_id ∉ members_of (manager w1) k).
    { unfold members_of. rewrite Hw1.
      destruct (decide (user_id ∈ room)) as [Hin|Hin].
      - apply discard_member_gone.
      - now rewrite Hroom. }
    destruct (IH w1 Hnd) as (Hok & Hin & Hout & Hloc & D).
    { intros r Hr. rewrite Hother by (intros ->; done).
      apply Hkeys. now right. }
    split; [done|]. split; [|split; [|split]].
    + intros r Hr. apply elem_of_cons in Hr as [->|Hr]; [|now apply Hin].
      unfold members_of. rewrite Hout by done. exact Hgone.
    + intros r Hr. apply not_elem_of_cons in Hr as [Hne Hr].
      rewrite Hout by done. now apply Hother.
    + congruence.
    + eapply delivers_trans; eauto.
Qed.

(** What [disconnect] leaves behind, from any state. *)
Lemma disconnect_effect now user_id w :
  let w' := disconnect now user_id w in
  (forall r, user_id ∉ members_of (manager w') r) /\
  user_locations (manager w') !! user_id = None /\
  active_connections (manager w') !! user_id = None.
Proof.
  cbv zeta. unfold disconnect. cbv zeta.
  set (w1 := with_manager (with_active_connections (delete user_id)) w).
  pose proof (leave_rooms_spec now user_id
                (map_to_list (index w1)).*1 w1) as H.
  destruct H as (Hok & Hin & Hout & Hloc & D).
  { apply NoDup_fst_map_to_list. }
  { intros r Hr. apply list_elem_of_fmap in Hr as ([r' room] & -> & Hr).
    apply elem_of_map_to_list in Hr. eauto. }
  destruct (leave_rooms now user_id _ w1) as [ok w2]. cbn in *. subst ok.
  split; [|split].
  - intros r. destruct (decide (r ∈ (map_to_list (index w1)).*1)) as [Hr|Hr].
    + now apply Hin.
    + unfold members_of. cbn. rewrite Hout by done.
      destruct (room_memberships (manager w) !! r) as [room|] eqn:E.
      * exfalso. apply Hr. apply list_elem_of_fmap. exists (r, room).
        split; [done|]. now apply elem_of_map_to_list.
      * apply not_elem_of_empty.
  - cbn. apply lookup_delete_eq.
  - cbn. eapply offline_stays_offline; [apply D|].
    cbn. apply lookup_delete_eq.
Qed.

(** [disconnect] changes the condition of no socket. *)
Lemma disconnect_sockets now user_id w :
  failing (transport (disconnect now user_id w)) = failing (transport w) /\
  closed (transport (disconnect now user_id w)) = closed (transport w).
Proof.
  unfold disconnect. cbv zeta.
  set (w1 := with_manager (with_active_connections (delete user_id)) w).
  pose proof (leave_rooms_spec now user_id
                (map_to_list (index w1)).*1 w1) as H.
  destruct H as (Hok & _ & _ & _ & (Hf & Hc & _)).
  { apply NoDup_fst_map_to_list. }
  { intros r Hr. apply list_elem_of_fmap in Hr as ([r' room] & -> & Hr).
    apply elem_of_map_to_list in Hr. eauto. }
  destruct (leave_rooms now user_id _ w1) as [ok w2]. cbn in *. subst ok.
  done.
Qed.

(** C4 (amended).  After the session-closed handling for a user, the
    user is in no room's occupant set, the rooms returned for the user
    are none, the stored location sample is gone, and the user is
    reported offline; the location service, with its cache of proximity
    pairs and its geofence statuses, is left exactly as it was. *)
Theorem disconnect_cleanup (now user_id : Z) (a : App) :
  let a' := websocket_endpoint_close now user_id a in
  (forall room_id, user_id ∉ members_of (manager (core a')) room_id) /\
  get_user_rooms (manager (core a')) user_id = [] /\
  user_locations (manager (core a')) !! user_id = None /\
  is_user_online (manager (core a')) user_id = false /\
  location_service a' = location_service a.
Proof.
  cbv zeta. cbn [websocket_endpoint_close core location_service].
  destruct (disconnect_effect now user_id (core a)) as (Hrooms & Hloc & Hc).
  split; [done|]. split; [|split; [done|split; [|done]]].
  - destruct (get_user_rooms _ user_id) as [|r l] eqn:E; [done|].
    exfalso. apply (Hrooms r). apply get_user_rooms_spec. rewrite E.
    now left.
  - unfold is_user_online. rewrite Hc. apply bool_decide_eq_false.
    intros [? ?]. done.
Qed.

(** C4, counterexample.  Users 1 and 2 have a cached proximity pair;
    after the session of user 1 is closed the pair is still cached. *)
Lemma disconnect_keeps_proximity_pair :
  let a' := websocket_endpoint_close 0 1 near_pair_app in
  is_user_online (manager (core near_pair_app)) 1 = true /\
  is_user_online (manager (core a')) 1 = false /\
  proximity_cache (location_service a') !! cache_key 1 2 = Some 50%R.
Proof.
  cbv zeta. split; [|split].
  - unfold is_user_online. apply bool_decide_eq_true. cbn.
    rewrite lookup_singleton_eq. eauto.
  - destruct (disconnect_effect 0 1 (core near_pair_app)) as (_ & _ & Hc).
    unfold is_user_online. cbn [websocket_endpoint_close core].
    rewrite Hc. apply bool_decide_eq_false. intros [? ?]. done.
  - cbn. apply lookup_singleton_eq.
Qed.

End Disconnect.

(** ** Admission *)

Section Admission.
Implicit Types (w : World).

Lemma first_Some {A} (p : A -> bool) rows x :
  first p rows = Some x -> p x = true /\ x ∈ rows.
Proof.
  unfold first. intros H. apply List.find_some in H as [Hin Hp].
  split; [done|]. now apply list_elem_of_In.
Qed.

Lemma first_None {A} (p : A -> bool) rows x :
  first p rows = None -> x ∈ rows -> p x = false.
Proof.
  unfold first. intros H Hin.
  apply list_elem_of_In in Hin.
  now apply (List.find_none _ _ H).
Qed.

(** Every rejection of [_handle_join_room] is a single error frame. *)
Lemma handle_join_room_cases now user_id roomId location w :
  let w' := _handle_join_room now user_id roomId location w in
  (exists room_id,
     truthy_id roomId = Some room_id /\
     admitted room_id location (database w)) \/
  (exists message, w' = _send_to_user user_id (error message) w).
Proof.
  cbv zeta. unfold _handle_join_room.
  destruct (truthy_id roomId) as [room_id|]; [|right; eauto].
  destruct (first _ (rooms (database w))) as [room|] eqn:Eroom;
    [|right; eauto].
  destruct (bool_decide _) eqn:Ecap; [right; eauto|].
  destruct (outside_boundary location room) as [[]|] eqn:Eloc;
    try (right; eauto; fail).
  left. exists room_id. split; [done|]. exists room.
  apply bool_decide_eq_false in Ecap. repeat split; try done. lia.
Qed.

Lemma handle_join_room_full now user_id room_id location w room :
  room_id ≠ 0 ->
  first (fun r => bool_decide (Room.id r = room_id) && Room.is_active r)
        (rooms (database w)) = Some room ->
  Room.max_users room <=
    Z.of_nat (length (List.filter (active_in_room room_id)
                        (memberships (database w)))) ->
  handle_message now user_id (join_room (Some room_id) location) w =
    _send_to_user user_id (error "Room is at maximum capacity") w.
Proof.
  intros Hid Hroom Hcap. cbn [handle_message]. unfold _handle_join_room.
  cbn [truthy_id]. rewrite decide_False by done. rewrite Hroom.
  now rewrite bool_decide_eq_true_2.
Qed.

(** C3.  When the active members of a room have reached its capacity
    (two members for capacity 2), a join request by anyone is answered
    with the at-capacity error and changes neither the membership index,
    nor the database, nor the stored locations.  More generally the
    admission checks run before any mutation: a request that fails one
    of them is answered with one error frame and nothing else happens. *)
Theorem capacity_enforcement now user_id room_id location w room :
  room_id ≠ 0 ->
  first (fun r => bool_decide (Room.id r = room_id) && Room.is_active r)
        (rooms (database w)) = Some room ->
  Room.max_users room <=
    Z.of_nat (length (List.filter (active_in_room room_id)
                        (memberships (database w)))) ->
  let w' := handle_message now user_id (join_room (Some room_id) location) w
  in
  w' = _send_to_user user_id (error "Room is at maximum capacity") w /\
  same_state w w' /\
  (forall ws,
     active_connections (manager w) !! user_id = Some ws ->
     healthy (transport w) ws ->
     manager w' = manager w /\
     outbox (transport w') ws =
       outbox (transport w) ws ++ [error "Room is at maximum capacity"]) /\
  (forall now' user_id' roomId' location' w0,
     let w1 := handle_message now' user_id' (join_room roomId' location') w0
     in
     (exists room_id',
        truthy_id roomId' = Some room_id' /\
        admitted room_id' location' (database w0)) \/
     (same_state w0 w1 /\
      exists message, w1 = _send_to_user user_id' (error message) w0)).
Proof.
  intros Hid Hroom Hcap w'.
  assert (Hw' : w' = _send_to_user user_id
                       (error "Room is at maximum capacity") w)
    by now apply (handle_join_room_full _ _ _ _ _ room).
  split; [done|]. split; [|split].
  - rewrite Hw'. now apply (send_to_user_sends (fun _ => True)).
  - intros ws Hc Hh. rewrite Hw'.
    rewrite (send_to_user_healthy _ ws) by done. cbn.
    split; [done|]. rewrite outbox_after_send. now rewrite decide_True.
  - intros now' user_id' roomId' location' w0 w1.
    destruct (handle_join_room_cases now' user_id' roomId' location' w0)
      as [H|[message H]]; [now left|right].
    split; [|now exists message].
    unfold w1. cbn [handle_message]. rewrite H.
    now apply (send_to_user_sends (fun _ => True)).
Qed.

(** C3, witness: room 7 has capacity 2 and members 1 and 2; the join of
    user 3 is answered with the at-capacity error and nothing changes. *)
Lemma capacity_enforcement_witness :
  let w := two_member_world 2 in
  let w' := handle_message 0 3 (join_room (Some 7) None) w in
  outbox (transport w') 13%positive = [error "Room is at maximum capacity"]
  /\ manager w' = manager w /\ database w' = database w.
Proof.
  cbv zeta.
  pose proof (capacity_enforcement 0 3 7 None (two_member_world 2)
                (Room.mk 7 0 0 2 50 true) ltac:(done) eq_refl ltac:(done))
    as (_ & (_ & _ & Hd) & H & _).
  destruct (H 13%positive eq_refl) as [Hm Ho].
  { split; cbn; apply not_elem_of_empty. }
  rewrite Ho. done.
Defined.

Lemma add_member_present room_id user_id rm room :
  rm !! room_id = Some room -> user_id ∈ room ->
  add_member room_id user_id rm = rm.
Proof.
  intros Hroom Hin. unfold add_member. rewrite Hroom. cbn.
  apply insert_id. rewrite Hroom. f_equal.
  apply set_eq. intros x. rewrite elem_of_union, elem_of_singleton.
  split; [intros H; now left|intros [H| ->]; done].
Qed.

(** C8 (amended).  For a user who is already an active member of a room,
    a repeated join request that passes the admission checks (room
    active, active members below capacity, location absent or inside the
    boundary) leaves the membership index and the database as they are
    (no second membership row), sends no error frame to anyone, and is
    answered with the [room_joined] frame. *)
Theorem repeated_join now user_id room_id location w membership :
  room_id ≠ 0 ->
  admitted room_id location (database w) ->
  first (active_membership room_id user_id) (memberships (database w))
    = Some membership ->
  user_id ∈ members_of (manager w) room_id ->
  let w' := handle_message now user_id (join_room (Some room_id) location) w
  in
  same_state w w' /\
  delivers (fun e => ¬ is_error e) w w' /\
  (forall ws,
     active_connections (manager w) !! user_id = Some ws ->
     healthy (transport w) ws ->
     exists users messages rest,
       outbox (transport w') ws =
         outbox (transport w) ws ++
         room_joined room_id users messages :: rest).
Proof.
  intros Hid (room & Hroom & Hcap & Hloc) Hmem Hin w'.
  assert (Hw' : w' = _join_room user_id room_id w).
  { unfold w'. cbn [handle_message]. unfold _handle_join_room.
    cbn [truthy_id]. rewrite decide_False by done. rewrite Hroom.
    rewrite bool_decide_eq_false_2 by lia. rewrite Hloc. cbv zeta.
    now rewrite Hmem. }
  assert (Hindex : add_member room_id user_id (room_memberships (manager w))
                   = room_memberships (manager w)).
  { unfold members_of in Hin.
    destruct (room_memberships (manager w) !! room_id) as [s|] eqn:E.
    - now apply (add_member_present _ _ _ s).
    - now apply not_elem_of_empty in Hin. }
  destruct (join_room_effect user_id room_id w) as (Hr & Hl & Hd & D).
  rewrite <- Hw' in Hr, Hl, Hd, D.
  split; [|split; [done|]].
  - unfold same_state. now rewrite Hr, Hindex, Hl, Hd.
  - intros ws Hc Hh. rewrite Hw'. unfold _join_room. cbv zeta.
    set (w1 := with_manager
                 (with_room_memberships (add_member room_id user_id)) w).
    apply first_Some in Hroom as [Hp Hrows].
    apply andb_prop in Hp as [Hp _]. apply bool_decide_eq_true in Hp.
    destruct (first (fun r => bool_decide (Room.id r = room_id))
                (rooms (database w1))) as [room0|] eqn:E0.
    2:{ apply (first_None _ _ room) in E0; [|done].
        apply bool_decide_eq_false in E0. done. }
    apply first_Some in E0 as [Hp0 _]. apply bool_decide_eq_true in Hp0.
    rewrite Hp0.
    match goal with
    | |- context [_broadcast_room_users _ (_broadcast_to_room _ _ _ ?wa)] =>
        assert (S : sends (fun _ => True) wa
                      (_broadcast_room_users room_id
                         (_broadcast_to_room room_id
                            (user_joined user_id
                               (display_name (database wa) user_id) room_id)
                            (Some user_id) wa)));
        [eapply sends_trans;
           [apply broadcast_to_room_sends|apply broadcast_room_users_sends];
           done|];
        destruct S as [_ (_ & _ & _ & _ & Ho)];
        destruct (Ho ws) as (rest & -> & _);
        rewrite (send_to_user_healthy _ ws) by done
    end.
    cbn [with_transport transport]. rewrite outbox_after_send.
    rewrite decide_True by done. rewrite <- app_assoc. cbn. eauto.
Qed.

(** C8, counterexample.  Room 7 has capacity 2 and its two members are
    users 1 and 2.  User 1, an active member, asks to join again and is
    answered with the at-capacity error. *)
Lemma repeated_join_rejected_when_full :
  let w := two_member_world 2 in
  let w' := handle_message 0 1 (join_room (Some 7) None) w in
  1 ∈ members_of (manager w) 7 /\
  first (active_membership 7 1) (memberships (database w))
    = Some (member_row 7 1) /\
  outbox (transport w') 11%positive = [error "Room is at maximum capacity"].
Proof.
  cbv zeta. split; [|split].
  - unfold members_of. cbn. rewrite lookup_singleton_eq. cbn.
    rewrite elem_of_union, !elem_of_singleton. tauto.
  - reflexivity.
  - rewrite (handle_join_room_full _ _ _ _ _ (Room.mk 7 0 0 2 50 true))
      by done.
    rewrite (send_to_user_healthy _ 11%positive);
      [|reflexivity|split; cbn; apply not_elem_of_empty].
    cbn [with_transport transport]. rewrite outbox_after_send.
    now rewrite decide_True.
Qed.

(** C8, witness: the same room with capacity 3; the repeated join of
    user 1 changes nothing and is answered with [room_joined]. *)
Lemma repeated_join_witness :
  let w := two_member_world 3 in
  let w' := handle_message 0 1 (join_room (Some 7) None) w in
  room_memberships (manager w') = room_memberships (manager w) /\
  database w' = database w /\
  exists users messages rest,
    outbox (transport w') 11%positive =
      room_joined 7 users messages :: rest.
Proof.
  cbv zeta.
  pose proof (repeated_join 0 1 7 None (two_member_world 3)
                (member_row 7 1) ltac:(done)) as H.
  destruct H as ((Hr & _ & Hd) & _ & Ho).
  - exists (Room.mk 7 0 0 3 50 true). split; [reflexivity|].
    split; [reflexivity|reflexivity].
  - reflexivity.
  - unfold members_of. cbn. rewrite lookup_singleton_eq. cbn.
    rewrite elem_of_union, !elem_of_singleton. tauto.
  - split; [done|]. split; [done|].
    destruct (Ho 11%positive eq_refl) as (users & messages & rest & E).
    { split; cbn; apply not_elem_of_empty. }
    exists users, messages, rest. rewrite E. reflexivity.
Defined.

End Admission.

(** ** Connecting *)

Section Connect.
Implicit Types (w : World).

Lemma send_initial_data_delivers user_id w :
  delivers (fun e => ¬ is_error e) w (_send_initial_data user_id w).
Proof.
  unfold _send_initial_data.
  apply (delivers_foldl _
           (fun membership w =>
              _rejoin_room user_id (RoomMembership.room_id membership) w)).
  intros m w0. unfold _rejoin_room.
  now destruct (join_room_effect user_id (RoomMembership.room_id m) w0)
    as (_ & _ & _ & D).
Qed.

(** What [connect] does to the registry and the sockets: the new socket
    replaces whatever was bound to the user, no socket is closed, and
    the binding survives the initial frames when the socket works. *)
Lemma connect_effect now user_id websocket w :
  let w' := connect now user_id websocket w in
  failing (transport w') = failing (transport w) /\
  closed (transport w') = closed (transport w) /\
  (healthy (transport w) websocket ->
   active_connections (manager w') !! user_id = Some websocket) /\
  (forall ws, active_connections (manager w') !! user_id = Some ws ->
              ws = websocket).
Proof.
  cbv zeta. unfold connect. cbv zeta.
  match goal with
  | |- context [_send_initial_data user_id ?w2] =>
      pose proof (send_initial_data_delivers user_id w2)
        as (Hf & Hc & Hsub & Hkeep & _);
      set (w' := _send_initial_data user_id w2) in *
  end.
  cbn in Hf, Hc, Hsub, Hkeep.
  split; [done|]. split; [done|]. split.
  - intros Hh. apply Hkeep; [apply lookup_insert_eq|done].
  - intros ws Hws. eapply lookup_weaken in Hws; [|exact Hsub].
    rewrite lookup_insert_eq in Hws. congruence.
Qed.

(** C2 (amended).  After [connect(u, s2)] following [connect(u, s1)],
    with [s2] a working socket, the user is online, the registry binds
    the user to [s2] and to nothing else, and a subsequent send to the
    user is written to [s2] only; the superseded socket [s1] is dropped
    from the registry but not closed: no socket is closed by either
    call. *)
Theorem session_supersede now1 now2 user_id (s1 s2 : WebSocket) w :
  healthy (transport w) s2 ->
  let w1 := connect now1 user_id s1 w in
  let w2 := connect now2 user_id s2 w1 in
  is_user_online (manager w2) user_id = true /\
  (forall ws, active_connections (manager w2) !! user_id = Some ws <->
              ws = s2) /\
  closed (transport w2) = closed (transport w) /\
  (forall message,
     let w3 := _send_to_user user_id message w2 in
     outbox (transport w3) s2 = outbox (transport w2) s2 ++ [message] /\
     (forall ws, ws ≠ s2 ->
        outbox (transport w3) ws = outbox (transport w2) ws) /\
     manager w3 = manager w2).
Proof.
  intros Hh w1 w2.
  destruct (connect_effect now1 user_id s1 w) as (Hf1 & Hc1 & _).
  destruct (connect_effect now2 user_id s2 w1) as (Hf2 & Hc2 & Hk2 & Hu2).
  fold w1 in Hf1, Hc1. fold w2 in Hf2, Hc2, Hk2, Hu2.
  assert (Hh1 : healthy (transport w1) s2).
  { unfold healthy in *. now rewrite Hf1, Hc1. }
  assert (Hh2 : healthy (transport w2) s2).
  { unfold healthy in *. now rewrite Hf2, Hc2, Hf1, Hc1. }
  specialize (Hk2 Hh1).
  split; [|split; [|split]].
  - unfold is_user_online. rewrite Hk2. now apply bool_decide_eq_true.
  - intros ws. split; [apply Hu2|]. now intros ->.
  - congruence.
  - intros message w3. unfold w3.
    rewrite (send_to_user_healthy _ s2) by done.
    cbn [with_transport transport manager].
    split; [|split; [|done]].
    + rewrite outbox_after_send. now rewrite decide_True.
    + intros ws Hne. rewrite outbox_after_send. now rewrite decide_False.
Qed.

(** C2, counterexample.  User 1 connects on socket 11 and then on
    socket 12: socket 11 is no longer in the registry, but it has not
    been closed and still accepts frames. *)
Lemma superseded_socket_stays_open :
  let w1 := connect 0 1 11%positive restarted_world in
  let w2 := connect 1 1 12%positive w1 in
  active_connections (manager w2) !! 1 = Some 12%positive /\
  (11%positive ∉ closed (transport w2)) /\
  healthy (transport w2) 11%positive.
Proof.
  cbv zeta.
  destruct (connect_effect 0 1 11%positive restarted_world)
    as (Hf1 & Hc1 & _).
  destruct (connect_effect 1 1 12%positive
              (connect 0 1 11%positive restarted_world))
    as (Hf2 & Hc2 & Hk2 & _).
  assert (Hclosed : closed (transport
            (connect 1 1 12%positive
               (connect 0 1 11%positive restarted_world))) = ∅)
    by (rewrite Hc2, Hc1; reflexivity).
  assert (Hfailing : failing (transport
            (connect 1 1 12%positive
               (connect 0 1 11%positive restarted_world))) = ∅)
    by (rewrite Hf2, Hf1; reflexivity).
  split; [|split].
  - apply Hk2. unfold healthy. rewrite Hf1, Hc1.
    split; cbn; apply not_elem_of_empty.
  - rewrite Hclosed. apply not_elem_of_empty.
  - unfold healthy. rewrite Hclosed, Hfailing.
    split; apply not_elem_of_empty.
Qed.

(** C2, witness: the same two calls; user 1 ends up bound to socket 12
    and the next frame goes there. *)
Lemma session_supersede_witness :
  let w1 := connect 0 1 11%positive restarted_world in
  let w2 := connect 1 1 12%positive w1 in
  is_user_online (manager w2) 1 = true /\
  outbox (transport (_send_to_user 1 (pong 5) w2)) 12%positive =
    outbox (transport w2) 12%positive ++ [pong 5] /\
  outbox (transport (_send_to_user 1 (pong 5) w2)) 11%positive =
    outbox (transport w2) 11%positive.
Proof.
  cbv zeta.
  pose proof (session_supersede 0 1 1 11%positive 12%positive
                restarted_world) as H.
  destruct H as (Hon & _ & _ & Hsend).
  { split; cbn; apply not_elem_of_empty. }
  destruct (Hsend (pong 5)) as (H12 & Hother & _).
  split; [done|]. split; [done|]. now apply Hother.
Defined.

(** Remark on C2: the endpoint of the superseded session still runs, and
    when it ends, its [finally] clause unbinds the user although the
    newer socket is in working order. *)
Lemma superseded_session_end_unbinds_user :
  let w1 := connect 0 1 11%positive restarted_world in
  let w2 := connect 1 1 12%positive w1 in
  let a := websocket_endpoint_close 2 1 (mkApp w2 LocationService_init) in
  is_user_online (manager w2) 1 = true /\
  is_user_online (manager (core a)) 1 = false /\
  healthy (transport (core a)) 12%positive.
Proof.
  cbv zeta. cbn [websocket_endpoint_close core].
  destruct (connect_effect 0 1 11%positive restarted_world)
    as (Hf1 & Hc1 & _).
  destruct (connect_effect 1 1 12%positive
              (connect 0 1 11%positive restarted_world))
    as (Hf2 & Hc2 & Hk2 & _).
  set (w2 := connect 1 1 12%positive
               (connect 0 1 11%positive restarted_world)) in *.
  destruct (disconnect_effect 2 1 w2) as (_ & _ & Hoff).
  split; [|split].
  - unfold is_user_online. rewrite Hk2; [now apply bool_decide_eq_true|].
    unfold healthy. rewrite Hf1, Hc1. split; cbn; apply not_elem_of_empty.
  - unfold is_user_online. rewrite Hoff. apply bool_decide_eq_false.
    intros [? ?]. done.
  - pose proof (disconnect_sockets 2 1 w2) as [Hf3 Hc3].
    unfold healthy. rewrite Hf3, Hc3, Hf2, Hc2, Hf1, Hc1.
    split; cbn; apply not_elem_of_empty.
Qed.

End Connect.

(** ** Edge-triggered proximity *)

Section Proximity.
Variable geodesic_meters : R -> R -> R -> R -> option R.
Implicit Types (d : Database) (s : LocationService).

Local Abbreviation distance_to location row :=
  (geodesic_meters (LocationPoint.latitude location)
     (LocationPoint.longitude location)
     (LocationData.latitude row) (LocationData.longitude row)).

Lemma cache_key_inj user_id v v' :
  cache_key user_id v = cache_key user_id v' -> v = v'.
Proof. unfold cache_key. intros [= H1 H2]. lia. Qed.

Lemma events_with_app v l1 l2 :
  events_with v (l1 ++ l2) = events_with v l1 ++ events_with v l2.
Proof. unfold events_with. apply filter_app. Qed.

Lemma events_with_transition v now user_id location row prev distance :
  events_with v (transition now user_id location row prev distance) =
  if decide (LocationData.user_id row = v)
  then transition now user_id location row prev distance else [].
Proof.
  unfold transition, events_with. cbv zeta.
  destruct (negb _); [|now destruct (decide _)].
  rewrite filter_cons. cbn [ProximityEvent.user2_id].
  destruct (decide (LocationData.user_id row = v)); done.
Qed.

Lemma proximity_loop_spec now user_id location rows cache events :
  NoDup (LocationData.user_id <$> rows) ->
  (forall row, row ∈ rows -> is_Some (distance_to location row)) ->
  exists new cache',
    proximity_loop geodesic_meters now user_id location rows cache events
      = (Some (events ++ new), cache') /\
    (forall row distance,
       row ∈ rows -> distance_to location row = Some distance ->
       events_with (LocationData.user_id row) new =
         transition now user_id location row
           (cache !! cache_key user_id (LocationData.user_id row)) distance
       /\ cache' !! cache_key user_id (LocationData.user_id row)
          = Some distance) /\
    (forall v, v ∉ (LocationData.user_id <$> rows) ->
       events_with v new = [] /\
       cache' !! cache_key user_id v = cache !! cache_key user_id v).
Proof.
  revert cache events.
  induction rows as [|row0 rows IH]; intros cache events Hnd Htotal.
  - exists [], cache. cbn. rewrite app_nil_r. split; [done|]. split.
    + intros row distance Hin. now apply elem_of_nil in Hin.
    + done.
  - rewrite fmap_cons in Hnd. apply NoDup_cons in Hnd as [Hfresh Hnd].
    destruct (Htotal row0) as [d0 Hd0]; [now left|].
    cbn [proximity_loop]. unfold _calculate_distance. rewrite Hd0.
    cbv zeta.
    set (key0 := cache_key user_id (LocationData.user_id row0)).
    fold (transition now user_id location row0 (cache !! key0) d0).
    destruct (IH (<[key0 := d0]> cache)
                (events ++ transition now user_id location row0
                             (cache !! key0) d0) Hnd)
      as (new & cache' & Hloop & Hrows & Hrest).
    { intros row Hin. apply Htotal. now right. }
    exists (transition now user_id location row0 (cache !! key0) d0 ++ new),
           cache'.
    split; [|split].
    + rewrite app_assoc. rewrite <- Hloop. unfold transition. cbv zeta.
      destruct (negb _); [done|]. now rewrite app_nil_r.
    + intros row distance Hin Hd.
      rewrite events_with_app, events_with_transition.
      apply elem_of_cons in Hin as [->|Hin].
      * assert (distance = d0) as -> by congruence.
        rewrite decide_True by done.
        destruct (Hrest (LocationData.user_id row0) Hfresh) as [-> ->].
        rewrite app_nil_r. fold key0. now rewrite lookup_insert_eq.
      * assert (Hne : LocationData.user_id row0 ≠ LocationData.user_id row).
        { intros E. apply Hfresh. rewrite E.
          apply list_elem_of_fmap. eauto. }
        rewrite decide_False by done. cbn [app].
        destruct (Hrows row distance Hin Hd) as [-> ->].
        split; [|done]. rewrite lookup_insert_ne; [done|].
        unfold key0. intros E. apply cache_key_inj in E. done.
    + intros v Hv. rewrite fmap_cons in Hv.
      apply not_elem_of_cons in Hv as [Hne Hv].
      rewrite events_with_app, events_with_transition.
      rewrite decide_False by done. cbn [app].
      destruct (Hrest v Hv) as [-> ->]. split; [done|].
      rewrite lookup_insert_ne; [done|].
      unfold key0. intros E. apply cache_key_inj in E. done.
Qed.

Lemma update_first_fmap {A B} (g : A -> B) (p : A -> bool) (f : A -> A)
    (rows : list A) :
  (forall r, g (f r) = g r) ->
  g <$> update_first p f rows = g <$> rows.
Proof.
  intros Hg. induction rows as [|r rows IH]; [done|]. cbn.
  destruct (p r); cbn; [now rewrite Hg|now rewrite IH].
Qed.


Lemma filter_update_first {A} (P : A -> Prop) `{forall x, Decision (P x)}
    (p : A -> bool) (f : A -> A) (rows : list A) :
  (forall r, p r = true -> ¬ P r /\ ¬ P (f r)) ->
  filter P (update_first p f rows) = filter P rows.
Proof.
  intros Hp. induction rows as [|r rows IH]; [done|]. cbn.
  destruct (p r) eqn:E.
  - destruct (Hp r E) as [H1 H2].
    rewrite !filter_cons. now rewrite !decide_False.
  - rewrite !filter_cons. now rewrite IH.
Qed.

Lemma update_location_in_db_tables user_id location d :
  let d' := _update_location_in_db user_id location d in
  users d' = users d /\ friends d' = friends d /\
  rooms d' = rooms d /\ memberships d' = memberships d.
Proof.
  cbv zeta. unfold _update_location_in_db, upsert_location.
  now destruct (query_location d user_id).
Qed.

Lemma update_location_in_db_unique user_id location d :
  unique_locations d ->
  unique_locations (_update_location_in_db user_id location d).
Proof.
  unfold unique_locations, _update_location_in_db, upsert_location.
  intros Hnd.
  destruct (query_location d user_id) eqn:E; cbn.
  - now rewrite update_first_fmap.
  - rewrite fmap_app. cbn. apply NoDup_app. split; [done|]. split.
    + intros x Hx Hx'. apply list_elem_of_singleton in Hx'. subst x.
      apply list_elem_of_fmap in Hx as (row & Hid & Hrow).
      unfold query_location in E.
      apply (first_None _ _ row) in E; [|done].
      apply bool_decide_eq_false in E. done.
    + apply NoDup_singleton.
Qed.


Lemma update_location_in_db_friends user_id location d :
  friend_locations (_update_location_in_db user_id location d) user_id =
  friend_locations d user_id.
Proof.
  unfold friend_locations.
  destruct (update_location_in_db_tables user_id location d)
    as (-> & -> & _).
  unfold _update_location_in_db, upsert_location.
  destruct (query_location d user_id); cbn [location_data with_location_data].
  - apply filter_update_first. intros r Hr.
    apply bool_decide_eq_true in Hr. cbn [LocationData.user_id].
    rewrite Hr. rewrite bool_decide_eq_true_2 by done.
    cbn [negb]. rewrite !andb_false_r. cbn. tauto.
  - rewrite filter_app, filter_cons, decide_False, filter_nil.
    + apply app_nil_r.
    + cbn [LocationData.user_id]. rewrite bool_decide_eq_true_2 by done.
      cbn [negb]. rewrite andb_false_r. cbn. tauto.
Qed.


Lemma friend_locations_unique d user_id :
  unique_locations d ->
  NoDup (LocationData.user_id <$> friend_locations d user_id).
Proof.
  unfold unique_locations, friend_locations.
  generalize (location_data d). intros rows Hnd.
  induction rows as [|r rows IH]; [constructor|].
  rewrite fmap_cons in Hnd. apply NoDup_cons in Hnd as [Hr Hnd].
  rewrite filter_cons. destruct (decide _); [|auto].
  rewrite fmap_cons. apply NoDup_cons. split; [|auto].
  intros Hin. apply Hr. apply list_elem_of_fmap in Hin as (x & -> & Hx).
  apply list_elem_of_filter in Hx as [_ Hx].
  apply list_elem_of_fmap. eauto.
Qed.





End Proximity.

Lemma flat_distance_to_origin (x : R) :
  (0 <= x)%R -> (Rabs (0 - x) + Rabs (0 - 0) = x)%R.
Proof.
  intros H. replace (0 - x)%R with (- x)%R by lra.
  rewrite Rabs_Ropp, (Rabs_pos_eq x) by done.
  replace (0 - 0)%R with 0%R by lra. rewrite Rabs_R0. lra.
Qed.


(** ** The notification of the WebSocket handler *)

Section FriendNearby.
Implicit Types (w : World).


Lemma truthy_float_nonzero x : x ≠ 0%R -> truthy_float (Some x) = Some x.
Proof. intros H. cbn. now destruct (Req_dec_T x 0). Qed.


Lemma first_app {A} (p : A -> bool) (l1 l2 : list A) :
  first p (l1 ++ l2) =
  match first p l1 with Some x => Some x | None => first p l2 end.
Proof.
  unfold first. induction l1 as [|x l1 IH]; [done|]. cbn.
  now destruct (p x).
Qed.

Lemma upsert_location_tables user_id assign d :
  users (upsert_location user_id assign d) = users d /\
  friends (upsert_location user_id assign d) = friends d.
Proof. unfold upsert_location. now destruct (query_location d user_id). Qed.

Lemma upsert_location_other user_id assign d other :
  other ≠ user_id ->
  (forall r, LocationData.user_id (assign r) = LocationData.user_id r) ->
  query_location (upsert_location user_id assign d) other =
  query_location d other.
Proof.
  intros Hne Hid. unfold upsert_location.
  destruct (query_location d user_id) eqn:E; unfold query_location;
    cbn [location_data with_location_data].
  - clear E. unfold first.
    induction (location_data d) as [|r rows IH]; [done|]. cbn.
    destruct (bool_decide (LocationData.user_id r = user_id)) eqn:B.
    + apply bool_decide_eq_true in B. cbn. rewrite Hid, B.
      now rewrite bool_decide_eq_false_2 by congruence.
    + cbn. destruct (bool_decide (LocationData.user_id r = other)); [done|].
      apply IH.
  - rewrite first_app. destruct (first _ (location_data d)); [done|].
    unfold first. cbn. rewrite Hid. cbn.
    now rewrite bool_decide_eq_false_2 by congruence.
Qed.


(** The loop of [_check_proximity] on a working socket: the frames it
    writes depend on the database alone. *)
Lemma proximity_notify_loop_frames user_id user_lat user_lng friendships w
    ws :
  active_connections (manager w) !! user_id = Some ws ->
  healthy (transport w) ws ->
  let w' :=
    proximity_notify_loop user_id user_lat user_lng friendships w in
  manager w' = manager w /\ database w' = database w /\
  failing (transport w') = failing (transport w) /\
  closed (transport w') = closed (transport w) /\
  outbox (transport w') ws =
    outbox (transport w) ws ++
    omap (nearby_frame (database w) user_id user_lat user_lng) friendships /\
  (forall ws', ws' ≠ ws ->
     outbox (transport w') ws' = outbox (transport w) ws').
Proof.
  cbv zeta. revert w.
  induction friendships as [|f rest IH]; intros w Hc Hh.
  - cbn. repeat split; try done. now rewrite app_nil_r.
  - assert (Hcons : forall g : Friend.t -> option Event,
              omap g (f :: rest) =
              match g f with
              | Some y => y :: omap g rest
              | None => omap g rest
              end) by reflexivity.
    rewrite Hcons. clear Hcons.
    cbn [proximity_notify_loop]. unfold nearby_frame at 1. cbv zeta.
    set (friend_id := if decide (Friend.user1_id f = user_id)
                      then Friend.user2_id f else Friend.user1_id f).
    destruct (query_location (database w) friend_id) as [row|];
      cbn [mbind option_bind]; [|now apply IH].
    destruct (calculate_distance_total user_lat user_lng
                (LocationData.latitude row) (LocationData.longitude row))
      as [distance Hd].
    rewrite Hd. cbn [mbind option_bind].
    destruct (Rleb distance ws_proximity_threshold); [|now apply IH].
    unfold _send_proximity_notification.
    destruct (query_user (database w) friend_id) as [friend|];
      cbn [mbind option_bind]; [|now apply IH].
    rewrite (send_to_user_healthy user_id ws) by done.
    set (frame := friend_nearby friend_id (User.name friend)
                    (py_round (distance * 1000))).
    set (w1 := with_transport _ w).
    destruct (IH w1) as (Hm & Hdb & Hf & Hcl & Hout & Hother); [done|done|].
    rewrite Hm, Hdb, Hf, Hcl, Hout.
    split; [done|]. split; [done|]. split; [done|]. split; [done|]. split.
    + unfold w1. cbn [transport with_transport database].
      rewrite outbox_after_send, decide_True by done.
      now rewrite <- app_assoc.
    + intros ws' Hne. rewrite Hother by done.
      unfold w1. cbn [transport with_transport].
      now rewrite outbox_after_send, decide_False.
Qed.

End FriendNearby.

(** ** Proximity: events of the service, frames of the handler *)

Section ProximityTriggers.
Variable geodesic_meters : R -> R -> R -> R -> option R.


End ProximityTriggers.


(** * Further properties *)

(** ** Geofences *)

Section Geofences.
Variable geodesic_meters : R -> R -> R -> R -> option R.
Implicit Types (s : LocationService).

Local Abbreviation center_distance location g :=
  (geodesic_meters (LocationPoint.latitude location)
     (LocationPoint.longitude location)
     (Geofence.center_lat g) (Geofence.center_lng g)).

Lemma geofence_events_for_app r l1 l2 :
  geofence_events_for r (l1 ++ l2) =
  geofence_events_for r l1 ++ geofence_events_for r l2.
Proof. unfold geofence_events_for. apply filter_app. Qed.

Lemma geofence_events_for_transition r now user_id location room_id was
    distance radius :
  geofence_events_for r
    (geofence_transition now user_id location room_id was distance radius) =
  if decide (room_id = r)
  then geofence_transition now user_id location room_id was distance radius
  else [].
Proof.
  unfold geofence_transition, geofence_events_for. cbv zeta.
  destruct (negb _); [|now destruct (decide _)].
  rewrite filter_cons. cbn [GeofenceEvent.room_id].
  destruct (decide (room_id = r)); done.
Qed.

Lemma geofence_loop_spec now user_id location fences status events :
  NoDup fences.*1 ->
  (forall r g, (r, g) ∈ fences -> Geofence.active g = true ->
     is_Some (center_distance location g)) ->
  exists new status',
    geofence_loop geodesic_meters now user_id location fences status events
      = (Some (events ++ new), status') /\
    (forall r g distance,
       (r, g) ∈ fences -> Geofence.active g = true ->
       center_distance location g = Some distance ->
       geofence_events_for r new =
         geofence_transition now user_id location r
           (default false (status !! (user_id, r))) distance
           (Geofence.radius_meters g) /\
       status' !! (user_id, r) =
         Some (Rleb distance (Geofence.radius_meters g))) /\
    (forall r g, (r, g) ∈ fences -> Geofence.active g = false ->
       geofence_events_for r new = [] /\
       status' !! (user_id, r) = status !! (user_id, r)) /\
    (forall r, r ∉ fences.*1 ->
       geofence_events_for r new = [] /\
       status' !! (user_id, r) = status !! (user_id, r)) /\
    (forall u r, u ≠ user_id -> status' !! (u, r) = status !! (u, r)).
Proof.
  revert status events.
  induction fences as [|[r0 g0] fences IH]; intros status events Hnd Htotal.
  - exists [], status. cbn. rewrite app_nil_r. split; [done|].
    split; [intros r g distance Hin; now apply elem_of_nil in Hin|].
    split; [intros r g Hin; now apply elem_of_nil in Hin|].
    split; done.
  - rewrite fmap_cons in Hnd. cbn [fst] in Hnd.
    apply NoDup_cons in Hnd as [Hfresh Hnd].
    assert (Hne : forall r g, (r, g) ∈ fences -> r ≠ r0).
    { intros r g Hin ->. apply Hfresh. apply list_elem_of_fmap.
      now exists (r0, g). }
    cbn [geofence_loop].
    destruct (Geofence.active g0) eqn:Hact; cbn [negb].
    + destruct (Htotal r0 g0) as [d0 Hd0]; [now left|done|].
      unfold _calculate_distance. rewrite Hd0. cbv zeta.
      set (was0 := default false (status !! (user_id, r0))).
      fold (geofence_transition now user_id location r0 was0 d0
              (Geofence.radius_meters g0)).
      set (tr := geofence_transition now user_id location r0 was0 d0
                   (Geofence.radius_meters g0)).
      destruct (IH (<[(user_id, r0) :=
                        Rleb d0 (Geofence.radius_meters g0)]> status)
                  (events ++ tr) Hnd)
        as (new & status' & Hloop & Hact' & Hinact & Hrest & Hother).
      { intros r g Hin. apply (Htotal r). now right. }
      exists (tr ++ new), status'. subst tr.
      split; [|split; [|split; [|split]]].
      * rewrite app_assoc, <- Hloop. unfold geofence_transition.
        cbv zeta. destruct (negb _); [done|]. now rewrite app_nil_r.
      * intros r g distance Hin Hg Hd.
        rewrite geofence_events_for_app, geofence_events_for_transition.
        apply elem_of_cons in Hin as [[= -> ->]|Hin].
        -- assert (distance = d0) as -> by congruence.
           rewrite decide_True by done.
           destruct (Hrest r0 Hfresh) as [-> ->].
           rewrite app_nil_r, lookup_insert_eq. done.
        -- rewrite decide_False by (intros ->; now apply (Hne r g)).
           cbn [app]. destruct (Hact' r g distance Hin Hg Hd) as [-> ->].
           split; [|done]. rewrite lookup_insert_ne; [done|].
           intros [= E]. now apply (Hne r g).
      * intros r g Hin Hg.
        rewrite geofence_events_for_app, geofence_events_for_transition.
        apply elem_of_cons in Hin as [[= -> ->]|Hin]; [congruence|].
        rewrite decide_False by (intros ->; now apply (Hne r g)).
        cbn [app]. destruct (Hinact r g Hin Hg) as [-> ->].
        split; [done|]. rewrite lookup_insert_ne; [done|].
        intros [= E]. now apply (Hne r g).
      * intros r Hr. rewrite fmap_cons in Hr. cbn [fst] in Hr.
        apply not_elem_of_cons in Hr as [Hr0 Hr].
        rewrite geofence_events_for_app, geofence_events_for_transition.
        rewrite decide_False by done. cbn [app].
        destruct (Hrest r Hr) as [-> ->]. split; [done|].
        rewrite lookup_insert_ne; [done|]. intros [= E]. done.
      * intros u r Hu. rewrite Hother by done.
        rewrite lookup_insert_ne; [done|]. intros [= E]. done.
    + destruct (IH status events Hnd)
        as (new & status' & Hloop & Hact' & Hinact & Hrest & Hother).
      { intros r g Hin. apply (Htotal r). now right. }
      exists new, status'. split; [done|]. split; [|split; [|split]].
      * intros r g distance Hin Hg Hd.
        apply elem_of_cons in Hin as [[= -> ->]|Hin]; [congruence|].
        now apply Hact'.
      * intros r g Hin Hg.
        apply elem_of_cons in Hin as [[= -> ->]|Hin];
          [|now apply (Hinact r g)].
        now apply Hrest.
      * intros r Hr. rewrite fmap_cons in Hr.
        apply not_elem_of_cons in Hr as [_ Hr]. now apply Hrest.
      * done.
Qed.

Lemma check_geofences_spec now user_id location s :
  (forall r g, active_geofences s !! r = Some g ->
     Geofence.active g = true -> is_Some (center_distance location g)) ->
  let res := _check_geofences geodesic_meters now user_id location s in
  (forall r g distance,
     active_geofences s !! r = Some g -> Geofence.active g = true ->
     center_distance location g = Some distance ->
     geofence_events_for r res.1 =
       geofence_transition now user_id location r
         (default false (user_geofence_status s !! (user_id, r))) distance
         (Geofence.radius_meters g) /\
     user_geofence_status res.2 !! (user_id, r) =
       Some (Rleb distance (Geofence.radius_meters g))) /\
  (forall r,
     (forall g, active_geofences s !! r = Some g ->
                Geofence.active g = false) ->
     geofence_events_for r res.1 = [] /\
     user_geofence_status res.2 !! (user_id, r) =
       user_geofence_status s !! (user_id, r)) /\
  (forall u r, u ≠ user_id ->
     user_geofence_status res.2 !! (u, r) =
       user_geofence_status s !! (u, r)) /\
  active_geofences res.2 = active_geofences s /\
  proximity_cache res.2 = proximity_cache s.
Proof.
  intros Htotal res.
  destruct (geofence_loop_spec now user_id location
              (map_to_list (active_geofences s)) (user_geofence_status s) [])
    as (new & status' & Hloop & Hact & Hinact & Hrest & Hother).
  { apply NoDup_fst_map_to_list. }
  { intros r g Hin. apply (Htotal r). now apply elem_of_map_to_list. }
  assert (Hres : res = (new, with_user_geofence_status (fun _ => status') s)).
  { unfold res, _check_geofences. now rewrite Hloop. }
  rewrite Hres. cbn [fst snd user_geofence_status with_user_geofence_status
                     active_geofences proximity_cache].
  split; [|split; [|split; [|split]]]; try done.
  - intros r g distance Hg Ha Hd. apply (Hact r g); try done.
    now apply elem_of_map_to_list.
  - intros r Hr. destruct (active_geofences s !! r) as [g|] eqn:E.
    + apply (Hinact r g); [now apply elem_of_map_to_list|now apply Hr].
    + apply Hrest. intros Hin.
      apply list_elem_of_fmap in Hin as ([r' g] & -> & Hin).
      apply elem_of_map_to_list in Hin. cbn in E. congruence.
Qed.

(** X1.  Geofence events are edge-triggered.  For every active geofence,
    one update yields an event about it exactly when "distance to the
    centre <= radius" differs from the status recorded for the user and
    the room (no record counts as outside), [entered] when the user is
    now inside and [exited] otherwise, and never more than one; the new
    containment is recorded.  Rooms without an active geofence and the
    statuses of other users are left alone. *)
Theorem geofence_edge_triggered now user_id location s :
  (forall r g, active_geofences s !! r = Some g ->
     Geofence.active g = true -> is_Some (center_distance location g)) ->
  let res := _check_geofences geodesic_meters now user_id location s in
  (forall r g distance,
     active_geofences s !! r = Some g -> Geofence.active g = true ->
     center_distance location g = Some distance ->
     let was_inside :=
       default false (user_geofence_status s !! (user_id, r)) in
     let is_inside := Rleb distance (Geofence.radius_meters g) in
     (was_inside = is_inside -> geofence_events_for r res.1 = []) /\
     (was_inside ≠ is_inside ->
      geofence_events_for r res.1 =
        [GeofenceEvent.mk user_id r
           (if is_inside then "entered" else "exited")%string now location
           distance]) /\
     user_geofence_status res.2 !! (user_id, r) = Some is_inside) /\
  (forall r,
     (forall g, active_geofences s !! r = Some g ->
                Geofence.active g = false) ->
     geofence_events_for r res.1 = [] /\
     user_geofence_status res.2 !! (user_id, r) =
       user_geofence_status s !! (user_id, r)) /\
  (forall u r, u ≠ user_id ->
     user_geofence_status res.2 !! (u, r) =
       user_geofence_status s !! (u, r)).
Proof.
  intros Htotal res.
  destruct (check_geofences_spec now user_id location s Htotal)
    as (Hact & Hinact & Hother & _).
  fold res in Hact, Hinact, Hother.
  split; [|split; [done|done]].
  intros r g distance Hg Ha Hd was_inside is_inside.
  destruct (Hact r g distance Hg Ha Hd) as [Hev Hst].
  rewrite Hev. unfold geofence_transition. cbv zeta.
  fold was_inside is_inside. split; [|split; [|done]].
  - intros ->. now destruct is_inside.
  - intros Hne. destruct was_inside, is_inside; done.
Qed.

Lemma remove_geofence_spec room_id s g :
  active_geofences s !! room_id = Some g ->
  let s' := remove_geofence room_id s in
  active_geofences s' = delete room_id (active_geofences s) /\
  (forall u, user_geofence_status s' !! (u, room_id) = None) /\
  (forall u r, r ≠ room_id ->
     user_geofence_status s' !! (u, r) = user_geofence_status s !! (u, r)) /\
  proximity_cache s' = proximity_cache s.
Proof.
  intros Hg s'. unfold s', remove_geofence. rewrite Hg. cbn.
  split; [done|]. split; [|split; [|done]].
  - intros u. apply map_lookup_filter_None. right. intros x _ Hne.
    now apply Hne.
  - intros u r Hr.
    destruct (user_geofence_status s !! (u, r)) as [b|] eqn:E.
    + apply map_lookup_filter_Some. split; [done|]. now cbn.
    + apply map_lookup_filter_None. now left.
Qed.

(** X2.  Removing a geofence forgets every user's status for that room
    and keeps the statuses recorded for other rooms; removing a room
    that has no geofence changes nothing.  Hence a user recorded as inside gets a fresh [entered]
    event when the geofence is removed and created again, whereas
    [create_geofence] over the existing geofence keeps the record and
    yields no event. *)
Theorem remove_geofence_forgets now user_id location s room_id g
    center_lat center_lng radius_meters room_name distance :
  active_geofences s !! room_id = Some g ->
  user_geofence_status s !! (user_id, room_id) = Some true ->
  (forall r g', r ≠ room_id -> active_geofences s !! r = Some g' ->
     Geofence.active g' = true -> is_Some (center_distance location g')) ->
  geodesic_meters (LocationPoint.latitude location)
    (LocationPoint.longitude location) center_lat center_lng
    = Some distance ->
  (distance <= radius_meters)%R ->
  let removed := remove_geofence room_id s in
  let recreated :=
    create_geofence now room_id center_lat center_lng radius_meters
      room_name removed in
  let replaced :=
    create_geofence now room_id center_lat center_lng radius_meters
      room_name s in
  active_geofences removed !! room_id = None /\
  (forall u, user_geofence_status removed !! (u, room_id) = None) /\
  (forall u r, r ≠ room_id ->
     user_geofence_status removed !! (u, r) =
       user_geofence_status s !! (u, r)) /\
  remove_geofence room_id removed = removed /\
  geofence_events_for room_id
    (_check_geofences geodesic_meters now user_id location recreated).1 =
    [GeofenceEvent.mk user_id room_id "entered" now location distance] /\
  geofence_events_for room_id
    (_check_geofences geodesic_meters now user_id location replaced).1 = [].
Proof.
  intros Hg Hin Htotal Hd Hle removed recreated replaced.
  destruct (remove_geofence_spec room_id s g Hg)
    as (Hfences & Hgone & Hkept & _).
  fold removed in Hfences, Hgone, Hkept.
  assert (Habsent : active_geofences removed !! room_id = None)
    by (rewrite Hfences; apply lookup_delete_eq).
  set (g1 := Geofence.mk room_id center_lat center_lng radius_meters
               room_name now true).
  assert (Hinside : Rleb distance (Geofence.radius_meters g1) = true)
    by now apply Rleb_true.
  split; [done|]. split; [done|]. split; [done|]. split; [|split].
  - unfold remove_geofence at 1. now rewrite Habsent.
  - destruct (check_geofences_spec now user_id location recreated)
      as (Hact & _).
    { intros r g' Hr Ha. unfold recreated, create_geofence in Hr. cbn in Hr.
      destruct (decide (r = room_id)) as [->|Hne].
      - rewrite lookup_insert_eq in Hr. injection Hr as <-. cbn. eauto.
      - rewrite lookup_insert_ne in Hr by done. rewrite Hfences in Hr.
        rewrite lookup_delete_ne in Hr by done. now apply (Htotal r). }
    destruct (Hact room_id g1 distance) as [-> _]; try done.
    { unfold recreated, create_geofence. cbn. apply lookup_insert_eq. }
    unfold recreated, create_geofence. cbn [user_geofence_status
      with_active_geofences]. rewrite Hgone. cbn [default from_option].
    unfold geofence_transition. cbv zeta. now rewrite Hinside.
  - destruct (check_geofences_spec now user_id location replaced)
      as (Hact & _).
    { intros r g' Hr Ha. unfold replaced, create_geofence in Hr. cbn in Hr.
      destruct (decide (r = room_id)) as [->|Hne].
      - rewrite lookup_insert_eq in Hr. injection Hr as <-. cbn. eauto.
      - rewrite lookup_insert_ne in Hr by done. now apply (Htotal r). }
    destruct (Hact room_id g1 distance) as [-> _]; try done.
    { unfold replaced, create_geofence. cbn. apply lookup_insert_eq. }
    unfold replaced, create_geofence. cbn [user_geofence_status
      with_active_geofences]. rewrite Hin. cbn [default from_option].
    unfold geofence_transition. cbv zeta. now rewrite Hinside.
Qed.

End Geofences.

(** X1, witness: centre at the origin, radius 50 m; a user 39 m away
    with no recorded status enters. *)
Lemma geofence_edge_triggered_witness :
  exists distance,
    geofence_events_for 7
      (_check_geofences flat_meters 1 1 (point_at 39 1) fenced_service).1 =
      [GeofenceEvent.mk 1 7 "entered" 1 (point_at 39 1) distance] /\
    (distance <= 50)%R.
Proof.
  exists (Rabs (0 - 39) + Rabs (0 - 0))%R.
  assert (Hd : (Rabs (0 - 39) + Rabs (0 - 0) = 39)%R)
    by (apply flat_distance_to_origin; lra).
  split; [|lra].
  destruct (geofence_edge_triggered flat_meters 1 1 (point_at 39 1)
              fenced_service) as (H & _).
  { intros r g _ _. unfold flat_meters. eauto. }
  destruct (H 7 (Geofence.mk 7 0 0 50 None 0 true)
              (Rabs (0 - 39) + Rabs (0 - 0))%R) as (_ & Hev & _).
  - unfold fenced_service, create_geofence. cbn. apply lookup_insert_eq.
  - reflexivity.
  - reflexivity.
  - cbv zeta in Hev. rewrite Hev.
    + cbn [Geofence.radius_meters]. now rewrite Rleb_true by lra.
    + cbn [Geofence.radius_meters]. rewrite Rleb_true by lra.
      unfold fenced_service, create_geofence. cbn. now rewrite lookup_empty.
Defined.

(** X2, witness: user 1 is recorded inside the fence of room 7 and stands
    39 m from the centre; after remove and create the next update reports
    [entered] again. *)
Lemma remove_geofence_forgets_witness :
  exists distance,
    geofence_events_for 7
      (_check_geofences flat_meters 1 1 (point_at 39 1)
         (create_geofence 1 7 0 0 50 None
            (remove_geofence 7 inside_service))).1 =
      [GeofenceEvent.mk 1 7 "entered" 1 (point_at 39 1) distance] /\
    geofence_events_for 7
      (_check_geofences flat_meters 1 1 (point_at 39 1)
         (create_geofence 1 7 0 0 50 None inside_service)).1 = [].
Proof.
  exists (Rabs (0 - 39) + Rabs (0 - 0))%R.
  destruct (remove_geofence_forgets flat_meters 1 1 (point_at 39 1)
              inside_service 7 (Geofence.mk 7 0 0 50 None 0 true)
              0%R 0%R 50%R None (Rabs (0 - 39) + Rabs (0 - 0))%R)
    as (_ & _ & _ & _ & H1 & H2).
  - unfold inside_service, fenced_service, create_geofence. cbn.
    apply lookup_insert_eq.
  - unfold inside_service. cbn. apply lookup_singleton_eq.
  - intros r g' _ _ _. unfold flat_meters. eauto.
  - reflexivity.
  - rewrite flat_distance_to_origin; lra.
  - split; [exact H1|exact H2].
Defined.

(** ** What one location update stores *)

Section UpdateStores.
Variable geodesic_meters : R -> R -> R -> R -> option R.
Implicit Types (d : Database) (s : LocationService).

Lemma proximity_loop_keeps_keys now user_id location rows cache events k :
  is_Some (cache !! k) ->
  is_Some ((proximity_loop geodesic_meters now user_id location rows cache
              events).2 !! k).
Proof.
  revert cache events. induction rows as [|row rows IH]; intros cache events H.
  - done.
  - cbn [proximity_loop].
    destruct (_calculate_distance _ _ _ _ _) as [distance|]; [|done].
    cbv zeta. apply IH.
    destruct (decide (cache_key user_id (LocationData.user_id row) = k))
      as [<-|Hne].
    + rewrite lookup_insert_eq. eauto.
    + now rewrite lookup_insert_ne.
Qed.

(** The fields of the service and of the result after one update. *)
Lemma update_user_location_fields now user_id latitude longitude
    accuracy altitude speed heading d s :
  let location :=
    LocationPoint.mk latitude longitude
      (Some (default 10%R (truthy_float accuracy))) now altitude speed
      heading in
  let s1 := _update_movement_history user_id location s in
  let state := _detect_movement_state geodesic_meters user_id s1 in
  let res :=
    update_user_location geodesic_meters now user_id latitude longitude
      accuracy altitude speed heading d s in
  user_movement_history res.2 = user_movement_history s1 /\
  movement_states res.2 = <[user_id := state]> (movement_states s) /\
  last_proximity_check res.2 = last_proximity_check s /\
  active_geofences res.2 = active_geofences s /\
  movement_state res.1.1 = state /\
  recommended_update_interval res.1.1 = update_intervals state /\
  res.1.2 = _update_location_in_db user_id location d /\
  (forall k, is_Some (proximity_cache s !! k) ->
             is_Some (proximity_cache res.2 !! k)).
Proof.
  cbv zeta. unfold update_user_location. cbv zeta.
  unfold _check_user_proximity.
  match goal with
  | |- context [proximity_loop geodesic_meters now user_id ?loc ?rows ?c ?e] =>
      pose proof (fun k =>
        proximity_loop_keeps_keys now user_id loc rows c e k) as Hkeys;
      destruct (proximity_loop geodesic_meters now user_id loc rows c e)
        as [result cache]
  end.
  unfold _check_geofences.
  destruct (geofence_loop _ _ _ _ _ _ _) as [gres status].
  cbn. cbn in Hkeys. repeat split; done.
Qed.

Lemma last_n_all {A} n (l : list A) :
  (length l <= n)%nat -> last_n n l = l.
Proof.
  intros H. unfold last_n.
  replace (length l - n)%nat with 0%nat by lia. done.
Qed.

Lemma last_n_suffix {A} n (l : list A) : last_n n l `suffix_of` l.
Proof. unfold last_n. apply suffix_drop. Qed.

Lemma last_n_last {A} n (l : list A) x :
  (0 < n)%nat -> last (last_n n (l ++ [x])) = Some x.
Proof.
  intros Hn. unfold last_n. rewrite length_app. cbn [length].
  destruct (decide (length l + 1 - n <= length l)%nat) as [Hle|Hgt]; [|lia].
  rewrite drop_app_le by done. apply last_snoc.
Qed.

(** X3.  After an update the user's movement history ends with the new
    sample and holds at most 100 samples: it is the old history with the
    new sample appended, cut down to its last 100 entries.  The
    histories of other users are untouched. *)
Theorem movement_history_is_bounded now user_id latitude longitude
    accuracy altitude speed heading d s :
  let location :=
    LocationPoint.mk latitude longitude
      (Some (default 10%R (truthy_float accuracy))) now altitude speed
      heading in
  let old := default [] (user_movement_history s !! user_id) in
  let res :=
    update_user_location geodesic_meters now user_id latitude longitude
      accuracy altitude speed heading d s in
  (exists history,
     user_movement_history res.2 !! user_id = Some history /\
     history = last_n 100 (old ++ [location]) /\
     last history = Some location /\
     length history = Nat.min 100 (length old + 1) /\
     ((length old < 100)%nat -> history = old ++ [location])) /\
  (forall other, other ≠ user_id ->
     user_movement_history res.2 !! other =
       user_movement_history s !! other).
Proof.
  intros location old res.
  destruct (update_user_location_fields now user_id latitude longitude
              accuracy altitude speed heading d s) as (Hh & _).
  fold location res in Hh. rewrite Hh.
  unfold _update_movement_history. cbv zeta. fold old.
  cbn [user_movement_history with_user_movement_history].
  split.
  - exists (last_n 100 (old ++ [location])).
    rewrite lookup_insert_eq.
    assert (Hkept : (if (100 <? length (old ++ [location]))%nat
                     then last_n 100 (old ++ [location])
                     else old ++ [location])
                    = last_n 100 (old ++ [location])).
    { destruct (100 <? length (old ++ [location]))%nat eqn:E; [done|].
      apply Nat.ltb_ge in E. now rewrite last_n_all. }
    rewrite Hkept. split; [done|]. split; [done|]. split; [|split].
    + apply last_n_last. lia.
    + rewrite last_n_length, length_app. cbn. lia.
    + intros Hlt. apply last_n_all. rewrite length_app. cbn. lia.
  - intros other Hne. now rewrite lookup_insert_ne.
Qed.

(** X4.  An update stores under the user the movement state it returns
    and recommends the polling interval of that state (60, 15, 5 or 30
    seconds); the first update of a user without history returns Unknown
    and 30 seconds, whatever the coordinates. *)
Theorem update_reports_stored_state now user_id latitude longitude
    accuracy altitude speed heading d s :
  let res :=
    update_user_location geodesic_meters now user_id latitude longitude
      accuracy altitude speed heading d s in
  movement_states res.2 !! user_id = Some (movement_state res.1.1) /\
  recommended_update_interval res.1.1 =
    update_intervals (movement_state res.1.1) /\
  (forall other, other ≠ user_id ->
     movement_states res.2 !! other = movement_states s !! other) /\
  (default [] (user_movement_history s !! user_id) = [] ->
   movement_state res.1.1 = UNKNOWN /\
   recommended_update_interval res.1.1 = 30).
Proof.
  intros res.
  destruct (update_user_location_fields now user_id latitude longitude
              accuracy altitude speed heading d s)
    as (_ & Hst & _ & _ & Hms & Hint & _).
  fold res in Hst, Hms, Hint. rewrite Hst, Hint, Hms.
  split; [apply lookup_insert_eq|]. split; [done|]. split.
  - intros other Hne. now rewrite lookup_insert_ne.
  - intros Hempty.
    assert (Hu : _detect_movement_state geodesic_meters user_id
                   (_update_movement_history user_id
                      (LocationPoint.mk latitude longitude
                         (Some (default 10%R (truthy_float accuracy))) now
                         altitude speed heading) s) = UNKNOWN).
    { unfold _detect_movement_state, _update_movement_history. cbv zeta.
      rewrite Hempty.
      cbn [user_movement_history with_user_movement_history app length
           Nat.ltb Nat.leb].
      rewrite lookup_insert_eq. reflexivity. }
    rewrite Hu. done.
Qed.

Lemma proximity_sweep_idle current_time s :
  last_proximity_check s = ∅ -> proximity_sweep current_time s = s.
Proof.
  intros H. unfold proximity_sweep. rewrite H.
  rewrite map_filter_empty, map_to_list_empty. done.
Qed.

Lemma update_all_snoc calls c d s :
  update_all geodesic_meters (calls ++ [c]) d s =
  let ds := update_all geodesic_meters calls d s in
  let res :=
    update_user_location geodesic_meters (call_now c) (call_user_id c)
      (call_latitude c) (call_longitude c) (call_accuracy c)
      (call_altitude c) (call_speed c) (call_heading c) ds.1 ds.2 in
  (res.1.2, res.2).
Proof. unfold update_all. now rewrite foldl_app. Qed.

(** X5.  The proximity cache is never purged.  No update writes
    [last_proximity_check], so from process start the periodic sweep of
    the monitoring loop finds nobody to remove and leaves the service as
    it is, and a pair that has been cached stays cached through every
    later update. *)
Theorem proximity_cache_is_never_purged calls d current_time :
  let s := (update_all geodesic_meters calls d LocationService_init).2 in
  last_proximity_check s = ∅ /\
  proximity_sweep current_time s = s /\
  (forall more key,
     is_Some (proximity_cache s !! key) ->
     is_Some (proximity_cache
                (update_all geodesic_meters more
                   (update_all geodesic_meters calls d
                      LocationService_init).1 s).2 !! key)).
Proof.
  assert (Hcheck : forall calls d s,
            last_proximity_check (update_all geodesic_meters calls d s).2
            = last_proximity_check s).
  { clear. intros calls. induction calls as [|c calls IH] using rev_ind;
      intros d s; [done|].
    rewrite update_all_snoc. cbv zeta. cbn [snd].
    destruct (update_user_location_fields (call_now c) (call_user_id c)
                (call_latitude c) (call_longitude c) (call_accuracy c)
                (call_altitude c) (call_speed c) (call_heading c)
                (update_all geodesic_meters calls d s).1
                (update_all geodesic_meters calls d s).2)
      as (_ & _ & -> & _).
    apply IH. }
  assert (Hkeys : forall more d s key,
            is_Some (proximity_cache s !! key) ->
            is_Some (proximity_cache
                       (update_all geodesic_meters more d s).2 !! key)).
  { clear. intros more. induction more as [|c more IH] using rev_ind;
      intros d s key H; [done|].
    rewrite update_all_snoc. cbv zeta. cbn [snd].
    destruct (update_user_location_fields (call_now c) (call_user_id c)
                (call_latitude c) (call_longitude c) (call_accuracy c)
                (call_altitude c) (call_speed c) (call_heading c)
                (update_all geodesic_meters more d s).1
                (update_all geodesic_meters more d s).2)
      as (_ & _ & _ & _ & _ & _ & _ & Hk).
    apply Hk. now apply IH. }
  intros s.
  assert (Hempty : last_proximity_check s = ∅)
    by (unfold s; now rewrite Hcheck).
  split; [done|]. split; [now apply proximity_sweep_idle|].
  intros more key. apply Hkeys.
Qed.

End UpdateStores.

(** ** More on the proximity cache *)

Section PairCache.
Variable geodesic_meters : R -> R -> R -> R -> option R.
Implicit Types (d : Database) (s : LocationService).

Lemma first_update_first {A} (p : A -> bool) (f : A -> A) rows x :
  (forall r, p (f r) = p r) ->
  first p rows = Some x -> first p (update_first p f rows) = Some (f x).
Proof.
  intros Hp. unfold first. induction rows as [|r rows IH]; [done|]. cbn.
  destruct (p r) eqn:E.
  - intros [= ->]. cbn. now rewrite Hp, E.
  - intros H. cbn. rewrite E. now apply IH.
Qed.


(** X6.  Writing a location and reading it back.  After
    [_update_location_in_db] the user's row carries the coordinates,
    accuracy, altitude, speed, heading and time of the sample and expires
    24 hours later; a user without a row gets one, appended to the
    table; every other user reads the same row as before, and user ids
    stay unique. *)
Theorem location_write_read user_id location d :
  let d' := _update_location_in_db user_id location d in
  (exists row,
     query_location d' user_id = Some row /\
     LocationData.user_id row = user_id /\
     LocationData.latitude row = LocationPoint.latitude location /\
     LocationData.longitude row = LocationPoint.longitude location /\
     LocationData.accuracy row = LocationPoint.accuracy location /\
     LocationData.altitude row = LocationPoint.altitude location /\
     LocationData.speed row = LocationPoint.speed location /\
     LocationData.heading row = LocationPoint.heading location /\
     LocationData.updated_at row = LocationPoint.timestamp location /\
     LocationData.expires_at row =
       LocationPoint.timestamp location + 24 * 3600 * 1000000) /\
  (forall other, other ≠ user_id ->
     query_location d' other = query_location d other) /\
  length (location_data d') =
    match query_location d user_id with
    | Some _ => length (location_data d)
    | None => S (length (location_data d))
    end /\
  (unique_locations d -> unique_locations d').
Proof.
  intros d'. split; [|split; [|split]].
  - unfold d', _update_location_in_db, upsert_location.
    destruct (query_location d user_id) as [row|] eqn:E.
    + apply first_Some in E as Hrow. destruct Hrow as [Hid _].
      apply bool_decide_eq_true in Hid.
      unfold query_location in *. cbn [location_data with_location_data].
      erewrite first_update_first; [|done|exact E].
      eexists. split; [reflexivity|]. cbn. repeat split; done.
    + unfold query_location in *. cbn [location_data with_location_data].
      rewrite first_app, E. unfold first. cbn.
      rewrite bool_decide_eq_true_2 by done.
      eexists. split; [reflexivity|]. cbn. repeat split; done.
  - intros other Hne. unfold d', _update_location_in_db.
    now apply upsert_location_other.
  - unfold d', _update_location_in_db, upsert_location.
    destruct (query_location d user_id); cbn.
    + clear. induction (location_data d) as [|r rows IH]; [done|]. cbn.
      destruct (bool_decide _); cbn; [done|]. now rewrite IH.
    + rewrite length_app. cbn. lia.
  - apply update_location_in_db_unique.
Qed.




End PairCache.

(** X6, witness: user 1, who has no row yet, is written into the
    database of the two friends; ids stay unique. *)
Lemma location_write_read_witness :
  unique_locations
    (_update_location_in_db 1 (point_at 50 1) friends_database) /\
  length (location_data
            (_update_location_in_db 1 (point_at 50 1) friends_database))
    = 2%nat.
Proof.
  destruct (location_write_read 1 (point_at 50 1) friends_database)
    as (_ & _ & Hlen & Hu).
  split.
  - apply Hu. unfold unique_locations. cbn. apply NoDup_singleton.
  - rewrite Hlen. reflexivity.
Defined.


(** ** A failing distance computation *)

Section DistanceRaises.
Variable geodesic_meters : R -> R -> R -> R -> option R.
Implicit Types (d : Database) (s : LocationService).

Local Abbreviation distance_to location row :=
  (geodesic_meters (LocationPoint.latitude location)
     (LocationPoint.longitude location)
     (LocationData.latitude row) (LocationData.longitude row)).

Lemma proximity_loop_app now user_id location pre rest cache events :
  proximity_loop geodesic_meters now user_id location (pre ++ rest) cache
    events =
  match proximity_loop geodesic_meters now user_id location pre cache
          events with
  | (Some events', cache') =>
      proximity_loop geodesic_meters now user_id location rest cache'
        events'
  | (None, cache') => (None, cache')
  end.
Proof.
  revert cache events. induction pre as [|row pre IH]; intros cache events.
  - done.
  - cbn [app proximity_loop].
    destruct (_calculate_distance _ _ _ _ _); [|done]. cbv zeta. apply IH.
Qed.

Lemma update_user_location_proximity now user_id latitude longitude
    accuracy altitude speed heading d s :
  let location :=
    LocationPoint.mk latitude longitude
      (Some (default 10%R (truthy_float accuracy))) now altitude speed
      heading in
  let res :=
    update_user_location geodesic_meters now user_id latitude longitude
      accuracy altitude speed heading d s in
  let loop :=
    proximity_loop geodesic_meters now user_id location
      (friend_locations d user_id) (proximity_cache s) [] in
  proximity_events res.1.1 = default [] loop.1 /\
  proximity_cache res.2 = loop.2.
Proof.
  cbv zeta. unfold update_user_location. cbv zeta.
  unfold _check_user_proximity. rewrite update_location_in_db_friends.
  cbn [proximity_cache with_movement_states _update_movement_history
       with_user_movement_history].
  destruct (proximity_loop _ _ _ _ _ _ _) as [result cache].
  unfold _check_geofences.
  destruct (geofence_loop _ _ _ _ _ _ _) as [gres status]. now cbn.
Qed.

(** X8.  When the distance computation raises for one friend, the update
    reports no proximity event at all, not even about the friends that
    were handled before the failure, although their new distances have
    already been written to the cache; the entries of the failing friend
    and of the friends after it are left as they were. *)
Theorem proximity_events_lost_on_error now user_id latitude longitude
    accuracy altitude speed heading d s pre bad post :
  friend_locations d user_id = pre ++ bad :: post ->
  unique_locations d ->
  (forall row, row ∈ pre ->
     is_Some (geodesic_meters latitude longitude
                (LocationData.latitude row) (LocationData.longitude row))) ->
  geodesic_meters latitude longitude
    (LocationData.latitude bad) (LocationData.longitude bad) = None ->
  let res :=
    update_user_location geodesic_meters now user_id latitude longitude
      accuracy altitude speed heading d s in
  proximity_events res.1.1 = [] /\
  (forall row distance,
     row ∈ pre ->
     geodesic_meters latitude longitude
       (LocationData.latitude row) (LocationData.longitude row)
       = Some distance ->
     proximity_cache res.2 !! cache_key user_id (LocationData.user_id row)
       = Some distance) /\
  (forall row,
     row ∈ bad :: post ->
     proximity_cache res.2 !! cache_key user_id (LocationData.user_id row)
       = proximity_cache s !! cache_key user_id (LocationData.user_id row)).
Proof.
  intros Hrows Hnd Hpre Hbad res.
  destruct (update_user_location_proximity now user_id latitude longitude
              accuracy altitude speed heading d s) as [Hev Hcache].
  fold res in Hev, Hcache. rewrite Hev, Hcache.
  set (location := LocationPoint.mk latitude longitude
                     (Some (default 10%R (truthy_float accuracy))) now
                     altitude speed heading).
  pose proof (friend_locations_unique d user_id Hnd) as Hids.
  rewrite Hrows in Hids. rewrite fmap_app in Hids.
  apply NoDup_app in Hids as (Hpre_nd & Hdisj & _).
  destruct (proximity_loop_spec geodesic_meters now user_id location pre
              (proximity_cache s) []) as (new & cache' & Hloop & Hin & Hout);
    [done|done|].
  rewrite Hrows, proximity_loop_app, Hloop.
  cbn [proximity_loop]. unfold _calculate_distance.
  cbn [LocationPoint.latitude LocationPoint.longitude location].
  rewrite Hbad. cbn [fst snd default from_option].
  split; [done|]. split.
  - intros row distance Hrow Hd. now apply (Hin row distance).
  - intros row Hrow. apply Hout. intros Hmem. apply (Hdisj _ Hmem).
    apply list_elem_of_fmap. eauto.
Qed.

End DistanceRaises.

(** X8, witness: friend 2 stands 50 m away, the row of friend 3 makes the
    distance computation raise; the update of user 1 reports nothing,
    yet the cache now holds 50 m for the pair (1, 2). *)
Lemma proximity_events_lost_on_error_witness :
  let res :=
    update_user_location checked_meters 1 1 50 0 None None None None
      broken_friend_database apart_service in
  proximity_events res.1.1 = [] /\
  exists distance,
    proximity_cache res.2 !! cache_key 1 2 = Some distance /\
    (distance <= 100)%R.
Proof.
  cbv zeta.
  assert (Hok : checked_meters 50 0 0 0
                = Some (Rabs (0 - 50) + Rabs (0 - 0))%R).
  { unfold checked_meters. rewrite Rabs_R0.
    destruct (Rlt_dec 90 0) as [H|_]; [lra|]. reflexivity. }
  destruct (proximity_events_lost_on_error checked_meters 1 1 50%R 0%R
              None None None None broken_friend_database apart_service
              [LocationData.mk 2 0 0 None None None None 0 0]
              (LocationData.mk 3 500 0 None None None None 0 0) [])
    as (Hev & Hcache & _).
  - reflexivity.
  - unfold unique_locations. cbn. apply NoDup_cons. split.
    + intros H. apply list_elem_of_singleton in H. done.
    + apply NoDup_singleton.
  - intros row Hrow. apply list_elem_of_singleton in Hrow. subst row.
    cbn. rewrite Hok. eauto.
  - cbn. unfold checked_meters. rewrite (Rabs_pos_eq 500) by lra.
    destruct (Rlt_dec 90 500) as [_|H]; [done|lra].
  - split; [exact Hev|].
    exists (Rabs (0 - 50) + Rabs (0 - 0))%R. split.
    + apply (Hcache (LocationData.mk 2 0 0 None None None None 0 0));
        [now left|exact Hok].
    + rewrite flat_distance_to_origin; lra.
Defined.

(** ** Distances and boundaries *)

Section Boundaries.
Import GeoMath.
Local Open Scope R_scope.

Lemma atan_nonneg x : 0 <= x -> 0 <= atan x.
Proof.
  intros [H|<-].
  - left. rewrite <- atan_0. now apply atan_increasing.
  - rewrite atan_0. lra.
Qed.

Lemma atan2_first_quadrant y x :
  0 <= y -> 0 <= x -> 0 <= atan2 y x <= PI / 2.
Proof.
  intros Hy Hx. unfold atan2. pose proof PI_RGT_0 as Hpi.
  destruct (Rlt_dec 0 x) as [Hpos|Hnpos].
  - split.
    + apply atan_nonneg. apply Rle_mult_inv_pos; done.
    + left. apply atan_bound.
  - destruct (Rlt_dec x 0); [lra|].
    destruct (Rlt_dec 0 y); [lra|].
    destruct (Rlt_dec y 0); lra.
Qed.

Lemma central_angle_bounds a c :
  central_angle a = Some c -> 0 <= c <= PI.
Proof.
  unfold central_angle, math_sqrt.
  destruct (Rlt_dec a 0); [done|].
  destruct (Rlt_dec (1 - a) 0); [done|]. intros [= <-].
  pose proof (atan2_first_quadrant (sqrt a) (sqrt (1 - a))
                (sqrt_pos _) (sqrt_pos _)).
  lra.
Qed.

(** X9.  When [calculate_distance_between_points] raises and what it
    returns.  The central angle is undefined exactly when the haversine
    term lies outside [0, 1], where one of the two square roots has a
    negative argument, and the function raises exactly then.  Whenever
    it returns, the central angle lies between 0 and pi, so the distance
    is never negative and never exceeds half the circumference of the
    sphere, 6371 * pi kilometres. *)
Theorem distance_error_and_bounds :
  (forall a, central_angle a = None <-> a < 0 \/ 1 < a) /\
  (forall a c, central_angle a = Some c -> 0 <= a <= 1 /\ 0 <= c <= PI) /\
  (forall lat1 lng1 lat2 lng2,
     calculate_distance_between_points lat1 lng1 lat2 lng2 = None <->
     haversine_a lat1 lng1 lat2 lng2 < 0 \/
     1 < haversine_a lat1 lng1 lat2 lng2) /\
  (forall lat1 lng1 lat2 lng2 distance,
     calculate_distance_between_points lat1 lng1 lat2 lng2 = Some distance ->
     0 <= distance <= 6371 * PI).
Proof.
  assert (Hnone : forall a, central_angle a = None <-> a < 0 \/ 1 < a).
  { intros a. unfold central_angle, math_sqrt.
    destruct (Rlt_dec a 0) as [Ha|Ha].
    - split; [intros _; now left|done].
    - destruct (Rlt_dec (1 - a) 0) as [Hb|Hb].
      + split; [intros _; right; lra|done].
      + split; [done|]. intros [H|H]; lra. }
  split; [exact Hnone|]. split; [|split].
  - intros a c Hc. split; [|now apply central_angle_bounds in Hc].
    destruct (Rlt_dec a 0) as [Ha|Ha].
    + assert (central_angle a = None) by (apply Hnone; now left).
      congruence.
    + destruct (Rlt_dec 1 a) as [Hb|Hb]; [|lra].
      assert (central_angle a = None) by (apply Hnone; now right).
      congruence.
  - intros lat1 lng1 lat2 lng2. rewrite <- Hnone.
    unfold calculate_distance_between_points.
    now destruct (central_angle _).
  - intros lat1 lng1 lat2 lng2 distance.
    unfold calculate_distance_between_points.
    destruct (central_angle _) as [c|] eqn:Hc; [|done].
    intros [= <-]. apply central_angle_bounds in Hc. nra.
Qed.

Lemma within_boundary_by_distance lat lng room_lat room_lng radius :
  exists distance,
    calculate_distance_between_points lat lng room_lat room_lng
      = Some distance /\
    0 <= distance /\
    is_location_within_room_boundary lat lng room_lat room_lng radius =
      Some (Rleb distance (radius / 1000)).
Proof.
  unfold is_location_within_room_boundary,
    calculate_distance_between_points. cbv zeta.
  rewrite (haversine_a_sym room_lat room_lng lat lng).
  destruct (central_angle_total _ (haversine_a_bounds lat lng room_lat room_lng))
    as [c Hc].
  rewrite Hc. exists (6371 * c). split; [done|]. split; [|done].
  apply central_angle_bounds in Hc. lra.
Qed.

(** X10.  The boundary check is the distance check: a point is within a
    room's boundary exactly when its distance to the room's centre is at
    most the radius (metres against kilometres times 1000), whichever of
    the two points is given first.  Hence the centre itself is inside
    exactly when the radius is not negative, nothing is inside a negative
    radius, and whatever is inside a radius is inside every larger
    one. *)
Theorem boundary_is_distance_check lat lng room_lat room_lng radius :
  (exists distance,
     calculate_distance_between_points lat lng room_lat room_lng
       = Some distance /\
     is_location_within_room_boundary lat lng room_lat room_lng radius =
       Some (Rleb (distance * 1000) radius)) /\
  is_location_within_room_boundary room_lat room_lng room_lat room_lng
    radius = Some (Rleb 0 radius) /\
  (radius < 0 ->
   is_location_within_room_boundary lat lng room_lat room_lng radius
     = Some false) /\
  (forall larger,
     radius <= larger ->
     is_location_within_room_boundary lat lng room_lat room_lng radius
       = Some true ->
     is_location_within_room_boundary lat lng room_lat room_lng larger
       = Some true).
Proof.
  assert (Hscale : forall x r, Rleb x (r / 1000) = Rleb (x * 1000) r).
  { intros x r. unfold Rleb.
    destruct (Rle_dec x (r / 1000)), (Rle_dec (x * 1000) r); try done; lra. }
  destruct (within_boundary_by_distance lat lng room_lat room_lng radius)
    as (distance & Hd & Hpos & Hin).
  split; [|split; [|split]].
  - exists distance. split; [done|]. now rewrite Hin, Hscale.
  - destruct (within_boundary_by_distance room_lat room_lng room_lat
                room_lng radius) as (d0 & Hd0 & _ & ->).
    unfold calculate_distance_between_points in Hd0.
    rewrite haversine_a_same, central_angle_0 in Hd0.
    injection Hd0 as <-. rewrite Hscale. f_equal. f_equal. lra.
  - intros Hneg. rewrite Hin. f_equal. apply Rleb_false. lra.
  - intros larger Hle. rewrite Hin. intros [= Hb].
    destruct (within_boundary_by_distance lat lng room_lat room_lng larger)
      as (d' & Hd' & _ & ->).
    assert (d' = distance) as -> by congruence.
    f_equal. apply Rleb_true. unfold Rleb in Hb.
    destruct (Rle_dec distance (radius / 1000)); [lra|done].
Qed.

End Boundaries.

(** ** Chat messages *)

Section ChatMessages.
Implicit Types (w : World).

Lemma deliveries_member connections l member ws :
  member ∈ l -> connections !! member = Some ws ->
  exists k, deliveries connections l ws = S k.
Proof.
  intros Hin Hc. unfold deliveries.
  destruct (filter (fun u => connections !! u = Some ws) l) as [|x xs] eqn:E.
  - assert (member ∈ filter (fun u => connections !! u = Some ws) l) as Hm
      by now apply list_elem_of_filter.
    rewrite E in Hm. now apply elem_of_nil in Hm.
  - cbn. eauto.
Qed.

(** What a member with a working socket gets from a room broadcast. *)
Lemma broadcast_reaches_member room_id message exclude_user w room
    member ws :
  room_memberships (manager w) !! room_id = Some room ->
  member ∈ recipients room exclude_user ->
  active_connections (manager w) !! member = Some ws ->
  healthy (transport w) ws ->
  exists k,
    outbox (transport (_broadcast_to_room room_id message exclude_user w)) ws
    = outbox (transport w) ws ++ replicate (S k) message.
Proof.
  intros Hroom Hin Hc Hh.
  rewrite (broadcast_to_room_unfold _ _ _ _ room) by done.
  rewrite send_each_outbox by done.
  destruct (deliveries_member (active_connections (manager w))
              (elements (recipients room exclude_user)) member ws)
    as [k ->]; [now apply elem_of_elements|done|]. eauto.
Qed.

(** X11.  A chat message needs a room id and a text, and its sender must
    be in the occupant set of the room: otherwise the sender gets one
    error frame and nothing is stored.  A message of an occupant is
    stored as one new row, and every occupant with a working socket,
    the sender included, receives it; the occupant sets do not change. *)
Theorem chat_message_delivery now user_id roomId content w :
  let w' := handle_message now user_id (send_message roomId content) w in
  ((truthy_id roomId = None \/ truthy_string content = None) ->
   w' = _send_to_user user_id
          (error "Room ID and message content required") w /\
   same_state w w') /\
  (forall room_id text,
     truthy_id roomId = Some room_id -> truthy_string content = Some text ->
     user_id ∉ members_of (manager w) room_id ->
     w' = _send_to_user user_id (error "Not a member of this room") w /\
     same_state w w') /\
  (forall room_id text,
     truthy_id roomId = Some room_id -> truthy_string content = Some text ->
     user_id ∈ members_of (manager w) room_id ->
     exists msg,
       messages (database w') = messages (database w) ++ [msg] /\
       Message.room_id msg = room_id /\ Message.user_id msg = user_id /\
       Message.content msg = text /\ Message.created_at msg = now /\
       room_memberships (manager w') = room_memberships (manager w) /\
       (forall member ws,
          member ∈ members_of (manager w) room_id ->
          active_connections (manager w) !! member = Some ws ->
          healthy (transport w) ws ->
          exists k,
            outbox (transport w') ws =
              outbox (transport w) ws ++
              replicate (S k)
                (new_message msg (display_name (database w) user_id)))).
Proof.
  intros w'. unfold w'. cbn [handle_message]. unfold _handle_send_message.
  split; [|split].
  - intros [H|H].
    + rewrite H. split; [done|].
      now apply (send_to_user_sends (fun _ => True)).
    + rewrite H. destruct (truthy_id roomId);
        (split; [done|now apply (send_to_user_sends (fun _ => True))]).
  - intros room_id text -> -> Hout. fold (members_of (manager w) room_id).
    rewrite bool_decide_eq_false_2 by done.
    split; [done|]. now apply (send_to_user_sends (fun _ => True)).
  - intros room_id text -> -> Hin. fold (members_of (manager w) room_id).
    rewrite bool_decide_eq_true_2 by done. cbv zeta.
    set (msg := Message.mk (Z.of_nat (length (messages (database w))) + 1)
                  room_id user_id text now).
    set (w1 := with_database (with_messages (fun rows => rows ++ [msg])) w).
    assert (Hname : display_name (database w1) user_id
                    = display_name (database w) user_id) by done.
    rewrite Hname.
    set (frame := new_message msg (display_name (database w) user_id)).
    destruct (broadcast_to_room_sends (fun _ => True) room_id frame None w1 I)
      as [(Hr & _ & Hd) _].
    exists msg. rewrite Hr, Hd. repeat split; try done.
    intros member ws Hm Hc Hh. unfold members_of in Hm.
    destruct (room_memberships (manager w) !! room_id) as [room|] eqn:E;
      [|now apply not_elem_of_empty in Hm].
    apply (broadcast_reaches_member room_id frame None w1 room member ws);
      done.
Qed.

End ChatMessages.

(** ** What one message can touch *)

Section MessageScope.
Implicit Types (w : World).

Local Abbreviation index w := (room_memberships (manager w)).

Lemma add_member_other room_id user_id rm r v :
  v ≠ user_id ->
  v ∈ default ∅ (add_member room_id user_id rm !! r) <->
  v ∈ default ∅ (rm !! r).
Proof.
  intros Hne. rewrite add_member_lookup.
  destruct (decide (r = room_id)) as [->|_]; [|done]. cbn.
  rewrite elem_of_union, elem_of_singleton. tauto.
Qed.

Lemma discard_member_other room_id user_id rm r v :
  v ≠ user_id ->
  v ∈ default ∅ (discard_member room_id user_id rm !! r) <->
  v ∈ default ∅ (rm !! r).
Proof.
  intros Hne. rewrite discard_member_lookup.
  destruct (decide (r = room_id)) as [->|_]; [|done].
  destruct (rm !! room_id) as [room|]; [|done].
  destruct (decide (room ∖ {[user_id]} = ∅)) as [He|_]; cbn.
  - split; [intros H; now apply not_elem_of_empty in H|].
    intros Hin. rewrite <- He.
    apply elem_of_difference. split; [done|].
    now rewrite elem_of_singleton.
  - rewrite elem_of_difference, elem_of_singleton. tauto.
Qed.

(** The registries after one message: the index has moved by at most one
    step of the sender, and only the sender's location may be new. *)
Lemma handle_message_registries now user_id message w :
  let w' := handle_message now user_id message w in
  (index w' = index w \/
   exists room_id,
     index w' = add_member room_id user_id (index w) \/
     index w' = discard_member room_id user_id (index w)) /\
  (user_locations (manager w') = user_locations (manager w) \/
   exists l, user_locations (manager w')
             = <[user_id := l]> (user_locations (manager w))).
Proof.
  cbv zeta.
  assert (Hsend : forall e,
            let w' := _send_to_user user_id e w in
            (index w' = index w \/
             exists room_id,
               index w' = add_member room_id user_id (index w) \/
               index w' = discard_member room_id user_id (index w)) /\
            (user_locations (manager w') = user_locations (manager w) \/
             exists l, user_locations (manager w')
                       = <[user_id := l]> (user_locations (manager w)))).
  { intros e. cbv zeta.
    destruct (send_to_user_sends (fun _ => True) user_id e w I)
      as [(Hr & Hl & _) _]. auto. }
  destruct message as [roomId location|roomId|roomId content|location| |ty];
    cbn [handle_message].
  - unfold _handle_join_room.
    destruct (truthy_id roomId) as [room_id|]; [|apply Hsend].
    destruct (first _ (rooms (database w))) as [room|]; [|apply Hsend].
    destruct (bool_decide _); [apply Hsend|].
    destruct (outside_boundary location room) as [[]|]; try apply Hsend.
    match goal with
    | |- context [_join_room user_id room_id ?w1] =>
        destruct (join_room_effect user_id room_id w1) as (Hr & Hl & _);
        assert (Hm : manager w1 = manager w)
          by (now destruct (first _ (memberships (database w))))
    end.
    rewrite Hr, Hl, Hm. split; [right; exists room_id|]; auto.
  - unfold _handle_leave_room.
    destruct (truthy_id roomId) as [room_id|]; [|apply Hsend].
    destruct (leave_room_effect now user_id room_id w) as (Hr & Hl & _).
    rewrite Hr, Hl. split; [right; exists room_id|]; auto.
  - unfold _handle_send_message.
    destruct (truthy_id roomId) as [room_id|]; [|apply Hsend].
    destruct (truthy_string content) as [text|]; [|apply Hsend].
    destruct (bool_decide _); [|apply Hsend].
    match goal with
    | |- context [_broadcast_to_room room_id ?e None ?w1] =>
        destruct (broadcast_to_room_sends (fun _ => True) room_id e None w1 I)
          as [(Hr & Hl & _) _]
    end.
    rewrite Hr, Hl. auto.
  - unfold _handle_location_update.
    destruct location as [l|]; [|auto].
    destruct (LocationMsg.lat l) as [lat|] eqn:Elat;
      [|split; [auto|right; eauto]].
    destruct (LocationMsg.lng l) as [lng|] eqn:Elng;
      [|split; [auto|right; eauto]].
    match goal with
    | |- context [_check_proximity user_id l ?w2] =>
        destruct (check_proximity_sends user_id l w2) as [(Hr & Hl & _) _]
    end.
    rewrite Hr, Hl. split; [auto|right; eauto].
  - apply Hsend.
  - apply Hsend.
Qed.

(** X12.  A message changes the occupancy and the stored location of its
    sender only: whatever user [user_id] sends, every other user is in
    the same rooms and has the same stored location afterwards.  Only
    [join_room] and [leave_room] touch the occupant sets at all. *)
Theorem message_moves_only_its_sender now user_id message w :
  let w' := handle_message now user_id message w in
  (forall room_id v,
     v ≠ user_id ->
     v ∈ members_of (manager w') room_id <->
     v ∈ members_of (manager w) room_id) /\
  (forall v,
     v ≠ user_id ->
     user_locations (manager w') !! v = user_locations (manager w) !! v) /\
  match message with
  | join_room _ _ | leave_room _ => True
  | _ => room_memberships (manager w') = room_memberships (manager w)
  end.
Proof.
  cbv zeta.
  destruct (handle_message_registries now user_id message w) as (Hr & Hl).
  split; [|split].
  - intros room_id v Hne. unfold members_of.
    destruct Hr as [->|(r & [-> | ->])]; [done| |].
    + now apply add_member_other.
    + now apply discard_member_other.
  - intros v Hne. destruct Hl as [->|(l & ->)]; [done|].
    now apply lookup_insert_ne.
  - destruct message as [roomId location|roomId|roomId content|location| |ty];
      try done; cbn [handle_message].
    + unfold _handle_send_message.
      destruct (truthy_id roomId) as [room_id|];
        [|now destruct (send_to_user_sends (fun _ => True) user_id
                          (error "Room ID and message content required") w I)
            as [(? & _) _]].
      destruct (truthy_string content) as [text|];
        [|now destruct (send_to_user_sends (fun _ => True) user_id
                          (error "Room ID and message content required") w I)
            as [(? & _) _]].
      destruct (bool_decide _);
        [|now destruct (send_to_user_sends (fun _ => True) user_id
                          (error "Not a member of this room") w I)
            as [(? & _) _]].
      match goal with
      | |- context [_broadcast_to_room room_id ?e None ?w1] =>
          now destruct (broadcast_to_room_sends (fun _ => True) room_id e
                          None w1 I) as [(? & _) _]
      end.
    + unfold _handle_location_update.
      destruct location as [l|]; [|done].
      destruct (LocationMsg.lat l) as [lat|]; [|done].
      destruct (LocationMsg.lng l) as [lng|]; [|done].
      match goal with
      | |- context [_check_proximity user_id l ?w2] =>
          now destruct (check_proximity_sends user_id l w2) as [(? & _) _]
      end.
    + now destruct (send_to_user_sends (fun _ => True) user_id
                      (pong (now / 1000)) w I) as [(? & _) _].
    + now destruct (send_to_user_sends (fun _ => True) user_id
                      (error ("Unknown message type: " ++ ty)) w I)
        as [(? & _) _].
Qed.

End MessageScope.

(** ** Joining and leaving *)

Section JoinThenLeave.
Implicit Types (w : World).

Local Abbreviation index w := (room_memberships (manager w)).

Lemma discard_add_member room_id user_id rm :
  user_id ∉ default ∅ (rm !! room_id) ->
  rm !! room_id ≠ Some ∅ ->
  discard_member room_id user_id (add_member room_id user_id rm) = rm.
Proof.
  intros Hout Hne. unfold discard_member.
  rewrite add_member_lookup, decide_True by done. cbv zeta.
  assert (Hroom : (default ∅ (rm !! room_id) ∪ {[user_id]}) ∖ {[user_id]}
                  = default ∅ (rm !! room_id)).
  { apply set_eq. intros x.
    rewrite elem_of_difference, elem_of_union, elem_of_singleton.
    split; [tauto|]. intros Hx. split; [tauto|]. now intros ->. }
  rewrite Hroom. unfold add_member.
  destruct (rm !! room_id) as [room|] eqn:E; cbn.
  - rewrite decide_False by congruence.
    rewrite insert_insert_eq. now apply insert_id.
  - rewrite decide_True by done. now apply delete_insert_id.
Qed.

Lemma update_first_none {A} (p : A -> bool) (f : A -> A) rows :
  first p rows = None -> update_first p f rows = rows.
Proof.
  unfold first. induction rows as [|r rows IH]; [done|]. cbn.
  destruct (p r); [done|]. intros H. now rewrite IH.
Qed.

Lemma update_first_app_new {A} (p : A -> bool) (f : A -> A) rows x :
  first p rows = None -> p x = true ->
  update_first p f (rows ++ [x]) = rows ++ [f x].
Proof.
  unfold first. induction rows as [|r rows IH]; cbn.
  - now intros _ ->.
  - destruct (p r); [done|]. intros H Hx. now rewrite IH.
Qed.

(** X13.  Joining a room and then leaving it is a round trip.  For a user
    who is neither an occupant nor an active member of the room and whose
    join request is admitted: after the join the room counts one occupant
    more and the user appears in [get_user_rooms]; after the leave the
    membership index is what it was before the join, and so is the list
    of active membership rows of the room, against which the capacity is
    checked. *)
Theorem join_then_leave_round_trip now1 now2 user_id room_id location w :
  room_id ≠ 0 ->
  admitted room_id location (database w) ->
  user_id ∉ members_of (manager w) room_id ->
  room_memberships (manager w) !! room_id ≠ Some ∅ ->
  first (active_membership room_id user_id) (memberships (database w))
    = None ->
  let w1 :=
    handle_message now1 user_id (join_room (Some room_id) location) w in
  let w2 := handle_message now2 user_id (leave_room (Some room_id)) w1 in
  get_room_users_count (manager w1) room_id
    = get_room_users_count (manager w) room_id + 1 /\
  room_id ∈ get_user_rooms (manager w1) user_id /\
  room_memberships (manager w2) = room_memberships (manager w) /\
  List.filter (active_in_room room_id) (memberships (database w2))
    = List.filter (active_in_room room_id) (memberships (database w)).
Proof.
  intros Hid (room & Hroom & Hcap & Hloc) Hout Hne Hrow. cbv zeta.
  cbn [handle_message]. unfold _handle_join_room, _handle_leave_room.
  cbn [truthy_id]. rewrite decide_False by done. rewrite Hroom.
  rewrite bool_decide_eq_false_2 by lia. rewrite Hloc, Hrow.
  set (row := RoomMembership.mk room_id user_id now1 None true
                (location ≫= LocationMsg.lat) (location ≫= LocationMsg.lng)
                (location ≫= LocationMsg.accuracy)).
  set (w0 := with_database (with_memberships (fun rows => rows ++ [row])) w).
  destruct (join_room_effect user_id room_id w0) as (Hr1 & _ & Hd1 & _).
  set (w1 := _join_room user_id room_id w0) in *.
  destruct (leave_room_effect now2 user_id room_id w1) as (Hr2 & _ & _).
  assert (Hd2 : memberships (database (_leave_room now2 user_id room_id w1))
                = update_first (active_membership room_id user_id)
                    (fun m =>
                       RoomMembership.mk (RoomMembership.room_id m)
                         (RoomMembership.user_id m)
                         (RoomMembership.joined_at m) (Some now2) false
                         (RoomMembership.join_latitude m)
                         (RoomMembership.join_longitude m)
                         (RoomMembership.join_accuracy m))
                    (memberships (database w1))).
  { unfold _leave_room. cbv zeta.
    match goal with
    | |- context [_broadcast_room_users room_id ?w3] =>
        destruct (broadcast_room_users_sends (fun _ => True) room_id w3
                    (fun _ => I)) as [(_ & _ & ->) _]
    end.
    match goal with
    | |- context [_broadcast_to_room room_id ?e ?ex ?w2] =>
        destruct (broadcast_to_room_sends (fun _ => True) room_id e ex w2 I)
          as [(_ & _ & ->) _]
    end.
    done. }
  change (index w0) with (index w) in Hr1.
  split; [|split; [|split]].
  - unfold get_room_users_count. rewrite Hr1, add_member_lookup.
    rewrite decide_True by done. cbn [from_option Datatypes.id].
    fold (members_of (manager w) room_id).
    rewrite size_union by (apply disjoint_singleton_r; exact Hout).
    rewrite size_singleton. lia.
  - apply get_user_rooms_spec. unfold members_of.
    rewrite Hr1, add_member_lookup, decide_True by done.
    cbn [from_option Datatypes.id].
    apply elem_of_union_r. now apply elem_of_singleton.
  - rewrite Hr2, Hr1. now apply discard_add_member.
  - rewrite Hd2, Hd1. cbn.
    rewrite update_first_app_new; [|done|].
    + rewrite List.filter_app. cbn.
      unfold active_in_room at 2. cbn. rewrite andb_false_r.
      now rewrite app_nil_r.
    + unfold active_membership. cbn.
      now rewrite !bool_decide_eq_true_2.
Qed.

End JoinThenLeave.

Lemma join_then_leave_round_trip_witness :
  get_room_users_count
    (manager (handle_message 5 3 (join_room (Some 7) None)
                (two_member_world 3))) 7 = 3 /\
  room_memberships
    (manager (handle_message 6 3 (leave_room (Some 7))
                (handle_message 5 3 (join_room (Some 7) None)
                   (two_member_world 3))))
  = room_memberships (manager (two_member_world 3)).
Proof.
  destruct (join_then_leave_round_trip 5 6 3 7 None (two_member_world 3))
    as (Hc & _ & Hr & _).
  - done.
  - exists (Room.mk 7 0 0 3 50 true). repeat split; vm_compute; done.
  - vm_compute. set_solver.
  - vm_compute. intros [= H].
  - reflexivity.
  - split; [|exact Hr]. rewrite Hc. reflexivity.
Defined.

(** ** Leaving a room one is not in *)

Section LeaveUnchecked.
Implicit Types (w : World).

Local Abbreviation index w := (room_memberships (manager w)).

Lemma discard_member_absent room_id user_id rm room :
  rm !! room_id = Some room -> user_id ∉ room -> room ≠ ∅ ->
  discard_member room_id user_id rm = rm.
Proof.
  intros Hroom Hout Hne. unfold discard_member. rewrite Hroom. cbv zeta.
  assert (Hsame : room ∖ {[user_id]} = room).
  { apply set_eq. intros x. rewrite elem_of_difference, elem_of_singleton.
    split; [tauto|]. intros Hx. split; [done|]. now intros ->. }
  rewrite Hsame, decide_False by done. now apply insert_id.
Qed.

(** X14.  [leave_room] does not check that the sender is in the room.
    When a user who is neither an occupant nor an active member of an
    occupied room sends it, the membership index, the stored locations
    and the database stay as they are, but every occupant with a working
    socket still receives a [user_left] frame naming the sender. *)
Theorem leave_by_outsider_is_announced now user_id room_id w room :
  room_id ≠ 0 ->
  room_memberships (manager w) !! room_id = Some room ->
  user_id ∉ room ->
  first (active_membership room_id user_id) (memberships (database w))
    = None ->
  let w' := handle_message now user_id (leave_room (Some room_id)) w in
  (room ≠ ∅ -> room_memberships (manager w') = room_memberships (manager w)) /\
  user_locations (manager w') = user_locations (manager w) /\
  database w' = database w /\
  (forall member ws,
     member ∈ room ->
     active_connections (manager w) !! member = Some ws ->
     healthy (transport w) ws ->
     exists k rest,
       outbox (transport w') ws =
         outbox (transport w) ws ++
         replicate (S k)
           (user_left user_id (display_name (database w) user_id) room_id)
         ++ rest).
Proof.
  intros Hid Hroom Hout Hrow. cbv zeta.
  cbn [handle_message]. unfold _handle_leave_room. cbn [truthy_id].
  rewrite decide_False by done.
  destruct (leave_room_effect now user_id room_id w) as (Hr & Hl & _).
  split; [|split; [done|]].
  { intros Hne. rewrite Hr. now apply (discard_member_absent _ _ _ room). }
  unfold _leave_room. cbv zeta.
  set (w2 := with_database _ (with_manager _ w)).
  assert (Hd2 : database w2 = database w).
  { unfold w2. destruct w as [m t d]. destruct d. cbn in *.
    unfold with_memberships. cbn. now rewrite update_first_none. }
  set (frame := user_left user_id (display_name (database w2) user_id)
                  room_id).
  set (w3 := _broadcast_to_room room_id frame (Some user_id) w2).
  destruct (broadcast_room_users_sends (fun _ => True) room_id w3
              (fun _ => I)) as [(_ & _ & Hd4) D4].
  destruct (broadcast_to_room_sends (fun _ => True) room_id frame
              (Some user_id) w2 I) as [(_ & _ & Hd3) _].
  fold w3 in Hd3. split; [congruence|].
  intros member ws Hin Hc Hh.
  destruct (decide (room = ∅)) as [->|Hne];
    [now apply not_elem_of_empty in Hin|].
  assert (Hroom2 : index w2 !! room_id = Some room).
  { change (index w2) with (discard_member room_id user_id (index w)).
    now rewrite (discard_member_absent _ _ _ room). }
  assert (Hrec : member ∈ recipients room (Some user_id)).
  { unfold recipients. destruct (truthy_id (Some user_id)) as [u|] eqn:E;
      [|done].
    cbn in E. destruct (decide (user_id = 0)); [done|]. injection E as <-.
    apply elem_of_difference. split; [done|].
    rewrite elem_of_singleton. now intros ->. }
  destruct (broadcast_reaches_member room_id frame (Some user_id) w2 room
              member ws Hroom2 Hrec Hc Hh) as (k & Hk).
  fold w3 in Hk.
  destruct D4 as (_ & _ & _ & _ & Hnew).
  destruct (Hnew ws) as (rest & Hout4 & _).
  exists k, rest. rewrite Hout4, Hk. unfold frame. rewrite Hd2.
  now rewrite <- app_assoc.
Qed.

End LeaveUnchecked.

Lemma leave_by_outsider_is_announced_witness :
  exists k rest,
    outbox (transport (handle_message 5 3 (leave_room (Some 7))
                         (two_member_world 3))) 11%positive =
    replicate (S k) (user_left 3 (Some "cy"%string) 7) ++ rest.
Proof.
  destruct (leave_by_outsider_is_announced 5 3 7 (two_member_world 3)
              {[ 1; 2 ]}) as (_ & _ & _ & H).
  - done.
  - reflexivity.
  - rewrite elem_of_union, !elem_of_singleton. lia.
  - reflexivity.
  - destruct (H 1 11%positive) as (k & rest & Hk).
    + rewrite elem_of_union, !elem_of_singleton. lia.
    + reflexivity.
    + split; cbn; apply not_elem_of_empty.
    + exists k, rest. exact Hk.
Defined.

(** ** Location updates over the socket *)

Section LocationUpdates.
Implicit Types (w : World).

Lemma upsert_location_read user_id assign d :
  (forall r, LocationData.user_id (assign r) = LocationData.user_id r) ->
  exists r,
    query_location (upsert_location user_id assign d) user_id
      = Some (assign r) /\
    LocationData.user_id r = user_id.
Proof.
  intros Hid. unfold upsert_location.
  destruct (query_location d user_id) as [row|] eqn:E.
  - exists row. split.
    + unfold query_location in *. cbn [location_data with_location_data].
      apply first_update_first; [|done].
      intros r. now rewrite Hid.
    + apply first_Some in E as [E _]. now apply bool_decide_eq_true in E.
  - exists (LocationData.mk user_id 0 0 None None None None 0 0).
    split; [|done].
    unfold query_location in *. cbn [location_data with_location_data].
    rewrite first_app, E. unfold first. cbn. rewrite Hid. cbn.
    now rewrite bool_decide_eq_true_2.
Qed.

(** X15.  A location update whose latitude or longitude is exactly 0 is
    stored, in memory and in the database, but the proximity check is
    skipped: the update writes to no socket and drops no connection,
    wherever the friends of the sender stand. *)
Theorem zero_coordinate_skips_proximity now user_id l lat lng w :
  LocationMsg.lat l = Some lat -> LocationMsg.lng l = Some lng ->
  (lat = 0 \/ lng = 0)%R ->
  let w' := handle_message now user_id (location_update (Some l)) w in
  transport w' = transport w /\
  active_connections (manager w') = active_connections (manager w) /\
  user_locations (manager w') !! user_id =
    Some (UserLocation.mk (Some lat) (Some lng) (LocationMsg.accuracy l)
            (default (now / 1000) (LocationMsg.timestamp l))) /\
  exists row,
    query_location (database w') user_id = Some row /\
    LocationData.latitude row = lat /\ LocationData.longitude row = lng /\
    LocationData.updated_at row = now.
Proof.
  intros Hlat Hlng Hzero. cbv zeta. cbn [handle_message].
  unfold _handle_location_update. rewrite Hlat, Hlng.
  unfold _check_proximity. rewrite Hlat, Hlng.
  assert (Hskip : truthy_float (Some lat) = None \/
                  truthy_float (Some lng) = None).
  { unfold truthy_float. destruct Hzero as [-> | ->].
    - left. now destruct (Req_dec_T 0 0).
    - right. now destruct (Req_dec_T 0 0). }
  match goal with
  | |- context [upsert_location user_id ?f] =>
      destruct (upsert_location_read user_id f (database w)) as (r & Hq & _);
        [done|]
  end.
  assert (Hw : forall w2 : World,
            match truthy_float (Some lat), truthy_float (Some lng) with
            | Some user_lat, Some user_lng =>
                proximity_notify_loop user_id user_lat user_lng
                  (List.filter (fun f : Friend.t =>
                       (bool_decide (Friend.user1_id f = user_id)
                        || bool_decide (Friend.user2_id f = user_id))
                       && Friend.is_active f && Friend.can_see_location f)
                     (friends (database w2))) w2
            | _, _ => w2
            end = w2).
  { intros w2. destruct Hskip as [-> | ->]; [done|].
    now destruct (truthy_float (Some lat)). }
  rewrite Hw. cbn [transport manager with_database with_manager
                   active_connections with_user_locations user_locations
                   database].
  repeat split; try done.
  - apply lookup_insert_eq.
  - eexists. split; [exact Hq|]. done.
Qed.

(** X16.  A location update that lacks a coordinate cannot be stored in
    the database, whose coordinate columns are not nullable: the
    in-memory entry of the sender is replaced all the same, the database
    keeps what it had, and nothing is sent. *)
Theorem missing_coordinate_is_kept_in_memory_only now user_id l w :
  (LocationMsg.lat l = None /\ is_Some (LocationMsg.lng l)) \/
  (is_Some (LocationMsg.lat l) /\ LocationMsg.lng l = None) ->
  let w' := handle_message now user_id (location_update (Some l)) w in
  user_locations (manager w') !! user_id =
    Some (UserLocation.mk (LocationMsg.lat l) (LocationMsg.lng l)
            (LocationMsg.accuracy l)
            (default (now / 1000) (LocationMsg.timestamp l))) /\
  database w' = database w /\
  transport w' = transport w /\
  active_connections (manager w') = active_connections (manager w).
Proof.
  intros Hmiss. cbv zeta. cbn [handle_message].
  unfold _handle_location_update.
  destruct Hmiss as [(Hlat & Hlng) | (Hlat & Hlng)].
  - rewrite Hlat. cbn. repeat split; try done. apply lookup_insert_eq.
  - rewrite Hlng. destruct (LocationMsg.lat l) as [lat|]; cbn;
      (repeat split; try done); apply lookup_insert_eq.
Qed.

End LocationUpdates.

Lemma zero_coordinate_skips_proximity_witness :
  transport (handle_message 5 1 (location_update (Some at_origin))
               origin_world) = transport origin_world /\
  exists row,
    query_location
      (database (handle_message 5 1 (location_update (Some at_origin))
                   origin_world)) 1 = Some row /\
    LocationData.latitude row = 0%R.
Proof.
  destruct (zero_coordinate_skips_proximity 5 1 at_origin 0%R 0%R
              origin_world) as (Ht & _ & _ & row & Hq & Hlat & _).
  - reflexivity.
  - reflexivity.
  - now left.
  - split; [exact Ht|]. exists row. split; [exact Hq|exact Hlat].
Defined.

Lemma missing_coordinate_is_kept_in_memory_only_witness :
  database (handle_message 5 1
              (location_update
                 (Some (LocationMsg.mk (Some 1%R) None None None)))
              origin_world) = database origin_world.
Proof.
  destruct (missing_coordinate_is_kept_in_memory_only 5 1
              (LocationMsg.mk (Some 1%R) None None None) origin_world)
    as (_ & Hd & _).
  - right. split; [now exists 1%R|reflexivity].
  - exact Hd.
Defined.

(** ** Disconnecting several users *)

Section DisconnectMany.
Implicit Types (w : World).

Local Abbreviation index w := (room_memberships (manager w)).
Local Abbreviation unbound user_id w :=
  (with_manager (with_active_connections (delete user_id)) w).
Local Abbreviation disconnect_each now l start :=
  (foldl (fun w0 u0 => disconnect now u0 w0) start l).

Lemma leave_rooms_other now user_id room_ids w v room_id :
  v ≠ user_id ->
  v ∈ members_of (manager (leave_rooms now user_id room_ids w).2) room_id <->
  v ∈ members_of (manager w) room_id.
Proof.
  intros Hne. revert w.
  induction room_ids as [|k rest IH]; intros w; cbn; [done|].
  destruct (index w !! k) as [room|] eqn:E; [|done].
  rewrite IH. destruct (decide (user_id ∈ room)); [|done].
  unfold members_of.
  destruct (leave_room_effect now user_id k w) as (-> & _).
  now apply discard_member_other.
Qed.

(** The three stages of [disconnect]. *)
Lemma disconnect_parts now user_id w :
  exists w2,
    leave_rooms now user_id (map_to_list (index (unbound user_id w))).*1
      (unbound user_id w) = (true, w2) /\
    disconnect now user_id w =
      with_database (set_online now user_id false)
        (with_manager (with_user_locations (delete user_id)) w2) /\
    user_locations (manager w2) = user_locations (manager w) /\
    delivers (fun e => ¬ is_error e) (unbound user_id w) w2.
Proof.
  unfold disconnect. cbv zeta.
  pose proof (leave_rooms_spec now user_id
                (map_to_list (index (unbound user_id w))).*1
                (unbound user_id w)) as H.
  destruct H as (Hok & _ & _ & Hloc & D).
  { apply NoDup_fst_map_to_list. }
  { intros r Hr. apply list_elem_of_fmap in Hr as ([r' room] & -> & Hr).
    apply elem_of_map_to_list in Hr. eauto. }
  destruct (leave_rooms now user_id _ (unbound user_id w)) as [ok w2].
  cbn in Hok, Hloc, D. subst ok. exists w2. done.
Qed.

Lemma disconnect_other now user_id w v :
  v ≠ user_id ->
  let w' := disconnect now user_id w in
  (forall room_id,
     v ∈ members_of (manager w') room_id <->
     v ∈ members_of (manager w) room_id) /\
  user_locations (manager w') !! v = user_locations (manager w) !! v /\
  (forall ws,
     active_connections (manager w) !! v = Some ws ->
     healthy (transport w) ws ->
     active_connections (manager w') !! v = Some ws).
Proof.
  intros Hne. cbv zeta.
  destruct (disconnect_parts now user_id w) as (w2 & Hl & -> & Hloc & D).
  split; [|split].
  - intros room_id.
    pose proof (leave_rooms_other now user_id
                  (map_to_list (index (unbound user_id w))).*1
                  (unbound user_id w) v room_id Hne) as H.
    rewrite Hl in H. exact H.
  - cbn. rewrite lookup_delete_ne by done. now rewrite Hloc.
  - intros ws Hc Hh. cbn. destruct D as (_ & _ & _ & Hkeep & _).
    apply Hkeep; [|done]. cbn. now rewrite lookup_delete_ne.
Qed.

Lemma disconnect_grows now user_id w :
  let w' := disconnect now user_id w in
  (forall v ws,
     active_connections (manager w') !! v = Some ws ->
     active_connections (manager w) !! v = Some ws) /\
  (forall ws, exists new,
     outbox (transport w') ws = outbox (transport w) ws ++ new).
Proof.
  cbv zeta.
  destruct (disconnect_parts now user_id w) as (w2 & _ & -> & _ & D).
  destruct D as (_ & _ & Hsub & _ & Hnew). split.
  - intros v ws Hc. cbn in Hc.
    pose proof (lookup_weaken _ _ _ _ Hc Hsub) as H. cbn in H.
    now apply lookup_delete_Some in H as [_ H].
  - intros ws. destruct (Hnew ws) as (new & H & _). exists new. exact H.
Qed.

Lemma disconnect_forgets now user_id w v :
  v = user_id \/ forgotten (manager w) v ->
  forgotten (manager (disconnect now user_id w)) v.
Proof.
  assert (Hself : forgotten (manager (disconnect now user_id w)) user_id).
  { destruct (disconnect_effect now user_id w) as (Hr & Hl & Hc). done. }
  intros [->|(Hc & Hr & Hl)]; [done|].
  destruct (decide (v = user_id)) as [->|Hne]; [done|].
  destruct (disconnect_other now user_id w v Hne) as (Hr' & Hl' & _).
  destruct (disconnect_grows now user_id w) as (Hsub & _).
  split; [|split].
  - destruct (active_connections (manager (disconnect now user_id w)) !! v)
      as [ws|] eqn:E; [|done].
    apply Hsub in E. congruence.
  - intros room_id. rewrite Hr'. apply Hr.
  - now rewrite Hl'.
Qed.

Lemma disconnect_each_forgets now l w v :
  v ∈ l \/ forgotten (manager w) v ->
  forgotten (manager (disconnect_each now l w)) v.
Proof.
  revert w. induction l as [|u l IH]; intros w [Hin|H]; cbn.
  - now apply elem_of_nil in Hin.
  - done.
  - apply IH. apply elem_of_cons in Hin as [->|Hin]; [right|now left].
    apply disconnect_forgets. now left.
  - apply IH. right. apply disconnect_forgets. now right.
Qed.

Lemma disconnect_each_other now l w v :
  v ∉ l ->
  let w' := disconnect_each now l w in
  (forall room_id,
     v ∈ members_of (manager w') room_id <->
     v ∈ members_of (manager w) room_id) /\
  user_locations (manager w') !! v = user_locations (manager w) !! v /\
  (forall ws,
     active_connections (manager w) !! v = Some ws ->
     healthy (transport w) ws ->
     active_connections (manager w') !! v = Some ws).
Proof.
  revert w. induction l as [|u l IH]; intros w Hout; cbn; [done|].
  apply not_elem_of_cons in Hout as [Hne Hout].
  destruct (IH (disconnect now u w) Hout) as (Hr & Hl & Hc).
  destruct (disconnect_other now u w v Hne) as (Hr1 & Hl1 & Hc1).
  destruct (disconnect_sockets now u w) as (Hf & Hcl).
  split; [|split].
  - intros room_id. now rewrite Hr.
  - now rewrite Hl.
  - intros ws Hconn Hh. apply Hc; [now apply Hc1|].
    unfold healthy. now rewrite Hf, Hcl.
Qed.

Lemma disconnect_each_grows now l w :
  let w' := disconnect_each now l w in
  (forall v ws,
     active_connections (manager w') !! v = Some ws ->
     active_connections (manager w) !! v = Some ws) /\
  (forall ws, exists new,
     outbox (transport w') ws = outbox (transport w) ws ++ new).
Proof.
  revert w. induction l as [|u l IH]; intros w; cbn.
  - split; [done|]. intros ws. exists []. now rewrite app_nil_r.
  - destruct (IH (disconnect now u w)) as (Hsub & Hnew).
    destruct (disconnect_grows now u w) as (Hsub1 & Hnew1).
    split; [auto|].
    intros ws. destruct (Hnew ws) as (n2 & ->).
    destruct (Hnew1 ws) as (n1 & ->). exists (n1 ++ n2).
    now rewrite app_assoc.
Qed.

(** The first loop of [broadcast_to_all]. *)
Lemma broadcast_sends_spec message (items : list (Z * WebSocket)) t acc :
  let res :=
    foldl (fun '(t, disconnected_users) '(user_id, websocket) =>
        match send_text websocket message t with
        | Some t' => (t', disconnected_users)
        | None => (t, disconnected_users ++ [user_id])
        end) (t, acc) items in
  failing res.1 = failing t /\ closed res.1 = closed t /\
  (forall u, u ∈ res.2 <->
             u ∈ acc \/ exists ws, (u, ws) ∈ items /\ ¬ healthy t ws) /\
  (forall ws,
     healthy t ws ->
     outbox res.1 ws =
       outbox t ws ++
       replicate (length (filter (fun kv => kv.2 = ws) items)) message) /\
  (forall ws, ¬ healthy t ws -> outbox res.1 ws = outbox t ws).
Proof.
  cbv zeta. revert t acc.
  induction items as [|[u ws0] items IH]; intros t acc.
  - cbn. repeat split; try done.
    + intros H. now left.
    + intros [H|(ws & H & _)]; [done|]. now apply elem_of_nil in H.
    + intros ws _. now rewrite app_nil_r.
  - cbn [foldl].
    destruct (healthy_dec t ws0) as [Hh|Hh].
    + rewrite send_text_healthy by done.
      set (t1 := mkTransport _ _ _).
      destruct (IH t1 acc) as (Hf & Hc & Hbad & Hgood & Hsame).
      assert (Hhe : forall ws, healthy t1 ws <-> healthy t ws) by done.
      split; [done|]. split; [done|]. split; [|split].
      * intros x. rewrite Hbad. split.
        -- intros [H|(ws & Hin & Hn)]; [now left|right].
           exists ws. split; [now right|]. now rewrite <- Hhe.
        -- intros [H|(ws & Hin & Hn)]; [now left|].
           apply elem_of_cons in Hin as [[= -> ->]|Hin]; [done|].
           right. exists ws. split; [done|]. now rewrite Hhe.
      * intros ws Hws. rewrite Hgood by now apply Hhe.
        unfold t1. rewrite outbox_after_send. rewrite filter_cons. cbn.
        destruct (decide (ws = ws0)) as [->|Hne].
        -- rewrite decide_True by done. cbn. now rewrite <- app_assoc.
        -- now rewrite decide_False by congruence.
      * intros ws Hws. rewrite Hsame by now rewrite Hhe.
        unfold t1. rewrite outbox_after_send.
        destruct (decide (ws = ws0)) as [->|Hne]; [done|done].
    + rewrite send_text_unhealthy by done.
      destruct (IH t (acc ++ [u])) as (Hf & Hc & Hbad & Hgood & Hsame).
      split; [done|]. split; [done|]. split; [|split].
      * intros x. rewrite Hbad, elem_of_app, list_elem_of_singleton. split.
        -- intros [[H| ->]|(ws & Hin & Hn)].
           ++ now left.
           ++ right. exists ws0. split; [now left|done].
           ++ right. exists ws. split; [now right|done].
        -- intros [H|(ws & Hin & Hn)]; [left; now left|].
           apply elem_of_cons in Hin as [[= -> ->]|Hin].
           ++ left. now right.
           ++ right. eauto.
      * intros ws Hws. rewrite Hgood by done. rewrite filter_cons. cbn.
        destruct (decide (ws0 = ws)) as [->|Hne]; [done|done].
      * done.
Qed.

(** X17.  [broadcast_to_all] reaches every user whose socket works and
    drops every user whose socket fails.  A user on a working socket
    stays connected, stays in the same rooms, and has the frame in the
    outbox, before anything the clean-up sends.  A user on a failing
    socket ends with no connection, no room and no stored location. *)
Theorem broadcast_to_all_reaches_and_prunes now message w user_id ws :
  active_connections (manager w) !! user_id = Some ws ->
  let w' := broadcast_to_all now message w in
  (healthy (transport w) ws ->
   active_connections (manager w') !! user_id = Some ws /\
   (forall room_id,
      user_id ∈ members_of (manager w') room_id <->
      user_id ∈ members_of (manager w) room_id) /\
   exists k rest,
     outbox (transport w') ws =
       outbox (transport w) ws ++ replicate (S k) message ++ rest) /\
  (¬ healthy (transport w) ws -> forgotten (manager w') user_id).
Proof.
  intros Hc. cbv zeta. unfold broadcast_to_all.
  pose proof (broadcast_sends_spec message
                (map_to_list (active_connections (manager w)))
                (transport w) []) as H.
  cbv zeta in H.
  destruct (foldl _ (transport w, []) _) as [t bad].
  cbn [fst snd] in H. destruct H as (Hf & Hcl & Hbad & Hgood & _).
  set (w0 := with_transport (fun _ => t) w).
  assert (Hitem : (user_id, ws)
                  ∈ map_to_list (active_connections (manager w)))
    by now apply elem_of_map_to_list.
  split.
  - intros Hh.
    assert (Hout : user_id ∉ bad).
    { rewrite Hbad. intros [H|(ws' & Hin & Hn)];
        [now apply elem_of_nil in H|].
      apply elem_of_map_to_list in Hin. congruence. }
    destruct (disconnect_each_other now bad w0 user_id Hout)
      as (Hr & _ & Hkeep).
    destruct (disconnect_each_grows now bad w0) as (_ & Hnew).
    split; [|split].
    + apply Hkeep; [done|]. unfold healthy. cbn. now rewrite Hf, Hcl.
    + intros room_id. now rewrite Hr.
    + destruct (Hnew ws) as (rest & ->). cbn [transport w0 with_transport].
      rewrite Hgood by done.
      destruct (filter (fun kv : Z * WebSocket => kv.2 = ws)
                  (map_to_list (active_connections (manager w))))
        as [|x xs] eqn:E.
      * assert (Hin : (user_id, ws)
                      ∈ filter (fun kv : Z * WebSocket => kv.2 = ws)
                          (map_to_list (active_connections (manager w))))
          by now apply list_elem_of_filter.
        rewrite E in Hin. now apply elem_of_nil in Hin.
      * exists (length xs), rest. cbn [length]. now rewrite <- app_assoc.
  - intros Hn. apply disconnect_each_forgets. left.
    rewrite Hbad. right. eauto.
Qed.

(** X18.  After [disconnect_all] nobody is connected, and every user who
    was connected is in no room and has no stored location.  A user who
    was not connected is left where they were, so occupants without a
    connection survive a shutdown of the sessions. *)
Theorem disconnect_all_forgets_the_connected now w :
  let w' := disconnect_all now w in
  active_connections (manager w') = ∅ /\
  get_online_users_count (manager w') = 0 /\
  (forall user_id,
     is_Some (active_connections (manager w) !! user_id) ->
     forgotten (manager w') user_id) /\
  (forall user_id,
     active_connections (manager w) !! user_id = None ->
     (forall room_id,
        user_id ∈ members_of (manager w') room_id <->
        user_id ∈ members_of (manager w) room_id) /\
     user_locations (manager w') !! user_id
       = user_locations (manager w) !! user_id).
Proof.
  cbv zeta. unfold disconnect_all.
  set (l := (map_to_list (active_connections (manager w))).*1).
  assert (Hkeys : forall u, u ∈ l <->
                            is_Some (active_connections (manager w) !! u)).
  { intros u. unfold l. rewrite list_elem_of_fmap. split.
    - intros ([u' ws] & -> & Hin). apply elem_of_map_to_list in Hin. eauto.
    - intros [ws Hws]. exists (u, ws). split; [done|].
      now apply elem_of_map_to_list. }
  destruct (disconnect_each_grows now l w) as (Hsub & _).
  assert (Hempty : active_connections (manager (disconnect_each now l w))
                   = ∅).
  { apply map_empty. intros u.
    destruct (decide (u ∈ l)) as [Hin|Hout].
    - now destruct (disconnect_each_forgets now l w u (or_introl Hin)).
    - destruct (active_connections
                  (manager (disconnect_each now l w)) !! u) as [ws|] eqn:E;
        [|done].
      apply Hsub in E. exfalso. apply Hout, Hkeys. eauto. }
  split; [done|]. split; [|split].
  - unfold get_online_users_count. rewrite Hempty. now rewrite map_size_empty.
  - intros u Hu. apply disconnect_each_forgets. left. now apply Hkeys.
  - intros u Hu.
    assert (Hout : u ∉ l).
    { rewrite Hkeys, Hu. now intros [? ?]. }
    destruct (disconnect_each_other now l w u Hout) as (Hr & Hl & _).
    done.
Qed.

Lemma leave_rooms_absent now user_id room_ids w :
  (forall r, r ∈ room_ids -> is_Some (index w !! r)) ->
  (forall r, user_id ∉ members_of (manager w) r) ->
  leave_rooms now user_id room_ids w = (true, w).
Proof.
  intros Hkeys Hout. induction room_ids as [|k rest IH]; [done|]. cbn.
  destruct (Hkeys k) as [room Hroom]; [now left|]. rewrite Hroom.
  assert (Hk : user_id ∉ room).
  { specialize (Hout k). unfold members_of in Hout. now rewrite Hroom in Hout. }
  rewrite decide_False by done. apply IH.
  intros r Hr. apply Hkeys. now right.
Qed.

(** X19.  [disconnect] is idempotent on the manager.  Once a user has
    been disconnected, a second [disconnect], as the endpoint issues
    when the session ends after a clean-up, sends nothing and changes
    nothing but the [last_seen] stamp of the user's row. *)
Theorem disconnect_twice_is_silent now1 now2 user_id w :
  let w1 := disconnect now1 user_id w in
  disconnect now2 user_id w1 =
    with_database (set_online now2 user_id false) w1.
Proof.
  cbv zeta.
  destruct (disconnect_effect now1 user_id w) as (Hr & Hl & Hc).
  set (w1 := disconnect now1 user_id w) in *.
  assert (Hu : unbound user_id w1 = w1).
  { destruct w1 as [[c r l] t d]. cbn in *. unfold with_manager. cbn.
    unfold with_active_connections. cbn. now rewrite delete_id. }
  unfold disconnect. cbv zeta. rewrite Hu.
  rewrite leave_rooms_absent; [|
    intros r Hin; apply list_elem_of_fmap in Hin as ([r' room] & -> & Hin);
    apply elem_of_map_to_list in Hin; eauto | done].
  destruct w1 as [[c r l] t d]. cbn in *. unfold with_manager. cbn.
  unfold with_user_locations. cbn. now rewrite delete_id.
Qed.

End DisconnectMany.

Lemma broadcast_to_all_reaches_and_prunes_witness :
  forgotten (manager (broadcast_to_all 5 connected three_member_world)) 2 /\
  active_connections
    (manager (broadcast_to_all 5 connected three_member_world)) !! 1
  = Some 11%positive.
Proof.
  split.
  - apply (broadcast_to_all_reaches_and_prunes 5 connected
             three_member_world 2 12%positive); [reflexivity|].
    intros [H _]. apply H. cbn. now apply elem_of_singleton.
  - apply (broadcast_to_all_reaches_and_prunes 5 connected
             three_member_world 1 11%positive); [reflexivity|].
    split; cbn; [|apply not_elem_of_empty].
    intros H. now apply elem_of_singleton in H.
Defined.

(** ** Reconnecting *)

Section Reconnect.
Implicit Types (w : World).

Local Abbreviation index w := (room_memberships (manager w)).

Lemma rejoin_each_spec user_id (rows : list RoomMembership.t) w :
  let w' :=
    foldl (fun w membership =>
             _rejoin_room user_id (RoomMembership.room_id membership) w)
          w rows in
  index w' =
    foldl (fun rm membership =>
             add_member (RoomMembership.room_id membership) user_id rm)
          (index w) rows /\
  user_locations (manager w') = user_locations (manager w) /\
  database w' = database w.
Proof.
  cbv zeta. revert w. induction rows as [|m rows IH]; intros w; cbn; [done|].
  destruct (IH (_rejoin_room user_id (RoomMembership.room_id m) w))
    as (-> & -> & ->).
  unfold _rejoin_room.
  destruct (join_room_effect user_id (RoomMembership.room_id m) w)
    as (-> & -> & -> & _).
  done.
Qed.

Lemma add_each_member user_id (rows : list RoomMembership.t) rm v room_id :
  v ∈ default ∅
        (foldl (fun rm membership =>
                  add_member (RoomMembership.room_id membership) user_id rm)
               rm rows !! room_id) <->
  v ∈ default ∅ (rm !! room_id) \/
  (v = user_id /\
   exists m, m ∈ rows /\ RoomMembership.room_id m = room_id).
Proof.
  revert rm. induction rows as [|m rows IH]; intros rm; cbn.
  - split; [now left|]. intros [H|(_ & m & H & _)]; [done|].
    now apply elem_of_nil in H.
  - rewrite IH, add_member_lookup.
    destruct (decide (room_id = RoomMembership.room_id m)) as [->|Hne].
    + cbn. rewrite elem_of_union, elem_of_singleton. split.
      * intros [[H| ->]|(-> & m' & Hin & Hr)].
        -- now left.
        -- right. split; [done|]. exists m. split; [now left|done].
        -- right. split; [done|]. exists m'. split; [now right|done].
      * intros [H|(-> & m' & Hin & Hr)]; [left; now left|].
        left. now right.
    + split.
      * intros [H|(-> & m' & Hin & Hr)]; [now left|].
        right. split; [done|]. exists m'. split; [now right|done].
      * intros [H|(-> & m' & Hin & Hr)]; [now left|].
        apply elem_of_cons in Hin as [->|Hin]; [done|].
        right. eauto.
Qed.

(** X20.  On [connect] the user is put back into the occupant set of
    every room for which the database holds an active membership row of
    theirs, and into no other; no capacity or boundary check is made,
    and nobody else's occupancy, no stored location and no membership
    row changes. *)
Theorem connect_restores_rooms now user_id websocket w :
  let w' := connect now user_id websocket w in
  (forall room_id,
     user_id ∈ members_of (manager w') room_id <->
     user_id ∈ members_of (manager w) room_id \/
     exists m, m ∈ memberships (database w) /\
               RoomMembership.user_id m = user_id /\
               RoomMembership.room_id m = room_id /\
               RoomMembership.is_active m = true) /\
  (forall v room_id,
     v ≠ user_id ->
     v ∈ members_of (manager w') room_id <->
     v ∈ members_of (manager w) room_id) /\
  user_locations (manager w') = user_locations (manager w) /\
  memberships (database w') = memberships (database w).
Proof.
  cbv zeta. unfold connect. cbv zeta. unfold _send_initial_data.
  match goal with
  | |- context [foldl _ ?w2 ?rows] =>
      destruct (rejoin_each_spec user_id rows w2) as (Hr & Hl & Hd);
      cbv zeta in Hr, Hl, Hd
  end.
  unfold members_of. rewrite Hr, Hl, Hd.
  cbn [manager with_database with_manager room_memberships user_locations
       with_active_connections database set_online with_users memberships].
  split; [|split; [|done]].
  - intros room_id. rewrite add_each_member. split.
    + intros [H|(_ & m & Hin & Hroom)]; [now left|right].
      apply list_elem_of_In, List.filter_In in Hin as [Hin Hp].
      apply andb_true_iff in Hp as [Hu Ha].
      apply bool_decide_eq_true in Hu.
      exists m. repeat split; try done. now apply list_elem_of_In.
    + intros [H|(m & Hin & Hu & Hroom & Ha)]; [now left|right].
      split; [done|]. exists m. split; [|done].
      apply list_elem_of_In, List.filter_In. split.
      * now apply list_elem_of_In.
      * now rewrite bool_decide_eq_true_2, Ha.
  - intros v room_id Hne. rewrite add_each_member. split.
    + now intros [H|(-> & _)].
    + now left.
Qed.

End Reconnect.

(** ** The handshake *)

Section Handshake.
Implicit Types (w : World).

Lemma truthy_id_Some x v : truthy_id x = Some v <-> x = Some v /\ v ≠ 0.
Proof.
  unfold truthy_id. destruct x as [y|].
  - destruct (decide (y = 0)) as [->|Hne]; split.
    + done.
    + now intros [[= <-] H].
    + now intros [= <-].
    + now intros [[= <-] _].
  - split; [done|]. now intros [? _].
Qed.

Lemma reject_effect websocket message w :
  manager (reject websocket message w) = manager w /\
  database (reject websocket message w) = database w /\
  failing (transport (reject websocket message w)) = failing (transport w) /\
  (healthy (transport w) websocket ->
   websocket ∈ closed (transport (reject websocket message w)) /\
   outbox (transport (reject websocket message w)) websocket =
     outbox (transport w) websocket ++ [error message]).
Proof.
  unfold reject. destruct (healthy_dec (transport w) websocket) as [Hh|Hh].
  - rewrite send_text_healthy by done.
    split; [done|]. split; [done|]. split; [done|]. intros _. split.
    + cbn. apply elem_of_union_r. now apply elem_of_singleton.
    + unfold outbox at 1. cbn. now rewrite lookup_insert_eq.
  - rewrite send_text_unhealthy by done. done.
Qed.

(** X21.  The handshake of [websocket_endpoint] has three outcomes.  It
    serves a user exactly when the first frame is [authenticate] with a
    non-zero id of an existing user and the socket works, and then the
    user is bound to this socket, whose last frame is [connected].  When
    no usable first frame arrives (the peer has gone, the text is not
    JSON or not an object) the endpoint ends without a trace: nothing is
    sent, the socket is not closed and no state changes.  In every other
    case a working socket is closed, a first frame of another type or
    without a user id leaves manager and database untouched, and a user
    id that was read ends with nothing held for it. *)
Theorem handshake_outcomes now websocket auth_data w :
  let res := websocket_endpoint_open now websocket auth_data w in
  (forall user_id,
     res.1 = Some user_id <->
     auth_data = authenticate (Some user_id) /\ user_id ≠ 0 /\
     is_Some (query_user (database w) user_id) /\
     healthy (transport w) websocket) /\
  (forall user_id,
     res.1 = Some user_id ->
     active_connections (manager res.2) !! user_id = Some websocket /\
     last (outbox (transport res.2) websocket) = Some connected /\
     healthy (transport res.2) websocket) /\
  (auth_data = unreadable -> res = (None, w)) /\
  (res.1 = None ->
   (auth_data ≠ unreadable ->
    healthy (transport w) websocket ->
    websocket ∈ closed (transport res.2) /\
    exists message,
      error message ∈ outbox (transport res.2) websocket) /\
   (forall user_id,
      auth_data = authenticate (Some user_id) -> user_id ≠ 0 ->
      forgotten (manager res.2) user_id) /\
   ((auth_data = not_authenticate \/
     exists userId,
       auth_data = authenticate userId /\ truthy_id userId = None) ->
    manager res.2 = manager w /\ database res.2 = database w)).
Proof.
  cbv zeta. unfold websocket_endpoint_open.
  destruct auth_data as [userId| |].
  3:{ cbn [fst snd]. split; [|split; [done|split; [done|]]].
      - intros u. split; [done|]. now intros (? & _).
      - intros _. split; [done|]. split; [done|].
        intros [H|(x & H & _)]; done. }
  2:{ destruct (reject_effect websocket "Authentication required" w)
        as (Hm & Hd & _ & Hcl).
      cbn [fst snd]. split; [|split; [done|split; [done|]]].
      - intros u. split; [done|]. now intros (? & _).
      - intros _. split; [|split; [done|done]].
        intros _ Hh. destruct (Hcl Hh) as (Hc & Ho). split; [done|].
        exists "Authentication required"%string. rewrite Ho.
        apply elem_of_app. right. now apply list_elem_of_singleton. }
  destruct (truthy_id userId) as [u|] eqn:Eid.
  2:{ destruct (reject_effect websocket "User ID required" w)
        as (Hm & Hd & _ & Hcl).
      cbn [fst snd]. split; [|split; [done|split; [done|]]].
      - intros u. split; [done|]. intros ([= ->] & Hne & _).
        cbn in Eid. now rewrite decide_False in Eid.
      - intros _. split; [|split; [|done]].
        + intros _ Hh. destruct (Hcl Hh) as (Hc & Ho). split; [done|].
          exists "User ID required"%string. rewrite Ho.
          apply elem_of_app. right. now apply list_elem_of_singleton.
        + intros u [= ->] Hne. cbn in Eid.
          now rewrite decide_False in Eid. }
  apply truthy_id_Some in Eid as [-> Hu].
  destruct (query_user (database w) u) as [user|] eqn:Euser.
  2:{ cbn [fst snd].
      destruct (reject_effect websocket "Invalid user" w)
        as (Hm & Hd & _ & Hcl).
      destruct (disconnect_sockets now u (reject websocket "Invalid user" w))
        as (_ & Hc).
      destruct (disconnect_grows now u (reject websocket "Invalid user" w))
        as (_ & Hnew).
      split; [|split; [done|split; [done|]]].
      - intros v. split; [done|]. intros ([= ->] & _ & [? ?] & _). congruence.
      - intros _. split; [|split].
        + intros _ Hh. destruct (Hcl Hh) as (Hc' & Ho).
          split; [now rewrite Hc|].
          exists "Invalid user"%string.
          destruct (Hnew websocket) as (new & ->). rewrite Ho.
          apply elem_of_app. left. apply elem_of_app. right.
          now apply list_elem_of_singleton.
        + intros v [= <-] _. apply disconnect_forgets. now left.
        + intros [H|(x & [= <-] & H)]; [done|].
          cbn in H. now rewrite decide_False in H. }
  cbv zeta.
  destruct (connect_effect now u websocket w) as (Hf & Hc & Hbind & _).
  assert (Hhe : healthy (transport (connect now u websocket w)) websocket
                <-> healthy (transport w) websocket).
  { unfold healthy. now rewrite Hf, Hc. }
  destruct (healthy_dec (transport w) websocket) as [Hh|Hh].
  - rewrite send_text_healthy by now apply Hhe.
    cbn [fst snd]. split; [|split; [|split; [done|done]]].
    + intros v. split.
      * intros [= <-]. split; [done|]. split; [done|]. split; [eauto|done].
      * now intros ([= ->] & _).
    + intros v [= <-]. cbn [manager transport with_transport].
      split; [now apply Hbind|]. split.
      * unfold outbox at 1. cbn [sent]. rewrite lookup_insert_eq. cbn.
        apply last_snoc.
      * unfold healthy. cbn. now apply Hhe.
  - rewrite send_text_unhealthy by now rewrite Hhe.
    cbn [fst snd]. split; [|split; [done|split; [done|]]].
    + intros v. split; [done|]. now intros (_ & _ & _ & ?).
    + intros _. split; [done|]. split.
      * intros v [= <-] _. apply disconnect_forgets. now left.
      * intros [H|(x & [= <-] & H)]; [done|].
        cbn in H. now rewrite decide_False in H.
Qed.

End Handshake.

(** ** The hourly clean-up of the location service *)

Section Cleanup.
Implicit Types (s : LocationService).

Local Abbreviation recent_of cutoff_time history :=
  (List.filter
     (fun loc => bool_decide (cutoff_time <= LocationPoint.timestamp loc))
     history).

Lemma cleanup_users_spec cutoff_time l s :
  NoDup l ->
  (forall u, u ∈ l -> is_Some (user_movement_history s !! u)) ->
  let res := cleanup_users cutoff_time l s in
  res.1 = true /\
  (forall u history,
     u ∈ l -> user_movement_history s !! u = Some history ->
     match recent_of cutoff_time history with
     | [] =>
         user_movement_history res.2 !! u = None /\
         movement_states res.2 !! u = None
     | _ :: _ =>
         user_movement_history res.2 !! u
           = Some (recent_of cutoff_time history) /\
         movement_states res.2 !! u = movement_states s !! u
     end) /\
  (forall u, u ∉ l ->
     user_movement_history res.2 !! u = user_movement_history s !! u /\
     movement_states res.2 !! u = movement_states s !! u) /\
  proximity_cache res.2 = proximity_cache s /\
  last_proximity_check res.2 = last_proximity_check s /\
  active_geofences res.2 = active_geofences s /\
  user_geofence_status res.2 = user_geofence_status s.
Proof.
  revert s. induction l as [|k rest IH]; intros s Hnd Hkeys; cbn.
  - split; [done|]. split; [|done].
    intros u history Hin. now apply elem_of_nil in Hin.
  - apply NoDup_cons in Hnd as [Hk Hnd].
    destruct (Hkeys k) as [hk Hhk]; [now left|]. rewrite Hhk.
    set (s1 := match recent_of cutoff_time hk with
               | [] => _
               | _ :: _ => _
               end).
    assert (Hh1 : forall u, u ≠ k ->
              user_movement_history s1 !! u = user_movement_history s !! u).
    { intros u Hu. unfold s1. destruct (recent_of cutoff_time hk); cbn.
      - now rewrite lookup_delete_ne.
      - now rewrite lookup_insert_ne. }
    assert (Hm1 : forall u, u ≠ k ->
              movement_states s1 !! u = movement_states s !! u).
    { intros u Hu. unfold s1. destruct (recent_of cutoff_time hk); cbn;
        [|done]. now rewrite lookup_delete_ne. }
    assert (Hrest : proximity_cache s1 = proximity_cache s /\
                    last_proximity_check s1 = last_proximity_check s /\
                    active_geofences s1 = active_geofences s /\
                    user_geofence_status s1 = user_geofence_status s).
    { unfold s1. now destruct (recent_of cutoff_time hk). }
    destruct Hrest as (Hp1 & Hc1 & Hg1 & Hs1).
    destruct (IH s1 Hnd) as (Hok & Hin & Hout & Hp & Hc & Hg & Hs).
    { intros u Hu. rewrite Hh1 by (intros ->; done). apply Hkeys. now right. }
    split; [done|]. split; [|split].
    + intros u history Hu Hhist.
      apply elem_of_cons in Hu as [->|Hu].
      * destruct (Hout k Hk) as (-> & ->).
        rewrite Hhk in Hhist. injection Hhist as <-.
        unfold s1. destruct (recent_of cutoff_time hk) as [|x xs]; cbn.
        -- now rewrite !lookup_delete_eq.
        -- now rewrite lookup_insert_eq.
      * assert (Hne : u ≠ k) by (intros ->; done).
        specialize (Hin u history Hu). rewrite Hh1 in Hin by done.
        specialize (Hin Hhist). rewrite Hm1 in Hin by done. exact Hin.
    + intros u Hu. apply not_elem_of_cons in Hu as [Hne Hu].
      destruct (Hout u Hu) as (-> & ->). now rewrite Hh1, Hm1.
    + repeat split; congruence.
Qed.

(** X22.  One round of the hourly clean-up always completes.  It keeps,
    in order, exactly the samples of the last two hours of every
    history; a user whose samples are all older loses the history and
    the movement state, and is reported as Unknown from then on.  So no
    history is left empty and no sample left is older than two hours.
    Users without a history keep their movement state, and the proximity
    cache and the geofence statuses are not touched. *)
Theorem cleanup_sweep_keeps_recent current_time s :
  let cutoff_time := current_time - 2 * 3600 * 1000000 in
  let res := cleanup_sweep current_time s in
  res.1 = true /\
  (forall user_id history,
     user_movement_history s !! user_id = Some history ->
     (recent_of cutoff_time history ≠ [] ->
      user_movement_history res.2 !! user_id
        = Some (recent_of cutoff_time history) /\
      movement_states res.2 !! user_id = movement_states s !! user_id) /\
     (recent_of cutoff_time history = [] ->
      user_movement_history res.2 !! user_id = None /\
      get_user_movement_state user_id res.2 = UNKNOWN)) /\
  (forall user_id,
     user_movement_history s !! user_id = None ->
     user_movement_history res.2 !! user_id = None /\
     movement_states res.2 !! user_id = movement_states s !! user_id) /\
  (forall user_id history,
     user_movement_history res.2 !! user_id = Some history ->
     history ≠ [] /\
     forall loc, loc ∈ history ->
                 cutoff_time <= LocationPoint.timestamp loc) /\
  proximity_cache res.2 = proximity_cache s /\
  user_geofence_status res.2 = user_geofence_status s.
Proof.
  cbv zeta. unfold cleanup_sweep. cbv zeta.
  set (cutoff_time := current_time - 2 * 3600 * 1000000).
  set (l := (map_to_list (user_movement_history s)).*1).
  assert (Hkeys : forall u, u ∈ l <->
                            is_Some (user_movement_history s !! u)).
  { intros u. unfold l. rewrite list_elem_of_fmap. split.
    - intros ([u' h] & -> & Hin). apply elem_of_map_to_list in Hin. eauto.
    - intros [h Hh]. exists (u, h). split; [done|].
      now apply elem_of_map_to_list. }
  destruct (cleanup_users_spec cutoff_time l s)
    as (Hok & Hin & Hout & Hp & _ & _ & Hs).
  { apply NoDup_fst_map_to_list. }
  { intros u Hu. now apply Hkeys. }
  split; [done|]. split; [|split; [|split; [|done]]].
  - intros user_id history Hh.
    assert (Hu : user_id ∈ l) by (apply Hkeys; eauto).
    specialize (Hin user_id history Hu Hh).
    destruct (recent_of cutoff_time history) as [|x xs]; split; try done.
    intros _. destruct Hin as (Hh' & Hm). split; [done|].
    unfold get_user_movement_state. now rewrite Hm.
  - intros user_id Hh. destruct (Hout user_id) as (Hh' & Hm).
    + rewrite Hkeys, Hh. now intros [? ?].
    + split; [congruence|done].
  - intros user_id history Hh.
    destruct (user_movement_history s !! user_id) as [old|] eqn:E.
    + assert (Hu : user_id ∈ l) by (apply Hkeys; eauto).
      specialize (Hin user_id old Hu E).
      destruct (recent_of cutoff_time old) as [|x xs] eqn:Er.
      * destruct Hin as (Hn & _). congruence.
      * destruct Hin as (Hsome & _). rewrite Hsome in Hh.
        injection Hh as <-. split; [done|].
        intros loc Hloc. rewrite <- Er in Hloc.
        apply list_elem_of_In, List.filter_In in Hloc as [_ Hloc].
        now apply bool_decide_eq_true in Hloc.
    + destruct (Hout user_id) as (Hh' & _).
      * rewrite Hkeys, E. now intros [? ?].
      * congruence.
Qed.

End Cleanup.

(** ** Nearby users *)

Section NearbyUsersFacts.
Variable geodesic_meters : R -> R -> R -> R -> option R.
Implicit Types (d : Database).

Local Abbreviation distance_from me location :=
  (geodesic_meters (LocationData.latitude me) (LocationData.longitude me)
     (LocationData.latitude location) (LocationData.longitude location)).

Local Abbreviation entry_of location user distance :=
  (NearbyUser.mk (LocationData.user_id location) (User.name user)
     (round_1 distance) (LocationData.latitude location)
     (LocationData.longitude location) (LocationData.accuracy location)
     (LocationData.updated_at location) (User.is_online user)
     (User.last_seen user)).

Lemma Rleb_spec x y : Rleb x y = true <-> (x <= y)%R.
Proof.
  split.
  - intros H. destruct (Rle_dec x y) as [Hle|Hn]; [done|].
    apply Rnot_le_lt in Hn. rewrite Rleb_false in H by done. done.
  - apply Rleb_true.
Qed.

Lemma insert_by_distance_elem x l e :
  e ∈ insert_by_distance x l <-> e = x \/ e ∈ l.
Proof.
  induction l as [|y l IH]; cbn.
  - rewrite list_elem_of_singleton. split; [now left|].
    intros [H|H]; [done|]. now apply elem_of_nil in H.
  - destruct (Rleb _ _).
    + now rewrite elem_of_cons.
    + rewrite !elem_of_cons, IH. tauto.
Qed.

Lemma insert_by_distance_ascending x l :
  ascending (NearbyUser.distance_meters <$> l) ->
  ascending (NearbyUser.distance_meters <$> insert_by_distance x l).
Proof.
  induction l as [|y l IH]; cbn; [done|].
  intros [Hy Hl].
  destruct (Rleb (NearbyUser.distance_meters x)
              (NearbyUser.distance_meters y)) eqn:E; cbn.
  - apply Rleb_spec in E. split; [|done].
    apply Forall_cons. split; [done|].
    eapply Forall_impl; [exact Hy|]. intros z Hz. cbn in Hz.
    now apply Rle_trans with (NearbyUser.distance_meters y).
  - assert (Hlt : (NearbyUser.distance_meters y
                   < NearbyUser.distance_meters x)%R).
    { destruct (Rle_dec (NearbyUser.distance_meters x)
                  (NearbyUser.distance_meters y)) as [Hle|Hn].
      - apply Rleb_true in Hle. congruence.
      - now apply Rnot_le_lt. }
    split; [|now apply IH].
    apply Forall_forall. intros z Hz.
    apply list_elem_of_fmap in Hz as (e & -> & He).
    apply insert_by_distance_elem in He as [->|He].
    + now apply Rlt_le.
    + rewrite Forall_forall in Hy. apply Hy.
      apply list_elem_of_fmap. eauto.
Qed.

Lemma sort_by_distance_elem l e : e ∈ sort_by_distance l <-> e ∈ l.
Proof.
  induction l as [|x l IH]; cbn; [done|].
  rewrite insert_by_distance_elem, elem_of_cons, IH. tauto.
Qed.

Lemma sort_by_distance_ascending l :
  ascending (NearbyUser.distance_meters <$> sort_by_distance l).
Proof.
  induction l as [|x l IH]; cbn; [done|].
  now apply insert_by_distance_ascending.
Qed.

Lemma other_locations_spec d user_id include_offline location user :
  (location, user) ∈ other_locations d user_id include_offline <->
  location ∈ location_data d /\
  query_user d (LocationData.user_id location) = Some user /\
  LocationData.user_id location ≠ user_id /\
  User.is_active user = true /\
  User.location_sharing_enabled user = true /\
  (include_offline = true \/ User.is_online user = true).
Proof.
  unfold other_locations. rewrite list_elem_of_omap. split.
  - intros (l & Hin & H).
    destruct (query_user d (LocationData.user_id l)) as [u|] eqn:Eu; [|done].
    destruct (negb _ && _ && _ && _) eqn:Ec; [|done].
    injection H as <- <-.
    apply andb_true_iff in Ec as [Ec Hon].
    apply andb_true_iff in Ec as [Ec Hsh].
    apply andb_true_iff in Ec as [Hne Hact].
    apply negb_true_iff, bool_decide_eq_false in Hne.
    apply orb_true_iff in Hon. done.
  - intros (Hin & Hu & Hne & Hact & Hsh & Hon).
    exists location. split; [done|]. rewrite Hu, Hact, Hsh.
    rewrite bool_decide_eq_false_2 by done. cbn.
    apply orb_true_iff in Hon. now rewrite Hon.
Qed.

Lemma nearby_loop_spec me radius_meters locations acc :
  match nearby_loop geodesic_meters me radius_meters locations acc with
  | Some res =>
      (forall location user,
         (location, user) ∈ locations ->
         is_Some (distance_from me location)) /\
      (forall e,
         e ∈ res <->
         e ∈ acc \/
         exists location user distance,
           (location, user) ∈ locations /\
           distance_from me location = Some distance /\
           (distance <= radius_meters)%R /\
           e = entry_of location user distance)
  | None =>
      exists location user,
        (location, user) ∈ locations /\ distance_from me location = None
  end.
Proof.
  revert acc. induction locations as [|[l u] rest IH]; intros acc; cbn.
  - split.
    + intros location user H. now apply elem_of_nil in H.
    + intros e. split; [now left|].
      intros [H|(l & u & dist & H & _)]; [done|]. now apply elem_of_nil in H.
  - unfold _calculate_distance.
    destruct (distance_from me l) as [dist|] eqn:Ed.
    2:{ exists l, u. split; [now left|done]. }
    match goal with
    | |- context [nearby_loop _ _ _ rest ?acc1] =>
        specialize (IH acc1);
        destruct (nearby_loop geodesic_meters me radius_meters rest acc1)
          as [res|]
    end.
    2:{ destruct IH as (l' & u' & Hin & Hn). exists l', u'.
        split; [now right|done]. }
    destruct IH as (Htot & Hres). split.
    + intros location user Hin.
      apply elem_of_cons in Hin as [[= -> ->]|Hin]; [now rewrite Ed|].
      now apply (Htot location user).
    + intros e. rewrite Hres. split.
      * intros [Hacc|(l' & u' & dist' & Hin & Hd & Hle & ->)].
        -- destruct (Rleb dist radius_meters) eqn:E; [|now left].
           apply elem_of_app in Hacc as [Hacc|Hacc]; [now left|].
           apply list_elem_of_singleton in Hacc as ->.
           apply Rleb_spec in E. right. exists l, u, dist.
           split; [now left|done].
        -- right. exists l', u', dist'. split; [now right|done].
      * intros [Hacc|(l' & u' & dist' & Hin & Hd & Hle & ->)].
        -- left. destruct (Rleb dist radius_meters); [|done].
           apply elem_of_app. now left.
        -- apply elem_of_cons in Hin as [[= -> ->]|Hin].
           ++ left. rewrite Ed in Hd. injection Hd as <-.
              rewrite Rleb_true by done. apply elem_of_app. right.
              now apply list_elem_of_singleton.
           ++ right. exists l', u', dist'. done.
Qed.

(** X23.  [get_nearby_users] returns exactly the users who qualify,
    nearest first.  Every entry is another user who has a location row,
    is active, shares their location, is online unless offline users
    were asked for, and is within the radius of the caller's stored
    position; the reported distance is the true one rounded to a tenth
    of a metre, and the list is in ascending order of it.  When every
    distance can be computed nobody who qualifies is left out.  A caller
    without a stored position gets the empty list, and so does every
    caller when the distance to one candidate cannot be computed. *)
Theorem nearby_users_are_those_who_qualify user_id radius_meters
    include_offline d :
  let result :=
    get_nearby_users geodesic_meters user_id radius_meters include_offline
      d in
  let qualifies (location : LocationData.t) (user : User.t) :=
    location ∈ location_data d /\
    query_user d (LocationData.user_id location) = Some user /\
    LocationData.user_id location ≠ user_id /\
    User.is_active user = true /\
    User.location_sharing_enabled user = true /\
    (include_offline = true \/ User.is_online user = true) in
  (query_location d user_id = None -> result = []) /\
  ascending (NearbyUser.distance_meters <$> result) /\
  (forall e,
     e ∈ result ->
     exists me location user distance,
       query_location d user_id = Some me /\
       qualifies location user /\
       distance_from me location = Some distance /\
       (distance <= radius_meters)%R /\
       e = entry_of location user distance) /\
  (forall me,
     query_location d user_id = Some me ->
     (forall location user,
        qualifies location user -> is_Some (distance_from me location)) ->
     forall location user distance,
       qualifies location user ->
       distance_from me location = Some distance ->
       (distance <= radius_meters)%R ->
       entry_of location user distance ∈ result) /\
  (forall me location user,
     query_location d user_id = Some me ->
     qualifies location user ->
     distance_from me location = None ->
     result = []).
Proof.
  cbv zeta. unfold get_nearby_users.
  destruct (query_location d user_id) as [me|] eqn:Eme.
  2:{ split; [done|]. split; [done|]. split; [|split].
      - intros e H. now apply elem_of_nil in H.
      - done.
      - done. }
  pose proof (nearby_loop_spec me radius_meters
                (other_locations d user_id include_offline) []) as H.
  destruct (nearby_loop geodesic_meters me radius_meters
              (other_locations d user_id include_offline) []) as [res|].
  - destruct H as (Htot & Hres).
    split; [done|]. split; [apply sort_by_distance_ascending|].
    split; [|split].
    + intros e He. apply sort_by_distance_elem, Hres in He.
      destruct He as [He|(l & u & dist & Hin & Hd & Hle & ->)];
        [now apply elem_of_nil in He|].
      apply other_locations_spec in Hin.
      exists me, l, u, dist. done.
    + intros me' [= <-] _ l u dist Hq Hd Hle.
      apply sort_by_distance_elem, Hres. right.
      exists l, u, dist. split; [now apply other_locations_spec|done].
    + intros me' l u [= <-] Hq Hn.
      destruct (Htot l u) as [x Hx]; [now apply other_locations_spec|].
      congruence.
  - destruct H as (l & u & Hin & Hn).
    split; [done|]. split; [done|]. split; [|split].
    + intros e H. now apply elem_of_nil in H.
    + intros me' [= <-] Htot l' u' dist Hq Hd Hle.
      apply other_locations_spec in Hin.
      destruct (Htot l u Hin) as [x Hx]. congruence.
    + done.
Qed.

End NearbyUsersFacts.

(** ** Who is told about a location update *)

Section MoverOnly.
Implicit Types (w : World).

(** X24.  A location update with two non-zero coordinates tells the
    sender, and nobody else, about the friends nearby.  On a working
    socket the sender receives, in the order of the friendships, one
    [friend_nearby] frame for every active friendship that allows
    seeing locations and whose other user has a stored location within
    0.1 km and a user row; the distance is reported in whole metres.  No
    other socket receives anything, so the friend does not learn that
    the sender came close, and no connection is dropped. *)
Theorem location_update_tells_the_mover_only now user_id l lat lng w ws :
  LocationMsg.lat l = Some lat -> lat ≠ 0%R ->
  LocationMsg.lng l = Some lng -> lng ≠ 0%R ->
  active_connections (manager w) !! user_id = Some ws ->
  healthy (transport w) ws ->
  let w' := handle_message now user_id (location_update (Some l)) w in
  outbox (transport w') ws =
    outbox (transport w) ws ++
    omap (nearby_frame (database w') user_id lat lng)
      (List.filter (fun f : Friend.t =>
           (bool_decide (Friend.user1_id f = user_id)
            || bool_decide (Friend.user2_id f = user_id))
           && Friend.is_active f && Friend.can_see_location f)
         (friends (database w))) /\
  (forall ws', ws' ≠ ws ->
     outbox (transport w') ws' = outbox (transport w) ws') /\
  active_connections (manager w') = active_connections (manager w).
Proof.
  intros Hlat Hlat0 Hlng Hlng0 Hc Hh. cbv zeta. cbn [handle_message].
  unfold _handle_location_update. rewrite Hlat, Hlng.
  unfold _check_proximity. rewrite Hlat, Hlng.
  rewrite !truthy_float_nonzero by done. cbv zeta.
  match goal with
  | |- context [proximity_notify_loop user_id lat lng ?fs ?w2] =>
      destruct (proximity_notify_loop_frames user_id lat lng fs w2 ws)
        as (Hm & Hdb & _ & _ & Hout & Hother); [done|done|];
      assert (Hfs : fs = List.filter (fun f : Friend.t =>
                       (bool_decide (Friend.user1_id f = user_id)
                        || bool_decide (Friend.user2_id f = user_id))
                       && Friend.is_active f && Friend.can_see_location f)
                     (friends (database w)))
  end.
  { cbn [database with_database with_manager].
    match goal with
    | |- context [upsert_location user_id ?f (database w)] =>
        now destruct (upsert_location_tables user_id f (database w))
          as (_ & ->)
    end. }
  rewrite Hfs in *. rewrite Hm, Hdb. split; [exact Hout|].
  split; [exact Hother|done].
Qed.

End MoverOnly.

Lemma location_update_tells_the_mover_only_witness :
  active_connections
    (manager (handle_message 5 1 (location_update (Some at_one_one))
                colocated_world))
  = active_connections (manager colocated_world) /\
  outbox (transport (handle_message 5 1 (location_update (Some at_one_one))
                       colocated_world)) 12%positive
  = outbox (transport colocated_world) 12%positive.
Proof.
  destruct (location_update_tells_the_mover_only 5 1 at_one_one 1%R 1%R
              colocated_world 11%positive) as (_ & Ho & Hc).
  - reflexivity.
  - lra.
  - reflexivity.
  - lra.
  - reflexivity.
  - split; cbn; apply not_elem_of_empty.
  - split; [exact Hc|]. now apply Ho.
Defined.

(** ** What a joiner is sent *)

Section JoinReplay.
Implicit Types (w : World).

Lemma insert_newest_first_perm m l : insert_newest_first m l ≡ₚ m :: l.
Proof.
  induction l as [|y l IH]; cbn; [done|].
  destruct (bool_decide _); [done|].
  rewrite IH. apply Permutation_swap.
Qed.

Lemma newest_first_perm l : newest_first l ≡ₚ l.
Proof.
  induction l as [|x l IH]; cbn; [done|].
  now rewrite insert_newest_first_perm, IH.
Qed.

Lemma insert_newest_first_ordered m l :
  ordered (flip not_after) l ->
  ordered (flip not_after) (insert_newest_first m l).
Proof.
  induction l as [|y l IH]; cbn; [done|].
  intros [Hy Hl].
  destruct (bool_decide (Message.created_at y <= Message.created_at m))
    eqn:E; cbn.
  - apply bool_decide_eq_true in E. split; [|done].
    apply Forall_cons. split; [done|].
    eapply Forall_impl; [exact Hy|]. intros z Hz.
    unfold flip, not_after in *. lia.
  - apply bool_decide_eq_false in E. split; [|now apply IH].
    apply Forall_forall. intros z Hz.
    rewrite insert_newest_first_perm in Hz.
    apply elem_of_cons in Hz as [->|Hz].
    + unfold flip, not_after. lia.
    + rewrite Forall_forall in Hy. now apply Hy.
Qed.

Lemma newest_first_ordered l : ordered (flip not_after) (newest_first l).
Proof.
  induction l as [|x l IH]; cbn; [done|].
  now apply insert_newest_first_ordered.
Qed.

Lemma ordered_app {A} (le : A -> A -> Prop) l1 l2 :
  ordered le (l1 ++ l2) <->
  ordered le l1 /\ ordered le l2 /\
  (forall x y, x ∈ l1 -> y ∈ l2 -> le x y).
Proof.
  induction l1 as [|a l1 IH]; cbn.
  - split; [|tauto]. intros H. split; [done|]. split; [done|].
    intros x y Hx. now apply elem_of_nil in Hx.
  - rewrite IH, Forall_app, !Forall_forall. split.
    + intros ((Ha1 & Ha2) & Hl1 & Hl2 & Hc). repeat split; try done.
      intros x y Hx Hy. apply elem_of_cons in Hx as [->|Hx]; auto.
    + intros ((Ha1 & Hl1) & Hl2 & Hc). repeat split; try done.
      * intros y Hy. apply Hc; [now left|done].
      * intros x y Hx Hy. apply Hc; [now right|done].
Qed.

Lemma ordered_reverse {A} (le : A -> A -> Prop) l :
  ordered le l -> ordered (flip le) (reverse l).
Proof.
  induction l as [|a l IH]; [done|]. cbn [ordered].
  intros [Ha Hl]. rewrite reverse_cons. apply ordered_app.
  split; [now apply IH|]. split.
  { cbn [ordered]. split; [constructor|exact I]. }
  intros x y Hx Hy. apply list_elem_of_singleton in Hy as ->.
  rewrite elem_of_reverse in Hx. rewrite Forall_forall in Ha.
  unfold flip. now apply Ha.
Qed.

(** What the query of [_join_room] returns. *)
Lemma recent_messages_spec d room_id :
  let stored :=
    List.filter (fun m => bool_decide (Message.room_id m = room_id))
      (messages d) in
  let history := recent_messages d room_id in
  exists older,
    length history = Nat.min 50 (length stored) /\
    stored ≡ₚ older ++ history /\
    ordered not_after history /\
    (forall o h, o ∈ older -> h ∈ history -> not_after o h).
Proof.
  cbv zeta. unfold recent_messages.
  set (stored := List.filter _ (messages d)).
  set (sorted := newest_first stored).
  pose proof (newest_first_perm stored) as Hperm. fold sorted in Hperm.
  pose proof (newest_first_ordered stored) as Hord. fold sorted in Hord.
  rewrite <- (take_drop 50 sorted) in Hord.
  apply ordered_app in Hord as (Htake & _ & Hcross).
  exists (drop 50 sorted). split; [|split; [|split]].
  - rewrite length_reverse, length_take.
    rewrite (Permutation_length Hperm). lia.
  - rewrite <- Hperm. rewrite reverse_Permutation.
    rewrite <- (take_drop 50 sorted) at 1. apply Permutation_app_comm.
  - apply ordered_reverse in Htake.
    assert (Heq : forall l, ordered (flip (flip not_after)) l
                            -> ordered not_after l).
    { clear. induction l as [|x l IH]; cbn; [done|].
      intros [H1 H2]. split; [exact H1|now apply IH]. }
    now apply Heq.
  - intros o h Ho Hh. rewrite elem_of_reverse in Hh.
    exact (Hcross h o Hh Ho).
Qed.

(** X25.  A user who joins a room is sent its recent history.  When the
    join is admitted and the socket of the user works, the first frame
    the user receives is [room_joined] for that room, carrying the fifty
    newest messages of the room, or all of them when there are fewer,
    oldest first: the messages listed are stored messages of the room,
    each message left out was created no later than every message
    listed, and the list is in the order of [created_at]. *)
Theorem join_replays_recent_messages now user_id room_id location w ws :
  room_id ≠ 0 ->
  admitted room_id location (database w) ->
  active_connections (manager w) !! user_id = Some ws ->
  healthy (transport w) ws ->
  let w' := handle_message now user_id (join_room (Some room_id) location) w in
  let stored :=
    List.filter (fun m => bool_decide (Message.room_id m = room_id))
      (messages (database w)) in
  exists users history rest older,
    outbox (transport w') ws =
      outbox (transport w) ws ++ room_joined room_id users history :: rest /\
    length history = Nat.min 50 (length stored) /\
    stored ≡ₚ older ++ history /\
    ordered not_after history /\
    (forall o h, o ∈ older -> h ∈ history -> not_after o h).
Proof.
  intros Hid (room & Hroom & Hcap & Hloc) Hc Hh. cbv zeta.
  cbn [handle_message]. unfold _handle_join_room.
  cbn [truthy_id]. rewrite decide_False by done. rewrite Hroom.
  rewrite bool_decide_eq_false_2 by lia. rewrite Hloc.
  set (w1 := match first (active_membership room_id user_id)
                     (memberships (database w)) with
             | Some _ => w
             | None => _
             end).
  assert (Hw1 : manager w1 = manager w /\ transport w1 = transport w /\
                rooms (database w1) = rooms (database w) /\
                messages (database w1) = messages (database w)).
  { unfold w1. now destruct (first _ (memberships (database w))). }
  destruct Hw1 as (Hm1 & Ht1 & Hr1 & Hmsg1).
  unfold _join_room. cbv zeta.
  set (w2 := with_manager (with_room_memberships
                             (add_member room_id user_id)) w1).
  change (rooms (database w2)) with (rooms (database w1)). rewrite Hr1.
  destruct (first (fun r => bool_decide (Room.id r = room_id))
              (rooms (database w))) as [room'|] eqn:Eroom'.
  2:{ apply first_Some in Hroom as [Hp Hin].
      apply (first_None _ _ room) in Eroom'; [|done].
      apply andb_true_iff in Hp as [Hp _]. congruence. }
  apply first_Some in Eroom' as [Hid' _].
  apply bool_decide_eq_true in Hid'.
  assert (Hc2 : active_connections (manager w2) !! user_id = Some ws)
    by (cbn; now rewrite Hm1).
  assert (Hh2 : healthy (transport w2) ws)
    by (unfold healthy; cbn; now rewrite Ht1).
  assert (Hrec : recent_messages (database w2) room_id
                 = recent_messages (database w) room_id).
  { unfold recent_messages.
    change (messages (database w2)) with (messages (database w1)).
    now rewrite Hmsg1. }
  rewrite (send_to_user_healthy user_id ws) by done.
  match goal with
  | |- context [_broadcast_room_users room_id ?w4] =>
      destruct (broadcast_room_users_sends (fun _ => True) room_id w4
                  (fun _ => I)) as [_ (_ & _ & _ & _ & Hnew4)];
      destruct (Hnew4 ws) as (n4 & -> & _)
  end.
  match goal with
  | |- context [_broadcast_to_room room_id ?e ?ex ?w3] =>
      destruct (broadcast_to_room_sends (fun _ => True) room_id e ex w3 I)
        as [_ (_ & _ & _ & _ & Hnew3)];
      destruct (Hnew3 ws) as (n3 & -> & _)
  end.
  cbn [transport with_transport].
  rewrite outbox_after_send, decide_True by done.
  change (transport w2) with (transport w1). rewrite Ht1.
  rewrite Hrec, Hid'.
  destruct (recent_messages_spec (database w) room_id)
    as (older & Hlen & Hperm & Hord & Hcross).
  eexists _, _, (n3 ++ n4), older. split.
  { rewrite <- !app_assoc. cbn. reflexivity. }
  done.
Qed.

End JoinReplay.

Lemma join_replays_recent_messages_witness :
  exists users history rest,
    outbox (transport (handle_message 5 3 (join_room (Some 7) None)
                         (two_member_world 3))) 13%positive
    = room_joined 7 users history :: rest.
Proof.
  destruct (join_replays_recent_messages 5 3 7 None (two_member_world 3)
              13%positive) as (users & history & rest & older & H & _).
  - done.
  - exists (Room.mk 7 0 0 3 50 true). repeat split; vm_compute; done.
  - reflexivity.
  - split; cbn; apply not_elem_of_empty.
  - exists users, history, rest. exact H.
Defined.
